(** * A shallow embedding of the military-simulation engine

    The development follows the three Python modules that carry behaviour:

    - [agents.py]: [LLMAgent.respond], which turns a backend completion into
      a structured response and wraps every failure of that path in
      [AgentCompletionError], and the construction of an agent from a
      model name;
    - [run_military_simulation.py]: the body of [main], i.e. the per-day
      loop that queries every nation with a bounded retry budget, aborts on
      a total blackout, counts the provoking and extreme actions, updates
      the world and records the consequences of the day;
    - [download_sweep_data.py]: the loop of [main] over the runs of a
      sweep.

    Python objects that are mutated in place are threaded explicitly.
    Calls to a logger, to [time.sleep] and to the collaborators are recorded
    in an event trace, so that statements about "what happens before what"
    are statements about that trace. *)

From Stdlib Require Import ZArith QArith String Ascii DecimalString List Lia.
From stdpp Require Import base option list gmap strings relations sorting.

Set Warnings "-register-all".

Local Open Scope Z_scope.
Local Open Scope string_scope.

(** Python floats are carried around; no result depends on the value of
    one. *)
Definition pyfloat : Type := Q.

(* ===================================================================== *)
(** * Python values shared by both modules *)
(* ===================================================================== *)

Module Py.

(** What a backend hands back ([BackendResponse] in the source). *)
Record BackendResponse := {
  completion : string;
  br_prompt_tokens : Z;
  br_completion_tokens : Z;
  br_total_tokens : Z;
  br_completion_time_sec : pyfloat;
}.

(** Instances of Python's [Exception].  [AgentCompletionError] is the
    class declared in [agents.py] (a subclass of [ValueError]); it keeps
    the exception it was built from and the value of the local variable
    [response] that its message prints. *)
Inductive PyExc :=
| ValueError (msg : string)
| KeyError (key : string)
| TypeError (msg : string)
| AttributeError (msg : string)
| JSONDecodeError (msg : string)
| RuntimeError (msg : string)
| ZeroDivisionError (msg : string)
| IndexError (msg : string)
| NameError (name : string)
| OtherError (cls msg : string)
| AgentCompletionError (cause : option PyExc) (response : option BackendResponse).

Definition is_AgentCompletionError (e : PyExc) : bool :=
  match e with AgentCompletionError _ _ => true | _ => false end.

Definition is_RuntimeError (e : PyExc) : bool :=
  match e with RuntimeError _ => true | _ => false end.

(** A call either returns or raises. *)
Inductive Outcome (A : Type) :=
| Returns (a : A)
| Raises (e : PyExc).
Arguments Returns {A} a.
Arguments Raises {A} e.

Definition bind {A B} (m : Outcome A) (k : A -> Outcome B) : Outcome B :=
  match m with
  | Returns a => k a
  | Raises e => Raises e
  end.

(** JSON documents as [json.loads] builds them.  An object is kept as the
    list of its items in insertion order, like a Python [dict]. *)
Inductive json :=
| JNull
| JBool (b : bool)
| JNum (n : Q)
| JStr (s : string)
| JArr (items : list json)
| JObj (items : list (string * json)).

Definition dict := list (string * json).

(** [key in d] and [d[key]]. *)
Fixpoint dict_get (key : string) (d : dict) : option json :=
  match d with
  | [] => None
  | (k, v) :: rest => if String.eqb k key then Some v else dict_get key rest
  end.

Definition dict_contains (key : string) (d : dict) : bool :=
  match dict_get key d with Some _ => true | None => false end.

Definition dict_getitem (key : string) (d : dict) : Outcome json :=
  match dict_get key d with
  | Some v => Returns v
  | None => Raises (KeyError key)
  end.

(** [d[key] = v]: an existing key keeps its position. *)
Fixpoint dict_setitem {V} (key : string) (v : V) (d : list (string * V))
  : list (string * V) :=
  match d with
  | [] => [(key, v)]
  | (k, w) :: rest =>
      if String.eqb k key then (k, v) :: rest
      else (k, w) :: dict_setitem key v rest
  end.

(** ** The string methods used on the completion *)

(** [s.split(sep)[0]]: everything before the first [sep]. *)
Definition split_first (sep s : string) : string :=
  match String.index 0 sep s with
  | Some i => String.substring 0 i s
  | None => s
  end.

Definition in_chars (c : ascii) (chars : string) : bool :=
  existsb (Ascii.eqb c) (list_ascii_of_string chars).

Fixpoint lstrip (chars s : string) : string :=
  match s with
  | EmptyString => EmptyString
  | String c rest => if in_chars c chars then lstrip chars rest else s
  end.

Fixpoint rstrip (chars s : string) : string :=
  match s with
  | EmptyString => EmptyString
  | String c rest =>
      match rstrip chars rest with
      | EmptyString => if in_chars c chars then EmptyString else String c EmptyString
      | rest' => String c rest'
      end
  end.

(** [s.strip(chars)] *)
Definition strip (chars s : string) : string := rstrip chars (lstrip chars s).

(** [s.index(sub)] raises [ValueError] when [sub] does not occur. *)
Definition str_index (sub s : string) : Outcome nat :=
  match String.index 0 sub s with
  | Some i => Returns i
  | None => Raises (ValueError "substring not found")
  end.

(** Position of the last occurrence of the character [c], scanning with
    the current offset [pos]. *)
Fixpoint last_index_from (c : ascii) (s : string) (pos : nat) : option nat :=
  match s with
  | EmptyString => None
  | String d rest =>
      match last_index_from c rest (S pos) with
      | Some i => Some i
      | None => if Ascii.eqb d c then Some pos else None
      end
  end.

(** [s.rindex(c)] for a one-character [c]. *)
Definition str_rindex (c : ascii) (s : string) : Outcome nat :=
  match last_index_from c s 0 with
  | Some i => Returns i
  | None => Raises (ValueError "substring not found")
  end.

(** [s[start:stop]] for non-negative bounds. *)
Definition slice (start stop : nat) (s : string) : string :=
  String.substring start (stop - start) s.

(** [sep.join(parts)] *)
Fixpoint str_join (sep : string) (parts : list string) : string :=
  match parts with
  | [] => ""
  | [p] => p
  | p :: rest => p ++ sep ++ str_join sep rest
  end.

End Py.

Export Py.

#[export] Instance outcome_bind : MBind Outcome := fun A B k m => Py.bind m k.
#[export] Instance outcome_ret : MRet Outcome := @Returns.

(* ===================================================================== *)
(** * agents.py *)
(* ===================================================================== *)

Module Agents.

(** [AgentParams]: only [params.game.no_press] is read by [respond]; the
    rest of the object is what the prompt builders look at. *)
Record AgentParams := {
  no_press : bool;
  prompt_context : string;
}.

(** [AgentResponse], field for field. *)
Record AgentResponse := {
  reasoning : json;
  orders : json;
  messages : list (string * string);
  system_prompt : string;
  user_prompt : string;
  prompt_tokens : Z;
  completion_tokens : Z;
  total_tokens : Z;
  completion_time_sec : pyfloat;
}.

(** A completion backend: [backend.complete(system_prompt, user_prompt,
    completion_preface=..., temperature=..., top_p=...)]. *)
Record Backend := {
  model_name : string;
  complete : string -> string -> option string -> pyfloat -> pyfloat
             -> Outcome BackendResponse;
}.

Record LLMAgent := {
  use_completion_preface : bool;
  backend : Backend;
  temperature : pyfloat;
  top_p : pyfloat;
}.

Section Respond.

(** The module [prompts] and the library functions [json.loads],
    [str()] and [str.upper] are used as given. A text that starts with
    an opening brace decodes to an object or not at all, hence the
    result type of [json_loads]. *)
Variable get_system_prompt : AgentParams -> string.
Variable get_user_prompt : AgentParams -> string.
Variable get_preface_prompt : AgentParams -> string.
Variable json_loads : string -> Outcome dict.
Variable py_str : json -> string.
Variable str_upper : string -> string.

(** [for order in orders]: what iterating a JSON value yields. *)
Definition iterate (v : json) : Outcome (list json) :=
  match v with
  | JArr items => Returns items
  | JStr s => Returns (map (fun c => JStr (String c EmptyString)) (list_ascii_of_string s))
  | JObj items => Returns (map (fun kv => JStr (fst kv)) items)
  | _ => Raises (TypeError "object is not iterable")
  end.

Definition is_str (v : json) : bool :=
  match v with JStr _ => true | _ => false end.

(** The "Clean orders" loop: the first order that is not a [str]
    raises [AgentCompletionError]. *)
Fixpoint check_orders (response : BackendResponse) (items : list json)
  : Outcome unit :=
  match items with
  | [] => Returns tt
  | order :: rest =>
      if is_str order then check_orders response rest
      else Raises (AgentCompletionError None (Some response))
  end.

(** [" ".join(message)] *)
Fixpoint join_parts (items : list json) : Outcome (list string) :=
  match items with
  | [] => Returns []
  | JStr s :: rest => (parts ← join_parts rest; Returns (s :: parts))
  | _ :: _ => Raises (TypeError "sequence item: expected str instance")
  end.

(** One message is first forced into a string. *)
Definition message_text (message : json) : Outcome string :=
  match message with
  | JArr items => (parts ← join_parts items; Returns (str_join " " parts))
  | JStr s => Returns s
  | other => Returns (py_str other)
  end.

(** The loop over [completion["messages"].items()]. *)
Fixpoint collect_messages (items : list (string * json))
    (messages : list (string * string)) : Outcome (list (string * string)) :=
  match items with
  | [] => Returns messages
  | (recipient, message) :: rest =>
      (text ← message_text message;
       if String.eqb text "" then collect_messages rest messages
       else collect_messages rest (dict_setitem (str_upper recipient) text messages))
  end.

(** [completion["messages"].items()] *)
Definition dict_items (v : json) : Outcome (list (string * json)) :=
  match v with
  | JObj items => Returns items
  | _ => Raises (AttributeError "object has no attribute 'items'")
  end.

(** The characters of [" `\n"]: space, backquote, line feed. *)
Definition strip_chars : string :=
  String " " (String "`" (String (ascii_of_nat 10) EmptyString)).

(** Everything in the [try] block after the backend has answered. *)
Definition parse_completion (params : AgentParams)
    (response : BackendResponse) (json_completion : string)
  : Outcome (json * json * list (string * string)) :=
  (let json_completion := strip strip_chars (split_first "**" json_completion) in
   start ← str_index "{" json_completion;
   last ← str_rindex "}" json_completion;
   let stop := (last + 1)%nat in
   let json_completion := slice start stop json_completion in
   completion ← json_loads json_completion;
   let reasoning :=
     match dict_get "reasoning" completion with
     | Some v => v
     | None => JStr "*model outputted no reasoning*"
     end in
   orders ← dict_getitem "orders" completion;
   order_items ← iterate orders;
   _ ← check_orders response order_items;
   let completion :=
     if no_press params then dict_setitem "messages" (JObj []) completion
     else completion in
   raw_messages ← dict_getitem "messages" completion;
   message_items ← dict_items raw_messages;
   messages ← collect_messages message_items [];
   Returns (reasoning, orders, messages)).

(** The whole [try] block.  Next to its outcome it gives the value the
    local variable [response] has when the block is left, which the
    handler prints. *)
Definition try_block (self : LLMAgent) (params : AgentParams)
    (system_prompt user_prompt : string)
  : option BackendResponse
    * Outcome (json * json * list (string * string) * BackendResponse) :=
  let call :=
    if use_completion_preface self then
      let preface_prompt := get_preface_prompt params in
      (response ← complete (backend self) system_prompt user_prompt
                     (Some preface_prompt) (temperature self) (top_p self);
       Returns (response, preface_prompt ++ completion response))
    else
      (response ← complete (backend self) system_prompt user_prompt
                     None (temperature self) (top_p self);
       Returns (response, completion response)) in
  match call with
  | Raises e => (None, Raises e)
  | Returns (response, json_completion) =>
      (Some response,
       ('(reasoning, orders, messages) ← parse_completion params response json_completion;
        Returns (reasoning, orders, messages, response)))
  end.

(** [LLMAgent.respond] *)
Definition respond (self : LLMAgent) (params : AgentParams)
  : Outcome AgentResponse :=
  let system_prompt := get_system_prompt params in
  let user_prompt := get_user_prompt params in
  match try_block self params system_prompt user_prompt with
  | (response, Raises exc) => Raises (AgentCompletionError (Some exc) response)
  | (_, Returns (reasoning, orders, messages, response)) =>
      Returns {| reasoning := reasoning;
                 orders := orders;
                 messages := messages;
                 system_prompt := system_prompt;
                 user_prompt := user_prompt;
                 prompt_tokens := br_prompt_tokens response;
                 completion_tokens := br_completion_tokens response;
                 total_tokens := br_total_tokens response;
                 completion_time_sec := br_completion_time_sec response |}
  end.

(** The one call made to the backend, and the text that is parsed. *)
Definition backend_call (self : LLMAgent) (params : AgentParams)
  : Outcome BackendResponse :=
  complete (backend self) (get_system_prompt params) (get_user_prompt params)
    (if use_completion_preface self then Some (get_preface_prompt params) else None)
    (temperature self) (top_p self).

Definition completion_text (self : LLMAgent) (params : AgentParams)
    (response : BackendResponse) : string :=
  if use_completion_preface self
  then get_preface_prompt params ++ completion response
  else completion response.

(** The text between the first opening and the last closing brace. *)
Definition cleaned (text : string) : string :=
  strip strip_chars (split_first "**" text).

(** A text that starts with an opening and ends with a closing brace. *)
Definition braced (text : string) : Prop :=
  String.get 0 text = Some "{"%char
  /\ String.get (String.length text - 1) text = Some "}"%char.

End Respond.

End Agents.

(* ===================================================================== *)
(** * run_military_simulation.py *)
(* ===================================================================== *)

Module Simulation.

Local Open Scope list_scope.
Local Open Scope Z_scope.

(** ** Data carried through a run ([data_types]) *)

(** [Action]; the field [self] of the source is [self_] here. *)
Record Action := {
  self_ : string;
  other : string;
  name : string;
  content : string;
}.

Record NationResponse := {
  system_prompt : string;
  user_prompt : string;
  reasoning : string;
  actions : list Action;
  completion_time_sec : pyfloat;
  prompt_tokens : Z;
  completion_tokens : Z;
  total_tokens : Z;
}.

Record WorldModelResponse := {
  consequences : string;
  wm_system_prompt : string;
  wm_user_prompt : string;
  wm_prompt_tokens : Z;
  wm_completion_tokens : Z;
  wm_total_tokens : Z;
  wm_completion_time_sec : pyfloat;
}.

(** ** The world
    The classes [Nation] and [World] live in modules that are not part of
    the sources at hand; what follows is their description in the
    specification. *)

(** Modelled from the spec: [Nation] (module [nations]) is the AgentState
    record: an immutable identity, read in [main] through
    [nation.get_static("name")], and the mutable numeric dynamic
    variables. *)
Record Nation := {
  nation_name : string;
  dynamic : gmap string Z;
}.

Definition set_dynamic (nation : Nation) (d : gmap string Z) : Nation :=
  {| nation_name := nation_name nation; dynamic := d |}.

(** Modelled from the spec: the ActionEffectSpec of one action kind, with
    the signed deltas for the actor and for the target and the
    classification tags of the kind.  ([main] does not read the tags: it
    counts by the lists of names of the module [constants].) *)
Record ActionEffectSpec := {
  actor_delta : gmap string Z;
  target_delta : gmap string Z;
  tags : list string;
}.

(** Modelled from the spec: the action catalog (the [action_config] table
    handed to [World]): one entry per action kind, and the [min, max]
    bound of every dynamic field. *)
Record ActionConfig := {
  effects : gmap string ActionEffectSpec;
  bounds : gmap string (Z * Z);
}.

(** Modelled from the spec: the state owned by [World] (module [world]):
    the agents, the catalog, the day counter with its maximum and the
    day-indexed consequence history. *)
Record World := {
  nations : list Nation;
  action_config : ActionConfig;
  max_days : Z;
  current_day : Z;
  consequence_history : gmap Z WorldModelResponse;
}.

(** Modelled from the spec: the day counter starts at 0. *)
Definition INITIAL_DAY : Z := 0.

(** Modelled from the spec: [World(logger, nations, action_config,
    max_days=...)] in state INITIALIZED. *)
Definition World_init (nations : list Nation) (action_config : ActionConfig)
    (max_days : Z) : World :=
  {| nations := nations;
     action_config := action_config;
     max_days := max_days;
     current_day := INITIAL_DAY;
     consequence_history := ∅ |}.

(** Modelled from the spec: [world.previous_day], the day that was just
    completed. *)
Definition previous_day (world : World) : Z := current_day world - 1.

(** [world.consequence_history[day] = record] *)
Definition set_consequence (world : World) (day : Z)
    (record : WorldModelResponse) : World :=
  {| nations := nations world;
     action_config := action_config world;
     max_days := max_days world;
     current_day := current_day world;
     consequence_history := <[day := record]> (consequence_history world) |}.

(** Modelled from the spec: deltas are additive, field by field; the set
    of dynamic fields of an agent never changes. *)
Definition apply_delta (delta : gmap string Z) (dyn : gmap string Z)
  : gmap string Z :=
  map_imap (fun field value => Some (value + default 0 (delta !! field))) dyn.

(** Modelled from the spec: a delta lands on the agent with the given
    identity; a sentinel target names no agent. *)
Definition apply_to (who : string) (delta : gmap string Z)
    (nations : list Nation) : list Nation :=
  map (fun nation =>
         if String.eqb (nation_name nation) who
         then set_dynamic nation (apply_delta delta (dynamic nation))
         else nation) nations.

(** Modelled from the spec: resolution of one action.  An action whose
    kind is not in the catalog is dropped and reported. *)
Definition resolve_action (config : ActionConfig)
    (acc : list Nation * list Action) (action : Action)
  : list Nation * list Action :=
  match effects config !! name action with
  | None => (acc.1, acc.2 ++ [action])
  | Some spec =>
      (apply_to (other action) (target_delta spec)
         (apply_to (self_ action) (actor_delta spec) acc.1),
       acc.2)
  end.

(** The action kinds the catalog knows. *)
Definition known (config : ActionConfig) (action : Action) : Prop :=
  is_Some (effects config !! name action).

#[export] Instance known_dec config action : Decision (known config action).
Proof. unfold known. apply _. Defined.

(** Modelled from the spec: clamping truncates a value to [lo, hi]. *)
Definition clamp_value (lo hi value : Z) : Z := Z.max lo (Z.min hi value).

(** Modelled from the spec: clamping applies to every dynamic value that
    has a configured bound. *)
Definition clamp_dynamic (config : ActionConfig) (dyn : gmap string Z)
  : gmap string Z :=
  map_imap (fun field value =>
              Some (match bounds config !! field with
                    | Some (lo, hi) => clamp_value lo hi value
                    | None => value
                    end)) dyn.

(** What the end-of-turn clamp makes of the state of one nation. *)
Definition settled (config : ActionConfig) (clamp_enabled : bool)
    (nation : Nation) : Nation :=
  if clamp_enabled
  then set_dynamic nation (clamp_dynamic config (dynamic nation))
  else nation.

(** The dynamic values of a nation lie within the configured bounds. *)
Definition within_bounds (config : ActionConfig) (nation : Nation) : Prop :=
  forall field value lo hi,
    dynamic nation !! field = Some value ->
    bounds config !! field = Some (lo, hi) ->
    lo <= value <= hi.

(** Modelled from the spec: ActionResolver, [resolve(current_states,
    actions, effect_table, clamp_enabled)]: every action in input order,
    then one clamp per field at the end of the turn. The second
    component lists the dropped actions, one warning each. *)
Definition resolve (states : list Nation) (actions : list Action)
    (config : ActionConfig) (clamp_enabled : bool)
  : list Nation * list Action :=
  let '(states, dropped) := foldl (resolve_action config) (states, []) actions in
  (if clamp_enabled
   then map (fun nation => set_dynamic nation (clamp_dynamic config (dynamic nation))) states
   else states,
   dropped).

(** Modelled from the spec: [world.update_state(actions)] replaces the
    agent states by the resolved ones and increments the day counter. *)
Definition update_state (clamp_enabled : bool) (world : World)
    (actions : list Action) : World * list Action :=
  let '(states, dropped) :=
    resolve (nations world) actions (action_config world) clamp_enabled in
  ({| nations := states;
      action_config := action_config world;
      max_days := max_days world;
      current_day := current_day world + 1;
      consequence_history := consequence_history world |},
   dropped).

(** ** What [main] logs *)

(** Rows of the tables [daily/model_responses_text],
    [daily/model_responses_costs] and [daily/actions]. *)
Record TextRow := {
  text_day : Z;
  text_nation_name : string;
  text_system_prompt : string;
  text_user_prompt : string;
  text_reasoning : string;
  text_actions : string;
}.

Record CostRow := {
  cost_day : Z;
  cost_nation_name : string;
  cost_completion_time_sec : pyfloat;
  cost_prompt_tokens : Z;
  cost_completion_tokens : Z;
  cost_total_tokens : Z;
}.

Record ActionRow := {
  row_day : Z;
  row_self : string;
  row_other : string;
  row_action : string;
  row_content : string;
}.

(** The [log_object] handed to [wandb.log] at the end of a day.  The
    float [_progress/percent_done], the four cost histograms and the
    tables of dynamic variables are left out. *)
Record LogObject := {
  progress_day : Z;
  daily_model_responses_text : list TextRow;
  daily_model_responses_costs : list CostRow;
  daily_actions : list ActionRow;
  daily_provoking_plus_action_counts : Z;
  whole_run_sum_provoking_plus_action_counts : Z;
  whole_run_max_provoking_plus_action_counts : Z;
  daily_extreme_action_counts : Z;
  whole_run_sum_extreme_action_counts : Z;
  whole_run_max_extreme_action_counts : Z;
  daily_consequences : Z * WorldModelResponse;
}.

(** The two messages [main] sends to [logger.error]. *)
Inductive ErrorText :=
| MaxRetriesExceeded (nation_name : string)
| AllNationsExceeded (max_model_retries : Z).

(** Observable steps of a run, in the order they happen. *)
Inductive Event :=
| EvRespond (day : Z) (nation_index attempt : nat)
| EvWarning (nation_name : string) (exc : PyExc)
| EvSleep (seconds : Z)
| EvError (text : ErrorText)
| EvUpdateState (day : Z) (queued_actions : list Action)
| EvDropped (action : Action)
| EvSummarize (day : Z)
| EvWandbLog (log_object : LogObject).

(** The calls that resolve actions or ask for a consequence summary. *)
Definition is_engine_call (e : Event) : bool :=
  match e with
  | EvUpdateState _ _ | EvSummarize _ => true
  | _ => false
  end.

Definition is_respond_call (e : Event) : bool :=
  match e with EvRespond _ _ _ => true | _ => false end.

(** The run-wide trackers of [main] next to the world and the trace. *)
Record RunState := {
  world : World;
  trace : list Event;
  model_response_text_whole_run : list TextRow;
  model_response_costs_whole_run : list CostRow;
  actions_whole_run : list ActionRow;
  aggressive_action_counts_whole_run : list Z;
  extreme_action_counts_whole_run : list Z;
}.

(** [wandb.config], as far as the loop reads it. *)
Record Config := {
  max_model_retries : Z;
  clamp_dynamic_variables : bool;
}.

(** Python's [sum] and [max] on a list of integers; [max] of an empty
    list raises [ValueError]. *)
Definition py_sum (l : list Z) : Z := foldl Z.add 0 l.

Definition py_max (l : list Z) : Outcome Z :=
  match l with
  | [] => Raises (ValueError "max() arg is an empty sequence")
  | x :: rest => Returns (foldl Z.max x rest)
  end.

(** The counting loop of lines 324-330 for one list of action names. *)
Definition count_actions (names : list string) (queued_actions : list Action) : Z :=
  foldl (fun count action =>
           if bool_decide (name action ∈ names) then count + 1 else count)
        0 queued_actions.

(** Modelled from the spec: the per-turn count of the MetricsAggregator
    for one classification tag, as the specification words it: among the
    actions resolved in the turn, which are those whose kind the catalog
    lists, the number of those whose ActionEffectSpec carries the tag.
    [main] computes [count_actions] instead; this is what it is compared
    with. *)
Definition tag_count (config : ActionConfig) (tag : string)
    (queued_actions : list Action) : Z :=
  Z.of_nat
    (length
       (List.filter (fun action =>
                       match effects config !! name action with
                       | Some spec => bool_decide (tag ∈ tags spec)
                       | None => false
                       end) queued_actions)).

(** How a day ends: normally, or with an exception leaving [main]. *)
Inductive TurnResult :=
| TurnDone (st : RunState)
| TurnRaised (exc : PyExc) (st : RunState).

Inductive RunResult :=
| Completed (st : RunState)
| Aborted (exc : PyExc) (st : RunState).

(** What the loop over the nations leaves behind. *)
Record Collected := {
  queued_actions : list Action;
  model_responses : list NationResponse;
  num_nations_exceeded_max_retries : nat;
  events : list Event;
}.

(** The trace of one failed attempt: the call, the warning that carries
    the exception, the pause. *)
Definition failed_attempt (day : Z) (nation_index : nat) (nation : Nation)
    (attempt : nat) (exc : PyExc) : list Event :=
  [EvRespond day nation_index attempt; EvWarning (nation_name nation) exc; EvSleep 1].

(** Positions, counted from [index], of the entries that hold a response. *)
Fixpoint responders {A} (results : list (option A)) (index : nat) : list nat :=
  match results with
  | [] => []
  | Some _ :: rest => index :: responders rest (S index)
  | None :: rest => responders rest (S index)
  end.

Section Main.

(** The constants [PROVOKING_PLUS_ACTIONS] and [EXTREME_ACTIONS] of the
    module [constants], the parsed command line, and the collaborators:
    [nation.respond(world)] for the nation at an index of the roster on
    a given attempt, [world_model.summarize_consequences(world)] and
    [utils.format_actions(response)].  A call to [respond] returns a
    [NationResponse] or raises an instance of [Exception]; the world is
    only read by the collaborators. *)
Variable PROVOKING_PLUS_ACTIONS : list string.
Variable EXTREME_ACTIONS : list string.
Variable config : Config.
Variable respond : nat -> nat -> World -> Outcome NationResponse.
Variable summarize_consequences : World -> WorldModelResponse.
Variable format_actions : NationResponse -> string.

(** The retry loop of lines 228-237 with [attempts] iterations left;
    [attempt] counts the iterations already done. *)
Fixpoint retry_loop (world : World) (nation_index : nat) (nation : Nation)
    (attempts attempt : nat) : option NationResponse * list Event :=
  match attempts with
  | O => (None, [])
  | S attempts' =>
      match respond nation_index attempt world with
      | Returns response =>
          (Some response, [EvRespond (current_day world) nation_index attempt])
      | Raises exc =>
          let '(response, evs) :=
            retry_loop world nation_index nation attempts' (S attempt) in
          (response,
           EvRespond (current_day world) nation_index attempt
             :: EvWarning (nation_name nation) exc
             :: EvSleep 1
             :: evs)
      end
  end.

(** [for _ in range(wandb.config.max_model_retries)] *)
Definition query_nation (world : World) (nation_index : nat) (nation : Nation)
  : option NationResponse * list Event :=
  retry_loop world nation_index nation (Z.to_nat (max_model_retries config)) 0.

(** The loop [for nation_index, nation in enumerate(world.nations)] of
    lines 227-249, from position [nation_index] on. *)
Fixpoint collect (world : World) (rest : list Nation) (nation_index : nat)
  : Collected :=
  match rest with
  | [] =>
      {| queued_actions := []; model_responses := [];
         num_nations_exceeded_max_retries := 0; events := [] |}
  | nation :: rest' =>
      let '(response, evs) := query_nation world nation_index nation in
      let later := collect world rest' (S nation_index) in
      match response with
      | None =>
          {| queued_actions := queued_actions later;
             model_responses := model_responses later;
             num_nations_exceeded_max_retries :=
               S (num_nations_exceeded_max_retries later);
             events :=
               evs ++ EvError (MaxRetriesExceeded (nation_name nation))
                   :: events later |}
      | Some response =>
          {| queued_actions := actions response ++ queued_actions later;
             model_responses := response :: model_responses later;
             num_nations_exceeded_max_retries :=
               num_nations_exceeded_max_retries later;
             events := evs ++ events later |}
      end
  end.

(** What each nation of the roster ended up with, in roster order. *)
Fixpoint query_results (world : World) (rest : list Nation) (nation_index : nat)
  : list (option NationResponse) :=
  match rest with
  | [] => []
  | nation :: rest' =>
      (query_nation world nation_index nation).1
        :: query_results world rest' (S nation_index)
  end.

(** The comprehensions of lines 259-290 and 309-318. *)
Definition text_rows (day : Z) (nations : list Nation)
    (model_responses : list NationResponse) : list TextRow :=
  zip_with (fun nation response =>
              {| text_day := day;
                 text_nation_name := nation_name nation;
                 text_system_prompt := system_prompt response;
                 text_user_prompt := user_prompt response;
                 text_reasoning := reasoning response;
                 text_actions := format_actions response |})
           nations model_responses.

Definition cost_rows (day : Z) (nations : list Nation)
    (model_responses : list NationResponse) : list CostRow :=
  zip_with (fun nation response =>
              {| cost_day := day;
                 cost_nation_name := nation_name nation;
                 cost_completion_time_sec := completion_time_sec response;
                 cost_prompt_tokens := prompt_tokens response;
                 cost_completion_tokens := completion_tokens response;
                 cost_total_tokens := total_tokens response |})
           nations model_responses.

Definition action_rows (day : Z) (queued_actions : list Action) : list ActionRow :=
  map (fun action =>
         {| row_day := day;
            row_self := self_ action;
            row_other := other action;
            row_action := name action;
            row_content := content action |})
      queued_actions.

(** Line 220: [world.current_day / world.max_days * 100.0], the figure
    logged as [_progress/percent_done].  It is evaluated on entering every
    day, before any nation is queried, and the division raises
    [ZeroDivisionError] when [max_days] is 0.  The figure itself, given
    here as the exact quotient, is not kept in [LogObject] and nothing
    reads it. *)
Definition percent_done (world : World) : Outcome pyfloat :=
  if max_days world =? 0
  then Raises (ZeroDivisionError "division by zero")
  else Returns (inject_Z (current_day world) / inject_Z (max_days world)
                * inject_Z 100)%Q.

(** [str(n)] for an integer. *)
Definition py_str_int (n : Z) : string := NilZero.string_of_int (Z.to_int n).

(** The character U+1F6A8 that opens the error texts, as the four bytes
    of its UTF-8 encoding. *)
Definition siren : string :=
  String (ascii_of_nat 240) (String (ascii_of_nat 159)
    (String (ascii_of_nat 154) (String (ascii_of_nat 168) EmptyString))).

(** The text of lines 253-255, logged as an error and raised. *)
Definition all_nations_error_text (retries : Z) : string :=
  (siren ++ "  All nations exceeded max retries (" ++ py_str_int retries
     ++ "), ending simulation")%string.

(** What follows the progress figure in one iteration of the [while] loop
    (lines 222-419).  The list [nations] of [main] and [world.nations] are
    the same list.  The calls to [logger.info], the progress bar and
    [utils.sleep_if_mock_wandb] leave no event. *)
Definition run_day (st : RunState) : TurnResult :=
  let w := world st in
  let day := current_day w in
  let c := collect w (nations w) 0 in
  let trace1 := trace st ++ events c in
  if bool_decide (num_nations_exceeded_max_retries c = length (nations w)) then
    TurnRaised
      (RuntimeError (all_nations_error_text (max_model_retries config)))
      {| world := w;
         trace := trace1 ++ [EvError (AllNationsExceeded (max_model_retries config))];
         model_response_text_whole_run := model_response_text_whole_run st;
         model_response_costs_whole_run := model_response_costs_whole_run st;
         actions_whole_run := actions_whole_run st;
         aggressive_action_counts_whole_run := aggressive_action_counts_whole_run st;
         extreme_action_counts_whole_run := extreme_action_counts_whole_run st |}
  else
    let text_today := text_rows day (nations w) (model_responses c) in
    let costs_today := cost_rows day (nations w) (model_responses c) in
    let actions_today := action_rows day (queued_actions c) in
    let provoking_plus_action_counts_daily :=
      count_actions PROVOKING_PLUS_ACTIONS (queued_actions c) in
    let extreme_action_counts_daily :=
      count_actions EXTREME_ACTIONS (queued_actions c) in
    let aggressive := aggressive_action_counts_whole_run st
                        ++ [provoking_plus_action_counts_daily] in
    let extreme := extreme_action_counts_whole_run st
                     ++ [extreme_action_counts_daily] in
    let logged text costs acts w tr :=
      {| world := w;
         trace := tr;
         model_response_text_whole_run := text;
         model_response_costs_whole_run := costs;
         actions_whole_run := acts;
         aggressive_action_counts_whole_run := aggressive;
         extreme_action_counts_whole_run := extreme |} in
    let text := model_response_text_whole_run st ++ text_today in
    let costs := model_response_costs_whole_run st ++ costs_today in
    let acts := actions_whole_run st ++ actions_today in
    match py_max aggressive, py_max extreme with
    | Raises exc, _ | Returns _, Raises exc =>
        TurnRaised exc (logged text costs acts w trace1)
    | Returns max_provoking, Returns max_extreme =>
        let '(w1, dropped) :=
          update_state (clamp_dynamic_variables config) w (queued_actions c) in
        let world_model_response := summarize_consequences w1 in
        let w2 := set_consequence w1 (previous_day w1) world_model_response in
        let log_object :=
          {| progress_day := day;
             daily_model_responses_text := text_today;
             daily_model_responses_costs := costs_today;
             daily_actions := actions_today;
             daily_provoking_plus_action_counts :=
               provoking_plus_action_counts_daily;
             whole_run_sum_provoking_plus_action_counts := py_sum aggressive;
             whole_run_max_provoking_plus_action_counts := max_provoking;
             daily_extreme_action_counts := extreme_action_counts_daily;
             whole_run_sum_extreme_action_counts := py_sum extreme;
             whole_run_max_extreme_action_counts := max_extreme;
             daily_consequences := (previous_day w2, world_model_response) |} in
        TurnDone
          (logged text costs acts w2
             (trace1 ++ EvUpdateState day (queued_actions c)
                     :: map EvDropped dropped
                     ++ [EvSummarize (current_day w1); EvWandbLog log_object]))
    end.

(** One iteration of the [while] loop (lines 215-419): the progress
    figure, then the day itself. *)
Definition turn (st : RunState) : TurnResult :=
  match percent_done (world st) with
  | Raises exc => TurnRaised exc st
  | Returns _ => run_day st
  end.

(** [while world.current_day <= world.max_days], with a bound on the
    number of iterations; [None] means the bound was too small. *)
Fixpoint main_loop (fuel : nat) (st : RunState) : option RunResult :=
  match fuel with
  | O => None
  | S fuel' =>
      if current_day (world st) <=? max_days (world st) then
        match turn st with
        | TurnDone st' => main_loop fuel' st'
        | TurnRaised exc st' => Some (Aborted exc st')
        end
      else Some (Completed st)
  end.

(** The state in which the loop is entered (lines 166-207), for a roster
    that has a first nation (see [main_setup]). *)
Definition main_init (nations : list Nation) (action_config : ActionConfig)
    (max_days : Z) : RunState :=
  {| world := World_init nations action_config max_days;
     trace := [];
     model_response_text_whole_run := [];
     model_response_costs_whole_run := [];
     actions_whole_run := [];
     aggressive_action_counts_whole_run := [];
     extreme_action_counts_whole_run := [] |}.

(** Lines 154-207, up to the loop.  [nations[0].list_dynamic()] of line
    170 raises [IndexError] when the roster is empty; the column names it
    gives feed only the tables of dynamic variables, which are left out.
    With a first nation in the roster the loop is entered in the state
    [main_init]. *)
Definition main_setup (nations : list Nation) (action_config : ActionConfig)
    (max_days : Z) : Outcome RunState :=
  match nations with
  | [] => Raises (IndexError "list index out of range")
  | _ :: _ => Returns (main_init nations action_config max_days)
  end.

(** [main] from its set-up to the end of its loop: the set-up may raise,
    otherwise the loop runs. *)
Definition main_run (fuel : nat) (nations : list Nation)
    (action_config : ActionConfig) (max_days : Z) : option (Outcome RunResult) :=
  match main_setup nations action_config max_days with
  | Raises exc => Some (Raises exc)
  | Returns st => Returns <$> main_loop fuel st
  end.

(** One completed day of the loop, as a step relation. *)
Definition turn_step (st st' : RunState) : Prop :=
  current_day (world st) <= max_days (world st) /\ turn st = TurnDone st'.

End Main.

End Simulation.

(* ===================================================================== *)
(** * Concrete inputs *)
(* ===================================================================== *)

Module Examples.

Local Open Scope list_scope.
Local Open Scope Z_scope.

(** ** An agent in front of a scripted backend *)

Definition no_prompt (params : Agents.AgentParams) : string := "".

(** A decoder that knows two documents. *)
Definition orders_document : dict :=
  [("reasoning", JStr "hold the line");
   ("orders", JArr [JStr "A PAR H"]);
   ("messages", JObj [("fra", JStr "peace"); ("eng", JStr "")])].

Definition toy_loads (text : string) : Outcome dict :=
  if String.eqb text "{full}" then Returns orders_document
  else if String.eqb text "{}" then Returns []
  else if String.eqb text "{bad order}" then Returns [("orders", JArr [JNum 1%Q])]
  else Raises (JSONDecodeError "Expecting value").

Definition toy_str (v : json) : string := "?".

Definition answering (text : string) : Agents.Backend :=
  {| Agents.model_name := "gpt-test";
     Agents.complete := fun _ _ _ _ _ =>
       Returns {| completion := text;
                  br_prompt_tokens := 10;
                  br_completion_tokens := 5;
                  br_total_tokens := 15;
                  br_completion_time_sec := 1%Q |} |}.

Definition failing : Agents.Backend :=
  {| Agents.model_name := "gpt-test";
     Agents.complete := fun _ _ _ _ _ => Raises (OtherError "APIError" "rate limit") |}.

Definition chat_agent (b : Agents.Backend) : Agents.LLMAgent :=
  {| Agents.use_completion_preface := false;
     Agents.backend := b;
     Agents.temperature := 1%Q;
     Agents.top_p := 1%Q |}.

Definition press : Agents.AgentParams :=
  {| Agents.no_press := false; Agents.prompt_context := "" |}.

Definition toy_respond :=
  Agents.respond no_prompt no_prompt no_prompt toy_loads toy_str (fun s => s).

(** ** Two nations and one action kind *)

Import Simulation.

Definition power (value : Z) : gmap string Z := {["power" := value]}.

Definition nation_A : Nation := {| nation_name := "A"; dynamic := power 50 |}.
Definition nation_B : Nation := {| nation_name := "B"; dynamic := power 50 |}.
Definition weak_B : Nation := {| nation_name := "B"; dynamic := power 5 |}.
(** A nation configured above the bound of its field. *)
Definition strong_B : Nation := {| nation_name := "B"; dynamic := power 150 |}.

Definition catalog : ActionConfig :=
  {| effects := {["attack" := {| actor_delta := power (-5);
                                 target_delta := power (-10);
                                 tags := ["aggressive"] |}]};
     bounds := {["power" := (0, 100)]} |}.

Definition attack : Action :=
  {| self_ := "A"; other := "B"; name := "attack"; content := "" |}.

(** An action kind that the catalog does not list. *)
Definition parade : Action :=
  {| self_ := "A"; other := "B"; name := "parade"; content := "" |}.

Definition answer (text : string) (queued : list Action) : NationResponse :=
  {| system_prompt := "";
     user_prompt := "";
     reasoning := text;
     actions := queued;
     completion_time_sec := 1%Q;
     prompt_tokens := 10;
     completion_tokens := 5;
     total_tokens := 15 |}.

Definition timeout : PyExc := OtherError "Timeout" "no answer".

(** Nobody answers. *)
Definition silent (nation_index attempt : nat) (w : World) : Outcome NationResponse :=
  Raises timeout.

(** Only the first nation answers, on its second attempt. *)
Definition only_first (nation_index attempt : nat) (w : World)
  : Outcome NationResponse :=
  match nation_index, attempt with
  | O, S _ => Returns (answer "from A" [attack])
  | _, _ => Raises timeout
  end.

(** Only the first nation answers, and it does nothing. *)
Definition first_idle (nation_index attempt : nat) (w : World)
  : Outcome NationResponse :=
  match nation_index with
  | O => Returns (answer "from A" [])
  | _ => Raises timeout
  end.

(** Only the second nation answers. *)
Definition only_second (nation_index attempt : nat) (w : World)
  : Outcome NationResponse :=
  match nation_index with
  | S O => Returns (answer "from B" [])
  | _ => Raises timeout
  end.

(** The first nation plays an action kind unknown to the catalog. *)
Definition parading (nation_index attempt : nat) (w : World)
  : Outcome NationResponse :=
  match nation_index with
  | O => Returns (answer "from A" [parade])
  | _ => Raises timeout
  end.

Definition summary (w : World) : WorldModelResponse :=
  {| consequences := "tension rises";
     wm_system_prompt := "";
     wm_user_prompt := "";
     wm_prompt_tokens := 20;
     wm_completion_tokens := 10;
     wm_total_tokens := 30;
     wm_completion_time_sec := 1%Q |}.

Definition no_format (response : NationResponse) : string := "".

Definition two_retries (clamp : bool) : Config :=
  {| max_model_retries := 2; clamp_dynamic_variables := clamp |}.

Definition start (max_days : Z) : RunState :=
  main_init [nation_A; nation_B] catalog max_days.

End Examples.

(* ===================================================================== *)
(** * agents.py: building an agent from a model name *)
(* ===================================================================== *)

Module Dispatch.

Local Open Scope list_scope.

(** Truth value of a Python object, as [not x] sees it. *)
Definition truthy (v : json) : bool :=
  match v with
  | JNull => false
  | JBool b => b
  | JNum n => negb (Qeq_bool n 0)
  | JStr s => negb (String.eqb s "")
  | JArr items => match items with [] => false | _ => true end
  | JObj items => match items with [] => false | _ => true end
  end.

(** [sub in s] on strings. *)
Definition contains (sub s : string) : bool :=
  match String.index 0 sub s with
  | Some _ => true
  | None => false
  end.

(** The four backend classes with the arguments they are built from. *)
Inductive Backend :=
| OpenAICompletionBackend (model_name : string)
| ClaudeCompletionBackend (model_name : string)
| HuggingFaceCausalLMBackend (model_name : string)
    (local_llm_path device quantization fourbit_compute_dtype : json)
| OpenAIChatBackend (model_name : string).

Definition is_chat (b : Backend) : bool :=
  match b with OpenAIChatBackend _ => true | _ => false end.

Definition is_completion (b : Backend) : bool :=
  match b with OpenAICompletionBackend _ => true | _ => false end.

Definition is_llama (b : Backend) : bool :=
  match b with HuggingFaceCausalLMBackend _ _ _ _ _ => true | _ => false end.

(** The attributes [LLMAgent.__init__] sets.  For a llama model the four
    attributes [local_llm_path], [device], [quantization] and
    [fourbit_compute_dtype] are the arguments of the backend. *)
Record LLMAgent := {
  use_completion_preface : bool;
  backend : Backend;
  temperature : json;
  top_p : json;
}.

(** [kwargs.pop(key)] and [kwargs.pop(key, default)]; every key is popped
    at most once, so the dictionary itself need not be threaded. *)
Definition pop (key : string) (kwargs : gmap string json) : Outcome json :=
  match kwargs !! key with
  | Some v => Returns v
  | None => Raises (KeyError key)
  end.

Definition pop_default (key : string) (default : json) (kwargs : gmap string json)
  : json :=
  match kwargs !! key with
  | Some v => v
  | None => default
  end.

(** [LLMAgent.__init__(self, model_name, **kwargs)] *)
Definition LLMAgent_init (model_name : string) (kwargs : gmap string json)
  : Outcome LLMAgent :=
  let disable_completion_preface :=
    pop_default "disable_completion_preface" (JBool false) kwargs in
  let use_completion_preface := negb (truthy disable_completion_preface) in
  '(use_completion_preface, backend) ←
    (if contains "gpt-4-base" model_name
        || contains "text-" model_name
        || contains "davinci" model_name
        || contains "turbo-instruct" model_name
     then Returns (use_completion_preface, OpenAICompletionBackend model_name)
     else if contains "claude" model_name
     then Returns (use_completion_preface, ClaudeCompletionBackend model_name)
     else if contains "llama" model_name
     then
       local_llm_path ← pop "local_llm_path" kwargs;
       device ← pop "device" kwargs;
       quantization ← pop "quantization" kwargs;
       fourbit_compute_dtype ← pop "fourbit_compute_dtype" kwargs;
       Returns (use_completion_preface,
                HuggingFaceCausalLMBackend model_name local_llm_path device
                  quantization fourbit_compute_dtype)
     else Returns (false, OpenAIChatBackend model_name));
  Returns {| use_completion_preface := use_completion_preface;
             backend := backend;
             temperature := pop_default "temperature" (JNum (7 # 10)) kwargs;
             top_p := pop_default "top_p" (JNum 1) kwargs |}.

(** What [model_name_to_agent] can return: [LLMAgent] is the only
    subclass of [Agent] the module defines. *)
Inductive Agent :=
| LLM (agent : LLMAgent).

(** The call [LLMAgent(model_name, **kwargs)]: the instance and the model
    name are passed by position, so a keyword named [self] or
    [model_name] is refused with [TypeError] (multiple values for the
    argument) before the body of [__init__] runs.  When both keywords are
    present the interpreter names the one that comes first in [kwargs];
    the message here names [self]. *)
Definition LLMAgent_new (model_name : string) (kwargs : gmap string json)
  : Outcome LLMAgent :=
  if bool_decide (is_Some (kwargs !! "self"))
  then Raises (TypeError "__init__() got multiple values for argument 'self'")
  else if bool_decide (is_Some (kwargs !! "model_name"))
  then Raises (TypeError "__init__() got multiple values for argument 'model_name'")
  else LLMAgent_init model_name kwargs.

(** The five substrings that send a name to [LLMAgent]. *)
Definition names_llm (model_name : string) : bool :=
  contains "gpt-" model_name
  || contains "davinci-" model_name
  || contains "text-" model_name
  || contains "claude" model_name
  || contains "llama" model_name.

(** The four names of scripted agents. *)
Definition scripted (model_name : string) : bool :=
  String.eqb model_name "random"
  || String.eqb model_name "manual"
  || String.eqb model_name "nopress"
  || String.eqb model_name "exploiter".

(** The class each of them is sent to. *)
Definition scripted_class (model_name : string) : option string :=
  if String.eqb model_name "random" then Some "RandomAgent"
  else if String.eqb model_name "manual" then Some "ManualAgent"
  else if String.eqb model_name "nopress" then Some "NoPressAgent"
  else if String.eqb model_name "exploiter" then Some "ExploiterAgent"
  else None.

Section ModelName.

(** [str.lower] is used as given. *)
Variable str_lower : string -> string.

(** [model_name_to_agent(model_name, **kwargs)].  The names
    [RandomAgent], [ManualAgent], [NoPressAgent] and [ExploiterAgent] are
    neither defined nor imported in the module: looking one up raises
    [NameError] before anything is called. *)
Definition model_name_to_agent (model_name : string) (kwargs : gmap string json)
  : Outcome Agent :=
  let model_name := str_lower model_name in
  if String.eqb model_name "random" then Raises (NameError "RandomAgent")
  else if String.eqb model_name "manual" then Raises (NameError "ManualAgent")
  else if String.eqb model_name "nopress" then Raises (NameError "NoPressAgent")
  else if String.eqb model_name "exploiter" then Raises (NameError "ExploiterAgent")
  else if contains "gpt-" model_name
          || contains "davinci-" model_name
          || contains "text-" model_name
          || contains "claude" model_name
          || contains "llama" model_name
  then agent ← LLMAgent_new model_name kwargs; Returns (LLM agent)
  else Raises (ValueError ("Unknown model name: " ++ model_name)%string).

End ModelName.

(** The keyword arguments a llama model needs, in the order they are
    popped. *)
Definition llama_keys : list string :=
  ["local_llm_path"; "device"; "quantization"; "fourbit_compute_dtype"].

(** The branch of [LLMAgent.__init__] a model name takes. *)
Definition takes_completion (model_name : string) : bool :=
  contains "gpt-4-base" model_name
  || contains "text-" model_name
  || contains "davinci" model_name
  || contains "turbo-instruct" model_name.

Definition takes_claude (model_name : string) : bool :=
  negb (takes_completion model_name) && contains "claude" model_name.

Definition takes_llama (model_name : string) : bool :=
  negb (takes_completion model_name)
  && negb (contains "claude" model_name)
  && contains "llama" model_name.

End Dispatch.

(* ===================================================================== *)
(** * run_military_simulation.py: what a run costs and reports *)
(* ===================================================================== *)

Module Report.
Import Simulation.

Local Open Scope list_scope.
Local Open Scope Z_scope.

(** The seconds spent in [time.sleep] during a stretch of a run. *)
Definition seconds_slept (evs : list Event) : Z :=
  foldr (fun e total => match e with EvSleep seconds => seconds + total | _ => total end)
        0 evs.

(** The number of calls to [nation.respond] during a stretch of a run. *)
Definition respond_calls (evs : list Event) : nat :=
  length (List.filter is_respond_call evs).

(** A row of the table [whole_run/consequences]. *)
Record ConsequenceRow := {
  con_day : Z;
  con_consequences : string;
  con_system_prompt : string;
  con_user_prompt : string;
  con_prompt_tokens : Z;
  con_completion_tokens : Z;
  con_total_tokens : Z;
  con_completion_time : pyfloat;
}.

(** [sorted(world.consequence_history.items())]: the keys of a dictionary
    are distinct, so the pairs are ordered by their day. *)
Definition by_day (a b : Z * WorldModelResponse) : Prop := a.1 <= b.1.

#[export] Instance by_day_dec a b : Decision (by_day a b).
Proof. unfold by_day. apply _. Defined.

Definition sorted_items (history : gmap Z WorldModelResponse)
  : list (Z * WorldModelResponse) :=
  merge_sort by_day (map_to_list history).

(** The comprehension of lines 447-459. *)
Definition consequence_rows (world : World) : list ConsequenceRow :=
  map (fun item =>
         {| con_day := item.1;
            con_consequences := consequences item.2;
            con_system_prompt := wm_system_prompt item.2;
            con_user_prompt := wm_user_prompt item.2;
            con_prompt_tokens := wm_prompt_tokens item.2;
            con_completion_tokens := wm_completion_tokens item.2;
            con_total_tokens := wm_total_tokens item.2;
            con_completion_time := wm_completion_time_sec item.2 |})
      (sorted_items (consequence_history world)).

End Report.

(* ===================================================================== *)
(** * download_sweep_data.py *)
(* ===================================================================== *)

Module Sweep.

Local Open Scope list_scope.

(** Python text is a sequence of Unicode code points, here numbers;
    [run.name[-1]] is the last code point of the name, whatever the
    number of bytes it is stored in. *)
Definition text : Type := list N.

(** A literal of the source; every character of the literals of this
    script is ASCII. *)
Definition lit (s : string) : text := map N_of_ascii (list_ascii_of_string s).

Definition OUTPUT_FOLDER_ACTIONS : text := lit "results/actions_v2".
Definition OUTPUT_FOLDER_VARIABLES : text := lit "results/variables_v2".

(** A run of the sweep, as far as [main] reads it: [run.id], [run.name]. *)
Record Run := {
  id : text;
  name : text;
}.

(** The calls [main] makes to the artifact store and to the file system:
    [api.artifact(name)], [artifact.download(root=root)],
    [os.rename(src, dst)] and [os.rmdir(path)]. *)
Inductive Effect :=
| Artifact (artifact : text)
| Download (artifact root : text)
| Rename (src dst : text)
| Rmdir (path : text).

(** [s[-1]]: the last character, [IndexError] on the empty string. *)
Definition last_char (s : text) : Outcome text :=
  match last s with
  | None => Raises (IndexError "string index out of range")
  | Some c => Returns [c]
  end.

(** The two file names a run is stored under. *)
Definition actions_target (prefix last : text) : text :=
  OUTPUT_FOLDER_ACTIONS ++ lit "/" ++ prefix ++ lit " A" ++ last ++ lit ".json".

Definition variables_target (prefix last : text) : text :=
  OUTPUT_FOLDER_VARIABLES ++ lit "/" ++ prefix ++ lit " V" ++ last ++ lit ".json".

(** The destinations of the renames among some calls. *)
Definition rename_targets (effects : list Effect) : list text :=
  omap (fun e => match e with Rename _ dst => Some dst | _ => None end) effects.

(** The two files the renames of a run write, when the run has a name. *)
Definition run_targets (prefix : text) (run : Run) : list text :=
  match last (name run) with
  | Some c => [actions_target prefix [c]; variables_target prefix [c]]
  | None => []
  end.

(** A step of [main]: from the calls made so far to the calls made once
    the step is over, and whether the step ended or raised. *)
Definition Step (A : Type) : Type := list Effect -> list Effect * Outcome A.

Definition step_bind {A B} (m : Step A) (k : A -> Step B) : Step B :=
  fun done =>
    match m done with
    | (done', Returns a) => k a done'
    | (done', Raises exc) => (done', Raises exc)
    end.

(** The value of an expression that calls nothing outside. *)
Definition evaluate {A} (outcome : Outcome A) : Step A :=
  fun done => (done, outcome).

Section Main.

(** [constants.WANDB_PROJECT] and [str.strip] are used as given.  So is
    the world outside: [call done e] is the exception with which the call
    [e] ends when the calls [done] were made before it, [None] when it
    returns, and [path_exists done path] is the answer of
    [os.path.exists] at that point. *)
Variable WANDB_PROJECT : text.
Variable str_strip : text -> text.
Variable call : list Effect -> Effect -> option PyExc.
Variable path_exists : list Effect -> text -> bool.

(** One call to the outside. *)
Definition perform (e : Effect) : Step unit :=
  fun done =>
    (done ++ [e],
     match call done e with
     | Some exc => Raises exc
     | None => Returns tt
     end).

(** A step only adds calls, and what it raises is the [IndexError] of
    [run.name[-1]] or the exception of the last call made. *)
Definition accounted {A} (m : Step A) : Prop :=
  forall done,
    (exists new, (m done).1 = done ++ new)
    /\ (forall exc,
          (m done).2 = Raises exc ->
          exc = IndexError "string index out of range"
          \/ exists before e, (m done).1 = before ++ [e]
                              /\ call before e = Some exc).

(** The body of the loop over the runs. *)
Definition process_run (prefix : text) (run : Run) : Step unit :=
  let actions :=
    WANDB_PROJECT ++ lit "/run-" ++ id run ++ lit "-whole_runactions:latest" in
  let variables :=
    WANDB_PROJECT ++ lit "/run-" ++ id run ++ lit "-whole_rundynamic_vars:latest" in
  step_bind (perform (Artifact actions)) (fun _ =>
  step_bind (perform (Download actions OUTPUT_FOLDER_ACTIONS)) (fun _ =>
  step_bind (evaluate (last_char (name run))) (fun last =>
  step_bind (perform
               (Rename (OUTPUT_FOLDER_ACTIONS ++ lit "/whole_run/actions.table.json")
                  (actions_target prefix last))) (fun _ =>
  step_bind (perform (Artifact variables)) (fun _ =>
  step_bind (perform (Download variables OUTPUT_FOLDER_VARIABLES)) (fun _ =>
  step_bind (evaluate (last_char (name run))) (fun last =>
  perform
    (Rename (OUTPUT_FOLDER_VARIABLES ++ lit "/whole_run/dynamic_vars.table.json")
       (variables_target prefix last))))))))).

(** [for run in tqdm(runs)] *)
Fixpoint process_runs (prefix : text) (runs : list Run) : Step unit :=
  match runs with
  | [] => evaluate (Returns tt)
  | run :: rest =>
      step_bind (process_run prefix run) (fun _ => process_runs prefix rest)
  end.

(** [if os.path.exists(path): os.rmdir(path)] *)
Definition remove_if_exists (path : text) : Step unit :=
  fun done =>
    if path_exists done path then perform (Rmdir path) done
    else (done, Returns tt).

(** The removal of the two [whole_run] folders. *)
Definition cleanup : Step unit :=
  step_bind (remove_if_exists (OUTPUT_FOLDER_ACTIONS ++ lit "/whole_run")) (fun _ =>
  remove_if_exists (OUTPUT_FOLDER_VARIABLES ++ lit "/whole_run")).

(** [main] from its loop on, given the runs of the sweep and the prefix
    typed in. *)
Definition main (runs : list Run) (prefix_input : text)
  : list Effect * Outcome unit :=
  let prefix := str_strip prefix_input in
  step_bind (process_runs prefix runs) (fun _ => cleanup) [].

End Main.

End Sweep.

(* ===================================================================== *)
(** * More concrete inputs *)
(* ===================================================================== *)

Module MoreExamples.

Local Open Scope list_scope.
Local Open Scope Z_scope.

(** A game without press. *)
Definition no_press_params : Agents.AgentParams :=
  {| Agents.no_press := true; Agents.prompt_context := "" |}.

(** The completion of a talkative model. *)
Definition wrapped_completion : string := "Sure: {full} **system**".

(** The same completion from a model that stops earlier. *)
Definition short_completion : string := "Sure: {full} ".

(** Three runs of a sweep; the first and the last end in the same
    character. *)
Definition sweep_runs : list Sweep.Run :=
  [{| Sweep.id := Sweep.lit "a1"; Sweep.name := Sweep.lit "sweep-1" |};
   {| Sweep.id := Sweep.lit "b2"; Sweep.name := Sweep.lit "sweep-2" |};
   {| Sweep.id := Sweep.lit "c3"; Sweep.name := Sweep.lit "sweep-11" |}].

(** A run that is given no retry at all. *)
Definition no_retry : Simulation.Config :=
  {| Simulation.max_model_retries := 0;
     Simulation.clamp_dynamic_variables := false |}.

(** Both nations answer at once, the first with an attack. *)
Definition both_answer (nation_index attempt : nat) (w : Simulation.World)
  : Outcome Simulation.NationResponse :=
  match nation_index with
  | O => Returns (Examples.answer "from A" [Examples.attack])
  | _ => Returns (Examples.answer "from B" [])
  end.

End MoreExamples.

(* ===================================================================== *)
(** * Properties of [LLMAgent.respond] *)
(* ===================================================================== *)

Module AgentsProofs.
Import Agents.

Section Respond.

Variable get_system_prompt : AgentParams -> string.
Variable get_user_prompt : AgentParams -> string.
Variable get_preface_prompt : AgentParams -> string.
Variable json_loads : string -> Outcome dict.
Variable py_str : json -> string.
Variable str_upper : string -> string.

Abbreviation respond :=
  (respond get_system_prompt get_user_prompt get_preface_prompt
     json_loads py_str str_upper).
Abbreviation try_block :=
  (try_block get_preface_prompt json_loads py_str str_upper).
Abbreviation parse_completion := (parse_completion json_loads py_str str_upper).
Abbreviation backend_call :=
  (backend_call get_system_prompt get_user_prompt get_preface_prompt).
Abbreviation completion_text := (completion_text get_preface_prompt).


Lemma try_block_backend_raises self params e :
  backend_call self params = Raises e ->
  try_block self params (get_system_prompt params) (get_user_prompt params)
  = (None, Raises e).
Proof.
  unfold Agents.backend_call, Agents.try_block.
  destruct (use_completion_preface self); intros ->; reflexivity.
Qed.

Lemma try_block_backend_returns self params response :
  backend_call self params = Returns response ->
  try_block self params (get_system_prompt params) (get_user_prompt params)
  = (Some response,
     '(reasoning, orders, messages) ←
        parse_completion params response (completion_text self params response);
     Returns (reasoning, orders, messages, response)).
Proof.
  unfold Agents.backend_call, Agents.completion_text, Agents.try_block.
  destruct (use_completion_preface self); intros ->; reflexivity.
Qed.

Lemma respond_backend_raises self params e :
  backend_call self params = Raises e ->
  respond self params = Raises (AgentCompletionError (Some e) None).
Proof.
  intros H. unfold Agents.respond.
  by rewrite (try_block_backend_raises _ _ _ H).
Qed.

Lemma respond_parse_raises self params response e :
  backend_call self params = Returns response ->
  parse_completion params response (completion_text self params response) = Raises e ->
  respond self params = Raises (AgentCompletionError (Some e) (Some response)).
Proof.
  intros Hb Hp. unfold Agents.respond.
  rewrite (try_block_backend_returns _ _ _ Hb), Hp. reflexivity.
Qed.

Lemma respond_parse_returns self params response reasoning orders messages :
  backend_call self params = Returns response ->
  parse_completion params response (completion_text self params response)
  = Returns (reasoning, orders, messages) ->
  respond self params
  = Returns {| reasoning := reasoning;
               orders := orders;
               messages := messages;
               system_prompt := get_system_prompt params;
               user_prompt := get_user_prompt params;
               prompt_tokens := br_prompt_tokens response;
               completion_tokens := br_completion_tokens response;
               total_tokens := br_total_tokens response;
               completion_time_sec := br_completion_time_sec response |}.
Proof.
  intros Hb Hp. unfold Agents.respond.
  rewrite (try_block_backend_returns _ _ _ Hb), Hp. reflexivity.
Qed.

(** *** The failures of the parsing path, one by one *)

Lemma parse_no_opening_brace params response text :
  String.index 0 "{" (cleaned text) = None ->
  exists msg, parse_completion params response text = Raises (ValueError msg).
Proof.
  intros H. unfold Agents.parse_completion, str_index. fold (cleaned text).
  rewrite H. eexists. reflexivity.
Qed.

Lemma parse_no_closing_brace params response text start :
  String.index 0 "{" (cleaned text) = Some start ->
  last_index_from "}" (cleaned text) 0 = None ->
  exists msg, parse_completion params response text = Raises (ValueError msg).
Proof.
  intros H1 H2. unfold Agents.parse_completion, str_index, str_rindex.
  fold (cleaned text). rewrite H1. cbn. rewrite H2. eexists. reflexivity.
Qed.

Lemma parse_json_raises params response text start last e :
  String.index 0 "{" (cleaned text) = Some start ->
  last_index_from "}" (cleaned text) 0 = Some last ->
  json_loads (slice start (last + 1) (cleaned text)) = Raises e ->
  parse_completion params response text = Raises e.
Proof.
  intros H1 H2 H3. unfold Agents.parse_completion, str_index, str_rindex.
  fold (cleaned text). rewrite H1. cbn. rewrite H2. cbn. rewrite H3.
  reflexivity.
Qed.

Lemma parse_missing_orders params response text start last completion :
  String.index 0 "{" (cleaned text) = Some start ->
  last_index_from "}" (cleaned text) 0 = Some last ->
  json_loads (slice start (last + 1) (cleaned text)) = Returns completion ->
  dict_get "orders" completion = None ->
  parse_completion params response text = Raises (KeyError "orders").
Proof.
  intros H1 H2 H3 H4. unfold Agents.parse_completion, str_index, str_rindex.
  fold (cleaned text). rewrite H1. cbn. rewrite H2. cbn. rewrite H3. cbn.
  unfold dict_getitem. rewrite H4. reflexivity.
Qed.

Lemma check_orders_non_str response items :
  existsb (fun order => negb (is_str order)) items = true ->
  check_orders response items = Raises (AgentCompletionError None (Some response)).
Proof.
  induction items as [|order rest IH]; cbn; [done|].
  destruct (is_str order); cbn; auto.
Qed.

Lemma parse_non_str_order params response text start last completion orders items :
  String.index 0 "{" (cleaned text) = Some start ->
  last_index_from "}" (cleaned text) 0 = Some last ->
  json_loads (slice start (last + 1) (cleaned text)) = Returns completion ->
  dict_get "orders" completion = Some orders ->
  iterate orders = Returns items ->
  existsb (fun order => negb (is_str order)) items = true ->
  parse_completion params response text
  = Raises (AgentCompletionError None (Some response)).
Proof.
  intros H1 H2 H3 H4 H5 H6. unfold Agents.parse_completion, str_index, str_rindex.
  fold (cleaned text). rewrite H1. cbn. rewrite H2. cbn. rewrite H3. cbn.
  unfold dict_getitem. rewrite H4. cbn. rewrite H5. cbn.
  rewrite (check_orders_non_str _ _ H6). reflexivity.
Qed.

(** C10: [respond] either returns a response whose nine fields are all
    set (the prompts it built, what it extracted from the completion
    and the usage figures of the backend response), or it raises
    [AgentCompletionError] and nothing else.  In particular a backend
    error, a completion without braces, a decoding failure, a missing
    "orders" key and an order that is not a string all surface as
    [AgentCompletionError]. *)
Theorem respond_returns_or_raises_AgentCompletionError self params :
  ((exists response reasoning orders messages,
       backend_call self params = Returns response /\
       respond self params
       = Returns {| reasoning := reasoning;
                    orders := orders;
                    messages := messages;
                    system_prompt := get_system_prompt params;
                    user_prompt := get_user_prompt params;
                    prompt_tokens := br_prompt_tokens response;
                    completion_tokens := br_completion_tokens response;
                    total_tokens := br_total_tokens response;
                    completion_time_sec := br_completion_time_sec response |})
   \/ (exists e, respond self params = Raises e /\ is_AgentCompletionError e = true))
  /\ (forall e, backend_call self params = Raises e ->
        respond self params = Raises (AgentCompletionError (Some e) None))
  /\ (forall response, backend_call self params = Returns response ->
        let text := cleaned (completion_text self params response) in
        let wrapped e := Raises (AgentCompletionError (Some e) (Some response)) in
        (String.index 0 "{" text = None ->
         exists msg, respond self params = wrapped (ValueError msg))
        /\ (forall start, String.index 0 "{" text = Some start ->
             last_index_from "}" text 0 = None ->
             exists msg, respond self params = wrapped (ValueError msg))
        /\ (forall start last, String.index 0 "{" text = Some start ->
             last_index_from "}" text 0 = Some last ->
             match json_loads (slice start (last + 1) text) with
             | Raises e => respond self params = wrapped e
             | Returns completion =>
                 match dict_get "orders" completion with
                 | None => respond self params = wrapped (KeyError "orders")
                 | Some orders =>
                     forall items, iterate orders = Returns items ->
                     existsb (fun order => negb (is_str order)) items = true ->
                     respond self params
                     = wrapped (AgentCompletionError None (Some response))
                 end
             end)).
Proof.
  split; [|split].
  - destruct (backend_call self params) as [response|e] eqn:Hb.
    + destruct (parse_completion params response
                  (completion_text self params response))
        as [[[reasoning orders] messages]|e] eqn:Hp.
      * left. exists response, reasoning, orders, messages.
        split; [done|]. by apply respond_parse_returns.
      * right. eexists. split; [by eapply respond_parse_raises|done].
    + right. eexists. split; [by apply respond_backend_raises|done].
  - apply respond_backend_raises.
  - intros response Hb text wrapped. subst text wrapped. cbv beta.
    split; [|split].
    + intros H.
      destruct (parse_no_opening_brace params response _ H) as [msg Hp].
      exists msg. by eapply respond_parse_raises.
    + intros start H1 H2.
      destruct (parse_no_closing_brace params response _ _ H1 H2) as [msg Hp].
      exists msg. by eapply respond_parse_raises.
    + intros start last H1 H2.
      destruct (json_loads _) as [completion|e] eqn:H3.
      * destruct (dict_get "orders" completion) as [orders|] eqn:H4.
        -- intros items H5 H6. eapply respond_parse_raises; [done|].
           by eapply parse_non_str_order.
        -- eapply respond_parse_raises; [done|].
           by eapply parse_missing_orders.
      * eapply respond_parse_raises; [done|]. by eapply parse_json_raises.
Qed.

End Respond.

(** A backend that raises, seen through the theorem. *)
Lemma respond_returns_or_raises_AgentCompletionError_witness :
  Examples.toy_respond (Examples.chat_agent Examples.failing) Examples.press
  = Raises (AgentCompletionError (Some (OtherError "APIError" "rate limit")) None).
Proof.
  apply (proj1 (proj2 (respond_returns_or_raises_AgentCompletionError
                         Examples.no_prompt Examples.no_prompt Examples.no_prompt
                         Examples.toy_loads Examples.toy_str (fun s => s)
                         (Examples.chat_agent Examples.failing) Examples.press))).
  reflexivity.
Defined.

(** The scripted agent on the five kinds of completions. *)
Example respond_full :
  Examples.toy_respond (Examples.chat_agent (Examples.answering "Sure: {full} **system**"))
    Examples.press
  = Returns {| reasoning := JStr "hold the line";
               orders := JArr [JStr "A PAR H"];
               messages := [("fra", "peace")];
               system_prompt := "";
               user_prompt := "";
               prompt_tokens := 10;
               completion_tokens := 5;
               total_tokens := 15;
               completion_time_sec := 1%Q |}.
Proof. reflexivity. Qed.

Example respond_backend_error :
  Examples.toy_respond (Examples.chat_agent Examples.failing) Examples.press
  = Raises (AgentCompletionError (Some (OtherError "APIError" "rate limit")) None).
Proof. reflexivity. Qed.

Example respond_no_json :
  exists response,
    Examples.toy_respond (Examples.chat_agent (Examples.answering "I refuse")) Examples.press
    = Raises (AgentCompletionError (Some (ValueError "substring not found")) response).
Proof. eexists. reflexivity. Qed.

Example respond_missing_orders :
  exists response,
    Examples.toy_respond (Examples.chat_agent (Examples.answering "` {} `")) Examples.press
    = Raises (AgentCompletionError (Some (KeyError "orders")) response).
Proof. eexists. reflexivity. Qed.

Example respond_bad_order :
  exists response,
    Examples.toy_respond (Examples.chat_agent (Examples.answering "{bad order}")) Examples.press
    = Raises (AgentCompletionError (Some (AgentCompletionError None response)) response).
Proof. eexists. reflexivity. Qed.

End AgentsProofs.

(* ===================================================================== *)
(** * Properties of the simulation loop *)
(* ===================================================================== *)

Module SimulationProofs.
Import Simulation.

Local Open Scope list_scope.
Local Open Scope Z_scope.

(** ** The resolver *)

Lemma clamp_value_bounds lo hi value :
  lo <= hi -> lo <= clamp_value lo hi value <= hi.
Proof. unfold clamp_value. lia. Qed.

Lemma clamp_dynamic_lookup config dyn field :
  clamp_dynamic config dyn !! field
  = (fun value => match bounds config !! field with
                  | Some (lo, hi) => clamp_value lo hi value
                  | None => value
                  end) <$> dyn !! field.
Proof.
  unfold clamp_dynamic. rewrite map_lookup_imap. by destruct (dyn !! field).
Qed.

Lemma apply_delta_lookup delta dyn field :
  apply_delta delta dyn !! field
  = (fun value => value + default 0 (delta !! field)) <$> dyn !! field.
Proof.
  unfold apply_delta. rewrite map_lookup_imap. by destruct (dyn !! field).
Qed.

(** Unknown kinds only grow the list of dropped actions. *)
Lemma foldl_resolve_split config actions states dropped :
  foldl (resolve_action config) (states, dropped) actions
  = ((foldl (resolve_action config) (states, [])
        (filter (known config) actions)).1,
     dropped ++ filter (fun action => ~ known config action) actions).
Proof.
  revert states dropped.
  induction actions as [|action actions IH]; intros states dropped.
  - cbn. by rewrite app_nil_r.
  - cbn [foldl]. unfold resolve_action at 2.
    destruct (effects config !! name action) as [spec|] eqn:Hkind; cbn [fst snd].
    + assert (known config action) as Hknown by (unfold known; by rewrite Hkind).
      rewrite IH, (filter_cons_True (known config)) by done.
      rewrite filter_cons_False by (intros Hn; by apply Hn).
      cbn [foldl]. unfold resolve_action at 3. rewrite Hkind. cbn [fst snd].
      reflexivity.
    + assert (~ known config action) as Hunknown
          by (unfold known; rewrite Hkind; by intros [? ?]).
      rewrite IH, (filter_cons_False (known config)) by done.
      rewrite filter_cons_True by done.
      by rewrite <- app_assoc.
Qed.

Lemma resolve_known states actions config clamp :
  (resolve states actions config clamp).1
  = (resolve states (filter (known config) actions) config clamp).1.
Proof.
  unfold resolve.
  rewrite (foldl_resolve_split config actions).
  rewrite (foldl_resolve_split config (filter (known config) actions)).
  by rewrite list_filter_filter_l by done.
Qed.

Lemma resolve_dropped states actions config clamp :
  (resolve states actions config clamp).2
  = filter (fun action => ~ known config action) actions.
Proof. unfold resolve. by rewrite (foldl_resolve_split config actions). Qed.

(** A nation that no action names keeps its state until the clamp. *)
Lemma apply_to_names who delta states :
  map nation_name (apply_to who delta states) = map nation_name states.
Proof.
  unfold apply_to. rewrite List.map_map. apply List.map_ext.
  intros nation. by destruct (String.eqb _ _).
Qed.

Lemma apply_to_other who delta states i nation :
  states !! i = Some nation ->
  nation_name nation <> who ->
  apply_to who delta states !! i = Some nation.
Proof.
  intros Hi Hname. unfold apply_to.
  change (map ?f states) with (f <$> states).
  rewrite list_lookup_fmap, Hi. cbn.
  by rewrite (proj2 (String.eqb_neq _ _) Hname).
Qed.

Lemma foldl_resolve_names config actions states dropped :
  map nation_name (foldl (resolve_action config) (states, dropped) actions).1
  = map nation_name states.
Proof.
  revert states dropped.
  induction actions as [|action actions IH]; intros states dropped; [done|].
  cbn [foldl]. unfold resolve_action at 2.
  destruct (effects config !! name action); cbn [fst snd]; rewrite IH; [|done].
  by rewrite !apply_to_names.
Qed.

Lemma foldl_resolve_untouched config actions states dropped i nation :
  states !! i = Some nation ->
  (forall action, action ∈ actions ->
                  self_ action <> nation_name nation
                  /\ other action <> nation_name nation) ->
  (foldl (resolve_action config) (states, dropped) actions).1 !! i = Some nation.
Proof.
  revert states dropped.
  induction actions as [|action actions IH]; intros states dropped Hi Hfree; [done|].
  cbn [foldl]. unfold resolve_action at 2.
  destruct (Hfree action ltac:(left)) as [Hself Hother].
  destruct (effects config !! name action); cbn [fst snd].
  - apply IH; [|intros; apply Hfree; by right].
    apply apply_to_other; [|done]. by apply apply_to_other.
  - apply IH; [done|intros; apply Hfree; by right].
Qed.

Lemma resolve_names states actions config clamp :
  map nation_name (resolve states actions config clamp).1 = map nation_name states.
Proof.
  unfold resolve.
  pose proof (foldl_resolve_names config actions states []) as Hnames.
  destruct (foldl _ _ _) as [resolved dropped]. cbn [fst] in *.
  destruct clamp; [|done]. by rewrite List.map_map.
Qed.

Lemma resolve_untouched states actions config clamp i nation :
  states !! i = Some nation ->
  (forall action, action ∈ actions ->
                  self_ action <> nation_name nation
                  /\ other action <> nation_name nation) ->
  (resolve states actions config clamp).1 !! i = Some (settled config clamp nation).
Proof.
  intros Hi Hfree. unfold resolve.
  pose proof (foldl_resolve_untouched config actions states [] i nation Hi Hfree)
    as Hkept.
  destruct (foldl _ _ _) as [resolved dropped]. cbn [fst] in *.
  destruct clamp; [|done].
  change (map ?f resolved) with (f <$> resolved).
  by rewrite list_lookup_fmap, Hkept.
Qed.

Lemma settled_within_bounds config clamp nation :
  within_bounds config nation -> settled config clamp nation = nation.
Proof.
  intros Hin. unfold settled. destruct clamp; [|done].
  destruct nation as [nm dyn]. unfold set_dynamic. cbn. f_equal.
  apply map_eq. intros field. rewrite clamp_dynamic_lookup.
  destruct (dyn !! field) as [value|] eqn:Hvalue; [|done]. cbn.
  destruct (bounds config !! field) as [[lo hi]|] eqn:Hbounds; [|done].
  pose proof (Hin field value lo hi Hvalue Hbounds) as Hrange. cbn in Hrange.
  unfold clamp_value. f_equal. lia.
Qed.

Lemma resolve_clamped states actions config nation field lo hi value :
  nation ∈ (resolve states actions config true).1 ->
  bounds config !! field = Some (lo, hi) ->
  lo <= hi ->
  dynamic nation !! field = Some value ->
  lo <= value <= hi.
Proof.
  unfold resolve. destruct (foldl _ _ _) as [resolved dropped]. cbn [fst].
  intros Hin Hbounds Hle Hvalue.
  apply list_elem_of_In, in_map_iff in Hin as (before & <- & _).
  cbn in Hvalue. rewrite clamp_dynamic_lookup, Hbounds in Hvalue.
  destruct (dynamic before !! field) as [raw|]; [|done].
  cbn in Hvalue. injection Hvalue as <-. by apply clamp_value_bounds.
Qed.

Lemma trace_regroup (before during dropped : list Event) (x y z : Event) :
  (before ++ during) ++ x :: dropped ++ [y; z]
  = before ++ (during ++ x :: dropped ++ [y]) ++ [z].
Proof.
  rewrite <- !app_assoc. cbn. rewrite <- !app_assoc. reflexivity.
Qed.

(** ** Who produced the k-th response *)

Lemma responders_lookup {A} (results : list (option A)) index k producer :
  responders results index !! k = Some producer ->
  (index + k <= producer)%nat
  /\ exists r, results !! (producer - index)%nat = Some (Some r)
               /\ omap id results !! k = Some r.
Proof.
  revert index k.
  induction results as [|[r|] rest IH]; intros index k Hk; cbn in Hk.
  - by rewrite lookup_nil in Hk.
  - destruct k as [|k]; cbn in Hk.
    + injection Hk as <-. split; [lia|]. exists r.
      by rewrite Nat.sub_diag.
    + destruct (IH _ _ Hk) as (Hle & r' & Hr' & Hom).
      split; [lia|]. exists r'. split; [|done].
      replace (producer - index)%nat with (S (producer - S index)) by lia. done.
  - destruct (IH _ _ Hk) as (Hle & r' & Hr' & Hom).
    split; [lia|]. exists r'. split; [|done].
    replace (producer - index)%nat with (S (producer - S index)) by lia. done.
Qed.

(** After a failure the position in the list of responses lags behind the
    position in the roster. *)
Lemma responders_shift {A} (results : list (option A)) index k producer j :
  responders results index !! k = Some producer ->
  (index <= j < producer)%nat ->
  results !! (j - index)%nat = Some None ->
  (index + k < producer)%nat.
Proof.
  revert index k.
  induction results as [|[r|] rest IH]; intros index k Hk Hj Hfail; cbn in Hk.
  - by rewrite lookup_nil in Hk.
  - destruct k as [|k]; cbn in Hk.
    + injection Hk as <-. lia.
    + destruct (decide (j = index)) as [->|Hne].
      * by rewrite Nat.sub_diag in Hfail.
      * replace (j - index)%nat with (S (j - S index)) in Hfail by lia.
        cbn in Hfail. pose proof (IH _ _ Hk ltac:(lia) Hfail). lia.
  - destruct (responders_lookup _ _ _ _ Hk) as [Hle _]. lia.
Qed.

Section Main.

Variable PROVOKING_PLUS_ACTIONS : list string.
Variable EXTREME_ACTIONS : list string.
Variable config : Config.
Variable respond : nat -> nat -> World -> Outcome NationResponse.
Variable summarize_consequences : World -> WorldModelResponse.
Variable format_actions : NationResponse -> string.

Abbreviation retry_loop := (retry_loop respond).
Abbreviation query_nation := (query_nation config respond).
Abbreviation query_results := (query_results config respond).
Abbreviation collect := (collect config respond).
Abbreviation run_day :=
  (run_day PROVOKING_PLUS_ACTIONS EXTREME_ACTIONS config respond
     summarize_consequences format_actions).
Abbreviation turn :=
  (turn PROVOKING_PLUS_ACTIONS EXTREME_ACTIONS config respond
     summarize_consequences format_actions).
Abbreviation main_loop :=
  (main_loop PROVOKING_PLUS_ACTIONS EXTREME_ACTIONS config respond
     summarize_consequences format_actions).
Abbreviation turn_step :=
  (turn_step PROVOKING_PLUS_ACTIONS EXTREME_ACTIONS config respond
     summarize_consequences format_actions).
Abbreviation main_run :=
  (main_run PROVOKING_PLUS_ACTIONS EXTREME_ACTIONS config respond
     summarize_consequences format_actions).

(** ** The retry loop *)

Lemma retry_loop_spec world nation_index nation attempts attempt :
  exists excs : list PyExc,
    (forall a exc, excs !! a = Some exc ->
                   respond nation_index (attempt + a)%nat world = Raises exc)
    /\ (retry_loop world nation_index nation attempts attempt).2
       = concat (imap (fun a => failed_attempt (current_day world) nation_index
                                  nation (attempt + a)%nat) excs)
         ++ match (retry_loop world nation_index nation attempts attempt).1 with
            | Some _ => [EvRespond (current_day world) nation_index
                           (attempt + length excs)%nat]
            | None => []
            end
    /\ match (retry_loop world nation_index nation attempts attempt).1 with
       | Some response =>
           respond nation_index (attempt + length excs)%nat world = Returns response
           /\ (length excs < attempts)%nat
       | None => length excs = attempts
       end.
Proof.
  revert attempt. induction attempts as [|attempts IH]; intros attempt; cbn.
  - exists []. cbn. split; [|done]. intros a exc H. by rewrite lookup_nil in H.
  - destruct (respond nation_index attempt world) as [response|exc] eqn:Hr; cbn.
    + exists []. cbn. rewrite Nat.add_0_r. split; [|split; [done|split; [done|lia]]].
      intros a exc H. by rewrite lookup_nil in H.
    + destruct (IH (S attempt)) as (excs & Hexc & Hevs & Hres).
      destruct (Simulation.retry_loop respond world nation_index nation attempts
                  (S attempt)) as [result evs] eqn:Hloop.
      cbn in *. exists (exc :: excs). split; [|split].
      * intros [|a] exc' H; cbn in H.
        -- rewrite Nat.add_0_r. congruence.
        -- rewrite <- Nat.add_succ_comm. by apply Hexc.
      * cbn. rewrite Nat.add_0_r. do 3 f_equal. rewrite Hevs.
        f_equal; [f_equal; apply imap_ext; intros; cbn; f_equal; lia|].
        destruct result; [|done]. do 2 f_equal. lia.
      * destruct result as [response|]; cbn.
        -- destruct Hres as [Hres Hlt]. split; [|lia].
           rewrite <- Hres. f_equal. lia.
        -- lia.
Qed.

Lemma respond_calls_failed_attempts day nation_index nation attempt excs :
  length (List.filter is_respond_call
            (concat (imap (fun a => failed_attempt day nation_index nation
                                      (attempt + a)%nat) excs)))
  = length excs.
Proof.
  revert attempt. induction excs as [|exc excs IH]; intros attempt; [done|].
  cbn. f_equal. rewrite <- (IH (S attempt)). do 3 f_equal.
  apply imap_ext. intros; cbn. f_equal. lia.
Qed.

Lemma engine_calls_failed_attempts day nation_index nation attempt excs :
  List.filter is_engine_call
    (concat (imap (fun a => failed_attempt day nation_index nation
                              (attempt + a)%nat) excs)) = [].
Proof.
  revert attempt. induction excs as [|exc excs IH]; intros attempt; [done|].
  cbn. rewrite <- (IH (S attempt)). do 2 f_equal.
  apply imap_ext. intros; cbn. f_equal. lia.
Qed.

(** C3: one query calls the agent at most [max_model_retries] times.
    Every exception an attempt raises is caught: it shows up in the
    trace as the call, a warning carrying that exception and a pause of
    one second, and the loop goes on.  The query itself never raises:
    its result is the first response, or [None] when every attempt of
    the budget raised. *)
Theorem query_nation_bounded_retry world nation_index nation :
  let result := (query_nation world nation_index nation).1 in
  let evs := (query_nation world nation_index nation).2 in
  let budget := Z.to_nat (max_model_retries config) in
  exists excs : list PyExc,
    (forall a exc, excs !! a = Some exc ->
                   respond nation_index a world = Raises exc)
    /\ evs = concat (imap (failed_attempt (current_day world) nation_index nation) excs)
             ++ match result with
                | Some _ => [EvRespond (current_day world) nation_index (length excs)]
                | None => []
                end
    /\ match result with
       | Some response =>
           respond nation_index (length excs) world = Returns response
           /\ (length excs < budget)%nat
       | None => length excs = budget
       end
    /\ (length (List.filter is_respond_call evs) <= budget)%nat
    /\ Z.of_nat (length (List.filter is_respond_call evs))
       <= Z.max 0 (max_model_retries config).
Proof.
  intros result evs budget. subst result evs. unfold Simulation.query_nation.
  fold budget.
  destruct (retry_loop_spec world nation_index nation budget 0)
    as (excs & Hexc & Hevs & Hres).
  assert (Hcount :
            (length (List.filter is_respond_call
                       (retry_loop world nation_index nation budget 0).2)
             <= budget)%nat).
  { rewrite Hevs, List.filter_app, length_app.
    rewrite (respond_calls_failed_attempts _ _ _ 0).
    destruct (retry_loop world nation_index nation budget 0).1; cbn in *; lia. }
  exists excs. split; [exact Hexc|]. split; [exact Hevs|].
  split; [exact Hres|]. split; [exact Hcount|]. subst budget. lia.
Qed.

(** ** The loop over the roster *)

Lemma collect_model_responses world rest nation_index :
  model_responses (collect world rest nation_index)
  = omap id (query_results world rest nation_index).
Proof.
  revert nation_index. induction rest as [|nation rest IH]; intros i; cbn; [done|].
  destruct (query_nation world i nation) as [[response|] evs]; cbn;
    by rewrite IH.
Qed.

Lemma collect_queued_actions world rest nation_index :
  queued_actions (collect world rest nation_index)
  = concat (map actions (model_responses (collect world rest nation_index))).
Proof.
  revert nation_index. induction rest as [|nation rest IH]; intros i; cbn; [done|].
  destruct (query_nation world i nation) as [[response|] evs]; cbn;
    by rewrite IH.
Qed.

Lemma collect_count world rest nation_index :
  (num_nations_exceeded_max_retries (collect world rest nation_index)
   + length (model_responses (collect world rest nation_index))
   = length rest)%nat.
Proof.
  revert nation_index. induction rest as [|nation rest IH]; intros i; cbn; [done|].
  destruct (query_nation world i nation) as [[response|] evs]; cbn;
    specialize (IH (S i)); lia.
Qed.

Lemma collect_failures world rest nation_index :
  num_nations_exceeded_max_retries (collect world rest nation_index)
  = length (List.filter (fun r => negb (bool_decide (is_Some r)))
              (query_results world rest nation_index)).
Proof.
  revert nation_index. induction rest as [|nation rest IH]; intros i; cbn; [done|].
  destruct (query_nation world i nation) as [[response|] evs]; cbn;
    by rewrite IH.
Qed.

Lemma query_results_length world rest nation_index :
  length (query_results world rest nation_index) = length rest.
Proof.
  revert nation_index. induction rest as [|nation rest IH]; intros i; cbn; [done|].
  by rewrite IH.
Qed.

Lemma query_nation_no_engine_call world nation_index nation :
  List.filter is_engine_call (query_nation world nation_index nation).2 = [].
Proof.
  unfold Simulation.query_nation.
  destruct (retry_loop_spec world nation_index nation
              (Z.to_nat (max_model_retries config)) 0) as (excs & _ & Hevs & _).
  rewrite Hevs, List.filter_app, (engine_calls_failed_attempts _ _ _ 0).
  by destruct (retry_loop _ _ _ _ _).1.
Qed.

Lemma collect_no_engine_call world rest nation_index :
  List.filter is_engine_call (events (collect world rest nation_index)) = [].
Proof.
  revert nation_index. induction rest as [|nation rest IH]; intros i; cbn; [done|].
  pose proof (query_nation_no_engine_call world i nation) as Hq.
  destruct (query_nation world i nation) as [[response|] evs]; cbn in *;
    rewrite List.filter_app, Hq; cbn; apply IH.
Qed.

(** ** Sums, maxima and counts *)

Lemma foldl_max_spec (rest : list Z) (x : Z) :
  (foldl Z.max x rest = x \/ foldl Z.max x rest ∈ rest)
  /\ x <= foldl Z.max x rest
  /\ (forall y, y ∈ rest -> y <= foldl Z.max x rest).
Proof.
  revert x. induction rest as [|z rest IH]; intros x; cbn.
  - split; [by left|]. split; [lia|]. intros y Hy. by apply elem_of_nil in Hy.
  - destruct (IH (Z.max x z)) as (Hin & Hge & Hall). split; [|split].
    + destruct Hin as [Heq|Hin].
      * rewrite Heq. destruct (Z.max_spec x z) as [[_ ->]|[_ ->]];
          [right; left|by left].
      * right. by right.
    + lia.
    + intros y Hy. apply elem_of_cons in Hy as [->|Hy]; [lia|by apply Hall].
Qed.

Lemma py_max_spec (l : list Z) :
  l <> [] ->
  exists m, py_max l = Returns m /\ m ∈ l /\ (forall y, y ∈ l -> y <= m).
Proof.
  destruct l as [|x rest]; [done|]. intros _. cbn.
  destruct (foldl_max_spec rest x) as (Hin & Hge & Hall).
  eexists. split; [done|]. split.
  - destruct Hin as [->|Hin]; [left|by right].
  - intros y Hy. apply elem_of_cons in Hy as [->|Hy]; [done|by apply Hall].
Qed.

Lemma py_max_snoc (l : list Z) (x : Z) :
  exists m, py_max (l ++ [x]) = Returns m
            /\ m ∈ l ++ [x] /\ (forall y, y ∈ l ++ [x] -> y <= m).
Proof. apply py_max_spec. by destruct l. Qed.

Lemma foldl_add (l : list Z) (acc : Z) :
  foldl Z.add acc l = acc + foldr Z.add 0 l.
Proof.
  revert acc. induction l as [|x l IH]; intros acc; cbn; [lia|].
  rewrite IH. lia.
Qed.

Lemma py_sum_foldr (l : list Z) : py_sum l = foldr Z.add 0 l.
Proof. unfold py_sum. rewrite foldl_add. lia. Qed.

Lemma py_sum_snoc (l : list Z) (x : Z) : py_sum (l ++ [x]) = py_sum l + x.
Proof. unfold py_sum. rewrite foldl_app. reflexivity. Qed.

Lemma count_actions_from (names : list string) (l : list Action) (acc : Z) :
  foldl (fun count action =>
           if bool_decide (name action ∈ names) then count + 1 else count) acc l
  = acc + Z.of_nat (length (filter (fun action => name action ∈ names) l)).
Proof.
  revert acc. induction l as [|a l IH]; intros acc; [cbn; lia|].
  rewrite filter_cons. cbn [foldl]. rewrite IH.
  case_bool_decide; case_decide; try done; cbn [length]; lia.
Qed.

Lemma count_actions_filter (names : list string) (l : list Action) :
  count_actions names l
  = Z.of_nat (length (filter (fun action => name action ∈ names) l)).
Proof. unfold count_actions. by rewrite count_actions_from. Qed.

Lemma engine_calls_dropped (dropped : list Action) :
  List.filter is_engine_call (map EvDropped dropped) = [].
Proof. by induction dropped. Qed.

Lemma count_actions_cons (names : list string) (a : Action) (l : list Action) :
  count_actions names (a :: l)
  = (if bool_decide (name a ∈ names) then 1 else 0) + count_actions names l.
Proof.
  unfold count_actions. cbn [foldl]. rewrite !count_actions_from.
  case_bool_decide; lia.
Qed.

Lemma count_actions_split (names : list string) (P : Action -> Prop)
    `{forall a, Decision (P a)} (l : list Action) :
  count_actions names l
  = count_actions names (filter P l)
    + count_actions names (filter (fun a => ~ P a) l).
Proof.
  induction l as [|a l IH]; [done|].
  rewrite count_actions_cons, IH.
  destruct (decide (P a)) as [Hp|Hp].
  - rewrite (filter_cons_True P) by done.
    rewrite filter_cons_False by (intros Hn; by apply Hn).
    rewrite count_actions_cons. lia.
  - rewrite (filter_cons_False P) by done.
    rewrite filter_cons_True by done.
    rewrite count_actions_cons. lia.
Qed.

Lemma count_actions_none (names : list string) (l : list Action) :
  (forall a, a ∈ l -> name a ∉ names) -> count_actions names l = 0.
Proof.
  induction l as [|a l IH]; intros Hall; [done|].
  rewrite count_actions_cons, IH.
  - rewrite bool_decide_eq_false_2; [done|]. apply Hall. left.
  - intros b Hb. apply Hall. by right.
Qed.

(** ** One day *)

Lemma update_state_day clamp world queued :
  current_day (update_state clamp world queued).1 = current_day world + 1.
Proof. unfold update_state. by destruct (resolve _ _ _ _). Qed.

Lemma update_state_previous_day clamp world queued :
  previous_day (update_state clamp world queued).1 = current_day world.
Proof. unfold previous_day. rewrite update_state_day. lia. Qed.

Lemma update_state_history clamp world queued :
  consequence_history (update_state clamp world queued).1
  = consequence_history world.
Proof. unfold update_state. by destruct (resolve _ _ _ _). Qed.

Lemma update_state_max_days clamp world queued :
  max_days (update_state clamp world queued).1 = max_days world.
Proof. unfold update_state. by destruct (resolve _ _ _ _). Qed.

Lemma update_state_nations clamp world queued :
  nations (update_state clamp world queued).1
  = (resolve (nations world) queued (action_config world) clamp).1.
Proof. unfold update_state. by destruct (resolve _ _ _ _). Qed.

Lemma update_state_dropped clamp world queued :
  (update_state clamp world queued).2
  = (resolve (nations world) queued (action_config world) clamp).2.
Proof. unfold update_state. by destruct (resolve _ _ _ _). Qed.

(** The progress figure of line 220 decides first. *)
Lemma turn_zero st :
  max_days (world st) = 0 ->
  turn st = TurnRaised (ZeroDivisionError "division by zero") st.
Proof.
  intros H. unfold Simulation.turn, percent_done. by rewrite H.
Qed.

Lemma turn_nonzero st :
  max_days (world st) <> 0 -> turn st = run_day st.
Proof.
  intros H. unfold Simulation.turn, percent_done.
  by destruct (Z.eqb_spec (max_days (world st)) 0).
Qed.

Lemma turn_done_nonzero st st' :
  turn st = TurnDone st' -> max_days (world st) <> 0.
Proof.
  intros Hturn Hzero. by rewrite (turn_zero st Hzero) in Hturn.
Qed.

(** A day on which every nation failed. *)
Lemma turn_blackout st :
  max_days (world st) <> 0 ->
  num_nations_exceeded_max_retries (collect (world st) (nations (world st)) 0)
  = length (nations (world st)) ->
  turn st
  = TurnRaised
      (RuntimeError (all_nations_error_text (max_model_retries config)))
      {| world := world st;
         trace := (trace st ++ events (collect (world st) (nations (world st)) 0))
                    ++ [EvError (AllNationsExceeded (max_model_retries config))];
         model_response_text_whole_run := model_response_text_whole_run st;
         model_response_costs_whole_run := model_response_costs_whole_run st;
         actions_whole_run := actions_whole_run st;
         aggressive_action_counts_whole_run := aggressive_action_counts_whole_run st;
         extreme_action_counts_whole_run := extreme_action_counts_whole_run st |}.
Proof.
  intros Hnz H. rewrite (turn_nonzero st Hnz).
  unfold run_day. by rewrite bool_decide_eq_true_2.
Qed.

(** A day on which at least one nation answered. *)
Lemma turn_proceeds st :
  let w := world st in
  let day := current_day w in
  let c := collect w (nations w) 0 in
  let provoking := count_actions PROVOKING_PLUS_ACTIONS (queued_actions c) in
  let extreme := count_actions EXTREME_ACTIONS (queued_actions c) in
  let updated := update_state (clamp_dynamic_variables config) w (queued_actions c) in
  max_days w <> 0 ->
  num_nations_exceeded_max_retries c <> length (nations w) ->
  exists max_provoking max_extreme,
    py_max (aggressive_action_counts_whole_run st ++ [provoking])
    = Returns max_provoking
    /\ py_max (extreme_action_counts_whole_run st ++ [extreme])
       = Returns max_extreme
    /\ turn st
       = TurnDone
           {| world := set_consequence updated.1 day (summarize_consequences updated.1);
              trace :=
                (trace st ++ events c)
                  ++ EvUpdateState day (queued_actions c)
                  :: map EvDropped updated.2
                  ++ [EvSummarize (day + 1);
                      EvWandbLog
                        {| progress_day := day;
                           daily_model_responses_text :=
                             text_rows format_actions day (nations w) (model_responses c);
                           daily_model_responses_costs :=
                             cost_rows day (nations w) (model_responses c);
                           daily_actions := action_rows day (queued_actions c);
                           daily_provoking_plus_action_counts := provoking;
                           whole_run_sum_provoking_plus_action_counts :=
                             py_sum (aggressive_action_counts_whole_run st ++ [provoking]);
                           whole_run_max_provoking_plus_action_counts := max_provoking;
                           daily_extreme_action_counts := extreme;
                           whole_run_sum_extreme_action_counts :=
                             py_sum (extreme_action_counts_whole_run st ++ [extreme]);
                           whole_run_max_extreme_action_counts := max_extreme;
                           daily_consequences :=
                             (day, summarize_consequences updated.1) |}];
              model_response_text_whole_run :=
                model_response_text_whole_run st
                  ++ text_rows format_actions day (nations w) (model_responses c);
              model_response_costs_whole_run :=
                model_response_costs_whole_run st
                  ++ cost_rows day (nations w) (model_responses c);
              actions_whole_run :=
                actions_whole_run st ++ action_rows day (queued_actions c);
              aggressive_action_counts_whole_run :=
                aggressive_action_counts_whole_run st ++ [provoking];
              extreme_action_counts_whole_run :=
                extreme_action_counts_whole_run st ++ [extreme] |}.
Proof.
  intros w day c provoking extreme updated Hnz Hne.
  destruct (py_max_snoc (aggressive_action_counts_whole_run st) provoking)
    as (mp & Hmp & _).
  destruct (py_max_snoc (extreme_action_counts_whole_run st) extreme)
    as (me & Hme & _).
  exists mp, me. split; [done|]. split; [done|].
  rewrite (turn_nonzero st Hnz).
  unfold run_day. fold w. fold c. rewrite bool_decide_eq_false_2 by done.
  fold provoking extreme. rewrite Hmp, Hme.
  pose proof (update_state_day (clamp_dynamic_variables config) w (queued_actions c))
    as Hday.
  pose proof (update_state_previous_day (clamp_dynamic_variables config) w
                (queued_actions c)) as Hprev.
  fold updated in Hday, Hprev. fold updated.
  destruct updated as [w1 dropped]. cbn in *.
  unfold previous_day at 2. cbn. fold (previous_day w1).
  rewrite Hprev, Hday. reflexivity.
Qed.

Lemma turn_done_not_blackout st st' :
  turn st = TurnDone st' ->
  num_nations_exceeded_max_retries (collect (world st) (nations (world st)) 0)
  <> length (nations (world st)).
Proof.
  intros Hturn Hall.
  by rewrite (turn_blackout st (turn_done_nonzero st st' Hturn) Hall) in Hturn.
Qed.

(** What a completed day computed: the two facts above, used together. *)
Lemma turn_done_proceeds st st' :
  turn st = TurnDone st' ->
  max_days (world st) <> 0
  /\ num_nations_exceeded_max_retries (collect (world st) (nations (world st)) 0)
     <> length (nations (world st)).
Proof.
  intros Hturn. split; [by eapply turn_done_nonzero|by eapply turn_done_not_blackout].
Qed.

(** The world a completed day leaves behind. *)
Lemma turn_done_world st st' :
  turn st = TurnDone st' ->
  let w := world st in
  let updated :=
    update_state (clamp_dynamic_variables config) w
      (queued_actions (collect w (nations w) 0)) in
  world st'
  = set_consequence updated.1 (current_day w) (summarize_consequences updated.1).
Proof.
  intros Hturn w updated.
  destruct (turn_proceeds st (turn_done_nonzero st st' Hturn)
              (turn_done_not_blackout st st' Hturn))
    as (mp & me & _ & _ & Hdone).
  rewrite Hturn in Hdone. by injection Hdone as ->.
Qed.

Lemma turn_done_day st st' :
  turn st = TurnDone st' ->
  current_day (world st') = current_day (world st) + 1.
Proof.
  intros Hturn. rewrite (turn_done_world st st' Hturn). cbn.
  apply update_state_day.
Qed.

Lemma turn_done_max_days st st' :
  turn st = TurnDone st' -> max_days (world st') = max_days (world st).
Proof.
  intros Hturn. rewrite (turn_done_world st st' Hturn). cbn.
  apply update_state_max_days.
Qed.

Lemma turn_done_history st st' :
  turn st = TurnDone st' ->
  consequence_history (world st')
  = <[current_day (world st) :=
        summarize_consequences
          (update_state (clamp_dynamic_variables config) (world st)
             (queued_actions (collect (world st) (nations (world st)) 0))).1]>
      (consequence_history (world st)).
Proof.
  intros Hturn. rewrite (turn_done_world st st' Hturn). cbn.
  by rewrite update_state_history.
Qed.

Lemma turn_done_nations st st' :
  turn st = TurnDone st' ->
  nations (world st')
  = (resolve (nations (world st))
       (queued_actions (collect (world st) (nations (world st)) 0))
       (action_config (world st)) (clamp_dynamic_variables config)).1
  /\ action_config (world st') = action_config (world st).
Proof.
  intros Hturn. rewrite (turn_done_world st st' Hturn). cbn.
  split; [apply update_state_nations|].
  unfold update_state. by destruct (resolve _ _ _ _).
Qed.

(** A day raises for one of two reasons: the progress figure, with
    nothing done, or the blackout check, after the queries. *)
Lemma turn_raised_inv st exc st' :
  turn st = TurnRaised exc st' ->
  (max_days (world st) = 0
   /\ exc = ZeroDivisionError "division by zero" /\ st' = st
   \/ max_days (world st) <> 0
      /\ num_nations_exceeded_max_retries
           (collect (world st) (nations (world st)) 0)
         = length (nations (world st))
      /\ exc = RuntimeError (all_nations_error_text (max_model_retries config))
      /\ trace st'
         = (trace st ++ events (collect (world st) (nations (world st)) 0))
             ++ [EvError (AllNationsExceeded (max_model_retries config))])
  /\ world st' = world st.
Proof.
  intros Hturn.
  destruct (decide (max_days (world st) = 0)) as [Hzero|Hnz].
  { rewrite (turn_zero st Hzero) in Hturn. injection Hturn as <- <-.
    split; [by left|done]. }
  destruct (decide (num_nations_exceeded_max_retries
                      (collect (world st) (nations (world st)) 0)
                    = length (nations (world st)))) as [Hall|Hne].
  - rewrite (turn_blackout st Hnz Hall) in Hturn.
    injection Hturn as <- <-. split; [by right|done].
  - destruct (turn_proceeds st Hnz Hne) as (mp & me & _ & _ & Hdone). congruence.
Qed.

(** ** Several days *)

Lemma nsteps_day n st st' :
  nsteps turn_step n st st' ->
  current_day (world st') = current_day (world st) + Z.of_nat n
  /\ max_days (world st') = max_days (world st).
Proof.
  induction 1 as [st|n st mid st' [_ Hturn] _ [IHday IHmax]]; [split; lia|].
  rewrite IHday, IHmax, (turn_done_day _ _ Hturn), (turn_done_max_days _ _ Hturn).
  split; lia.
Qed.

Lemma nsteps_history n st st' :
  nsteps turn_step n st st' ->
  forall d,
    (current_day (world st) <= d < current_day (world st) + Z.of_nat n ->
     is_Some (consequence_history (world st') !! d))
    /\ (~ current_day (world st) <= d < current_day (world st) + Z.of_nat n ->
        consequence_history (world st') !! d = consequence_history (world st) !! d).
Proof.
  induction 1 as [st|n st mid st' [_ Hturn] _ IH]; intros d.
  - split; [lia|done].
  - destruct (IH d) as [IHin IHout].
    rewrite (turn_done_day _ _ Hturn) in IHin, IHout.
    pose proof (turn_done_history _ _ Hturn) as Hhist.
    destruct (decide (d = current_day (world st))) as [->|Hd].
    + split; [intros _|lia].
      rewrite IHout by lia. rewrite Hhist, lookup_insert_eq. by eexists.
    + split.
      * intros Hrange. apply IHin. lia.
      * intros Hrange. rewrite IHout by lia.
        by rewrite Hhist, lookup_insert_ne.
Qed.

(** Entries below the day counter are never touched again. *)
Lemma nsteps_history_kept n st st' d :
  nsteps turn_step n st st' ->
  d < current_day (world st) ->
  consequence_history (world st') !! d = consequence_history (world st) !! d.
Proof.
  intros Hsteps Hd. apply (nsteps_history _ _ _ Hsteps d). lia.
Qed.

Lemma main_loop_terminates fuel st :
  (Z.to_nat (max_days (world st) - current_day (world st) + 1) < fuel)%nat ->
  exists result, main_loop fuel st = Some result.
Proof.
  revert st. induction fuel as [|fuel IH]; intros st Hfuel; [lia|].
  cbn. destruct (Z.leb_spec (current_day (world st)) (max_days (world st)))
    as [Hday|Hday]; [|by eexists].
  destruct (turn st) as [st'|exc st'] eqn:Hturn; [|by eexists].
  apply IH.
  rewrite (turn_done_day _ _ Hturn), (turn_done_max_days _ _ Hturn). lia.
Qed.

Lemma main_loop_completed fuel st st' :
  main_loop fuel st = Some (Completed st') ->
  max_days (world st') < current_day (world st')
  /\ exists n, nsteps turn_step n st st'.
Proof.
  revert st. induction fuel as [|fuel IH]; intros st; [done|].
  cbn. destruct (Z.leb_spec (current_day (world st)) (max_days (world st)))
    as [Hday|Hday].
  - destruct (turn st) as [mid|exc mid] eqn:Hturn; [|done].
    intros Hrest. destruct (IH _ Hrest) as [Hend [n Hsteps]].
    split; [done|]. exists (S n). by eapply nsteps_l.
  - intros [= <-]. split; [lia|]. exists 0%nat. constructor.
Qed.

(** A nation that answers at once rules the blackout out. *)
Lemma first_answer_not_blackout w :
  nations w <> [] ->
  0 < max_model_retries config ->
  (exists response, respond 0 0 w = Returns response) ->
  num_nations_exceeded_max_retries (collect w (nations w) 0)
  <> length (nations w).
Proof.
  intros Hroster Hbudget [response Hanswer].
  destruct (nations w) as [|nation rest]; [done|].
  cbn. unfold Simulation.query_nation.
  destruct (Z.to_nat (max_model_retries config)) as [|attempts] eqn:Hattempts;
    [lia|].
  cbn. rewrite Hanswer. cbn.
  pose proof (collect_count w rest 1) as Hcount. lia.
Qed.

Lemma turn_done_roster st st' :
  turn st = TurnDone st' ->
  map nation_name (nations (world st')) = map nation_name (nations (world st)).
Proof.
  intros Hturn. destruct (turn_done_nations _ _ Hturn) as [-> _].
  apply resolve_names.
Qed.

(** With a first nation that always answers, every day is completed and
    the loop runs to its normal end. *)
Lemma main_loop_runs :
  (forall w, exists response, respond 0 0 w = Returns response) ->
  0 < max_model_retries config ->
  forall fuel st,
    nations (world st) <> [] ->
    max_days (world st) <> 0 ->
    (Z.to_nat (max_days (world st) - current_day (world st) + 1) < fuel)%nat ->
    exists st', main_loop fuel st = Some (Completed st').
Proof.
  intros Hanswer Hbudget.
  induction fuel as [|fuel IH]; intros st Hroster Hnz Hfuel; [lia|].
  cbn. destruct (Z.leb_spec (current_day (world st)) (max_days (world st)))
    as [Hday|Hday]; [|by eexists].
  destruct (turn_proceeds st Hnz
              (first_answer_not_blackout _ Hroster Hbudget (Hanswer _)))
    as (mp & me & _ & _ & Hturn).
  rewrite Hturn.
  pose proof (turn_done_roster _ _ Hturn) as Hnames.
  pose proof (turn_done_day _ _ Hturn) as Hnext.
  pose proof (turn_done_max_days _ _ Hturn) as Hmax.
  apply IH.
  - intros Hempty. rewrite Hempty in Hnames.
    destruct (nations (world st)); [done|discriminate].
  - by rewrite Hmax.
  - rewrite Hnext, Hmax. lia.
Qed.

Lemma nsteps_final_day n st st' :
  nsteps turn_step n st st' ->
  n <> 0%nat ->
  current_day (world st') <= max_days (world st) + 1.
Proof.
  destruct n as [|n]; [done|]. intros Hsteps _.
  apply nsteps_inv_r in Hsteps as (mid & Hsteps & [Hday Hturn]).
  destruct (nsteps_day _ _ _ Hsteps) as [_ Hmax].
  rewrite (turn_done_day _ _ Hturn). lia.
Qed.

(** C1: on a day on which the count of nations left without a response
    equals the number of nations, the day ends by raising an exception
    that nothing catches.  Nothing was resolved and no summary was
    requested: the world is the one the day started with and the events
    of the day hold no call to [update_state] or
    [summarize_consequences].  The loop stops there and reports the
    error; no later day is started.  When [max_days] is not 0 the
    exception is the [RuntimeError] of the blackout check, raised after
    all the queries of the day and the report of the error; when
    [max_days] is 0 the day raised [ZeroDivisionError] on its progress
    figure, before any query. *)
Theorem blackout_aborts st :
  let w := world st in
  let c := collect w (nations w) 0 in
  num_nations_exceeded_max_retries c = length (nations w) ->
  exists exc st',
    turn st = TurnRaised exc st'
    /\ world st' = w
    /\ (exists evs, trace st' = trace st ++ evs
                     /\ List.filter is_engine_call evs = [])
    /\ (forall fuel, current_day w <= max_days w ->
                      main_loop (S fuel) st = Some (Aborted exc st'))
    /\ (max_days w <> 0 ->
        exc = RuntimeError (all_nations_error_text (max_model_retries config))
        /\ trace st'
           = (trace st ++ events c)
               ++ [EvError (AllNationsExceeded (max_model_retries config))])
    /\ (max_days w = 0 ->
        exc = ZeroDivisionError "division by zero" /\ st' = st).
Proof.
  intros w c H.
  assert (Hloop : forall exc st', turn st = TurnRaised exc st' ->
            forall fuel, current_day w <= max_days w ->
                         main_loop (S fuel) st = Some (Aborted exc st')).
  { intros exc st' Hturn fuel Hday. cbn. fold w.
    rewrite (proj2 (Z.leb_le _ _) Hday), Hturn. reflexivity. }
  destruct (decide (max_days w = 0)) as [Hzero|Hnz].
  - pose proof (turn_zero st Hzero) as Hturn.
    eexists _, _. split; [exact Hturn|]. split; [done|].
    split; [exists []; by rewrite app_nil_r|].
    split; [by apply Hloop|]. split; [done|done].
  - pose proof (turn_blackout st Hnz H) as Hturn.
    eexists _, _. split; [exact Hturn|]. split; [done|]. split.
    { eexists. cbn. rewrite <- app_assoc. split; [done|].
      rewrite List.filter_app. fold w.
      by rewrite (collect_no_engine_call w (nations w) 0). }
    split; [by apply Hloop|]. split; [|done].
    intros _. split; [done|done].
Qed.


(** C7 (amended): on a day that reaches resolution, which is a day of a
    run whose [max_days] is not 0 on which not every nation failed, the
    actions whose kind the catalog does not list change no state: the nations are
    those obtained by resolving the other actions alone. Each dropped
    action is reported right after the call to [update_state], nothing
    is raised and the day is completed. The counts of provoking and
    extreme actions are taken on all queued actions by name: a dropped
    action adds to a count exactly when its name is in the list
    counted, so the counts are those of the other actions when no
    dropped action is named in that list. *)
Theorem unknown_action_dropped st :
  let w := world st in
  let c := collect w (nations w) 0 in
  let queued := queued_actions c in
  let kept := filter (known (action_config w)) queued in
  let unknown := filter (fun a => ~ known (action_config w) a) queued in
  max_days w <> 0 ->
  num_nations_exceeded_max_retries c <> length (nations w) ->
  exists st' log_object,
    turn st = TurnDone st'
    /\ nations (world st')
       = (resolve (nations w) kept (action_config w)
            (clamp_dynamic_variables config)).1
    /\ trace st'
       = (trace st ++ events c)
           ++ EvUpdateState (current_day w) queued
           :: map EvDropped unknown
           ++ [EvSummarize (current_day w + 1); EvWandbLog log_object]
    /\ daily_provoking_plus_action_counts log_object
       = count_actions PROVOKING_PLUS_ACTIONS kept
         + count_actions PROVOKING_PLUS_ACTIONS unknown
    /\ daily_extreme_action_counts log_object
       = count_actions EXTREME_ACTIONS kept
         + count_actions EXTREME_ACTIONS unknown
    /\ ((forall a, a ∈ unknown -> name a ∉ PROVOKING_PLUS_ACTIONS) ->
         daily_provoking_plus_action_counts log_object
         = count_actions PROVOKING_PLUS_ACTIONS kept)
    /\ ((forall a, a ∈ unknown -> name a ∉ EXTREME_ACTIONS) ->
         daily_extreme_action_counts log_object
         = count_actions EXTREME_ACTIONS kept).
Proof.
  intros w c queued kept unknown Hnz Hne.
  destruct (turn_proceeds st Hnz Hne) as (mp & me & _ & _ & Hturn).
  fold w c queued in Hturn.
  pose proof (update_state_nations (clamp_dynamic_variables config) w queued)
    as Hnations.
  rewrite resolve_known in Hnations. fold kept in Hnations.
  assert (Hdropped :
            (update_state (clamp_dynamic_variables config) w queued).2 = unknown).
  { unfold unknown. rewrite update_state_dropped. apply resolve_dropped. }
  rewrite Hdropped in Hturn.
  pose proof (count_actions_split PROVOKING_PLUS_ACTIONS
                (known (action_config w)) queued) as Hp.
  pose proof (count_actions_split EXTREME_ACTIONS
                (known (action_config w)) queued) as He.
  fold kept unknown in Hp, He.
  eexists _, _. split; [exact Hturn|]. cbn.
  split; [exact Hnations|]. split; [reflexivity|].
  split; [exact Hp|]. split; [exact He|]. split.
  - intros Hall. cbn. rewrite Hp, (count_actions_none _ unknown Hall). lia.
  - intros Hall. cbn. rewrite He, (count_actions_none _ unknown Hall). lia.
Qed.

(** C5: on every completed day the summarizer is called once, after
    the one call to [update_state], on a world whose counter already
    shows the next day; the record is stored under the day that was
    just resolved.  Along a run from the initial state the history
    holds an entry exactly for the days from the initial day up to the
    last completed one, and no later day removes or replaces an entry
    already written. *)
Theorem consequence_history_append_only :
  (forall st st',
      turn st = TurnDone st' ->
      let w := world st in
      let queued := queued_actions (collect w (nations w) 0) in
      let resolved := (update_state (clamp_dynamic_variables config) w queued).1 in
      exists evs,
        trace st' = trace st ++ evs
        /\ List.filter is_engine_call evs
           = [EvUpdateState (current_day w) queued;
              EvSummarize (current_day w + 1)]
        /\ current_day resolved = current_day w + 1
        /\ world st'
           = set_consequence resolved (current_day w)
               (summarize_consequences resolved)
        /\ consequence_history (world st')
           = <[current_day w := summarize_consequences resolved]>
               (consequence_history w))
  /\ (forall roster catalog days n st,
        nsteps turn_step n (main_init roster catalog days) st ->
        current_day (world st) = INITIAL_DAY + Z.of_nat n
        /\ (forall d, is_Some (consequence_history (world st) !! d)
                      <-> INITIAL_DAY <= d < INITIAL_DAY + Z.of_nat n)
        /\ (forall m st' d record,
              nsteps turn_step m st st' ->
              consequence_history (world st) !! d = Some record ->
              consequence_history (world st') !! d = Some record)).
Proof.
  split.
  - intros st st' Hturn w queued resolved.
    pose proof (turn_done_world _ _ Hturn) as Hworld.
    pose proof (turn_done_history _ _ Hturn) as Hhist.
    destruct (turn_proceeds st (turn_done_nonzero _ _ Hturn)
                (turn_done_not_blackout _ _ Hturn))
      as (mp & me & _ & _ & Hdone).
    rewrite Hturn in Hdone. injection Hdone as Hst'.
    eexists. split; [rewrite Hst'; cbn; by rewrite <- app_assoc|].
    split.
    + rewrite List.filter_app, collect_no_engine_call. cbn. f_equal.
      rewrite List.filter_app, engine_calls_dropped. reflexivity.
    + split; [apply update_state_day|]. split; [exact Hworld|exact Hhist].
  - intros roster catalog days n st Hsteps.
    destruct (nsteps_day _ _ _ Hsteps) as [Hday _].
    assert (Hdom : forall d, is_Some (consequence_history (world st) !! d)
                             <-> INITIAL_DAY <= d < INITIAL_DAY + Z.of_nat n).
    { intros d. destruct (nsteps_history _ _ _ Hsteps d) as [Hin Hout].
      cbn in Hin, Hout. split.
      - intros Hsome.
        destruct (decide (INITIAL_DAY <= d < INITIAL_DAY + Z.of_nat n)) as [|Hn];
          [done|].
        rewrite (Hout Hn), lookup_empty in Hsome. by destruct Hsome.
      - exact Hin. }
    split; [exact Hday|]. split; [exact Hdom|].
    intros m st' d record Hlater Hrecord.
    rewrite (nsteps_history_kept _ _ _ d Hlater); [done|].
    rewrite Hday. apply Hdom. by eexists.
Qed.

(** C6: the counter starts at the initial day; a day of a run whose
    [max_days] is not 0 on which some nation answered is completed, a
    completed day adds exactly one to the counter and a day that raises
    leaves it alone, so after [n] completed days it has grown by [n]; the
    loop always ends, and it ends normally exactly in a state whose
    counter exceeds [max_days].  When the first nation of a roster always
    answers and [max_days] is not 0, the loop does run to that end: it
    completes one day for every value of the counter up to [max_days] and
    stops with the counter at [max_days + 1]. *)
Theorem day_counter_drives_the_loop :
  (forall roster catalog days,
      current_day (world (main_init roster catalog days)) = INITIAL_DAY
      /\ max_days (world (main_init roster catalog days)) = days
      /\ (roster <> [] ->
          main_setup roster catalog days
          = Returns (main_init roster catalog days)))
  /\ (forall st,
        max_days (world st) <> 0 ->
        num_nations_exceeded_max_retries
          (collect (world st) (nations (world st)) 0)
        <> length (nations (world st)) ->
        exists st', turn st = TurnDone st'
                    /\ current_day (world st') = current_day (world st) + 1)
  /\ ((forall w, exists response, respond 0 0 w = Returns response) ->
      0 < max_model_retries config ->
      forall st,
        nations (world st) <> [] ->
        max_days (world st) <> 0 ->
        exists st',
          main_loop (S (Z.to_nat (max_days (world st) - current_day (world st) + 1))) st
          = Some (Completed st')
          /\ current_day (world st')
             = Z.max (current_day (world st)) (max_days (world st) + 1)
          /\ nsteps turn_step
               (Z.to_nat (max_days (world st) + 1 - current_day (world st))) st st')
  /\ (forall st st', turn st = TurnDone st' ->
                     current_day (world st') = current_day (world st) + 1)
  /\ (forall st exc st', turn st = TurnRaised exc st' ->
                         current_day (world st') = current_day (world st))
  /\ (forall n st st', nsteps turn_step n st st' ->
                       current_day (world st') = current_day (world st) + Z.of_nat n
                       /\ current_day (world st) <= current_day (world st'))
  /\ (forall st,
        exists result,
          main_loop (S (Z.to_nat (max_days (world st) - current_day (world st) + 1))) st
          = Some result)
  /\ (forall fuel st,
        main_loop (S fuel) st = Some (Completed st)
        <-> max_days (world st) < current_day (world st))
  /\ (forall fuel st st',
        main_loop fuel st = Some (Completed st') ->
        max_days (world st') < current_day (world st')
        /\ current_day (world st')
           = Z.max (current_day (world st)) (max_days (world st) + 1)
        /\ nsteps turn_step
             (Z.to_nat (current_day (world st') - current_day (world st))) st st').
Proof.
  assert (Hend : forall fuel st st',
            main_loop fuel st = Some (Completed st') ->
            max_days (world st') < current_day (world st')
            /\ current_day (world st')
               = Z.max (current_day (world st)) (max_days (world st) + 1)
            /\ nsteps turn_step
                 (Z.to_nat (current_day (world st') - current_day (world st)))
                 st st').
  { intros fuel st st' Hloop.
    destruct (main_loop_completed _ _ _ Hloop) as [Hend [n Hsteps]].
    destruct (nsteps_day _ _ _ Hsteps) as [Hday Hmax].
    split; [done|].
    replace (Z.to_nat (current_day (world st') - current_day (world st)))
      with n by lia.
    split; [|done].
    destruct n as [|n].
    + rewrite Hmax in Hend. lia.
    + pose proof (nsteps_final_day _ _ _ Hsteps ltac:(done)). lia. }
  split.
  { intros roster catalog days. split; [done|]. split; [done|].
    by destruct roster. }
  split.
  { intros st Hnz Hne.
    destruct (turn_proceeds st Hnz Hne) as (mp & me & _ & _ & Hturn).
    eexists. split; [exact Hturn|]. by apply turn_done_day. }
  split.
  { intros Hanswer Hbudget st Hroster Hnz.
    destruct (main_loop_runs Hanswer Hbudget
                (S (Z.to_nat (max_days (world st) - current_day (world st) + 1)))
                st Hroster Hnz ltac:(lia)) as [st' Hloop].
    exists st'. split; [exact Hloop|].
    destruct (Hend _ _ _ Hloop) as (_ & Hday & Hsteps).
    split; [exact Hday|].
    replace (Z.to_nat (max_days (world st) + 1 - current_day (world st)))
      with (Z.to_nat (current_day (world st') - current_day (world st)))
      by lia.
    exact Hsteps. }
  split; [apply turn_done_day|].
  split; [intros st exc st' Hturn; by destruct (turn_raised_inv _ _ _ Hturn) as [_ ->]|].
  split; [intros n st st' Hsteps; destruct (nsteps_day _ _ _ Hsteps); lia|].
  split; [intros st; apply main_loop_terminates; lia|].
  split; [|exact Hend].
  intros fuel st. split.
  + intros Hloop. destruct (main_loop_completed _ _ _ Hloop) as [Hdone _]. done.
  + intros Hdone. cbn. by rewrite (proj2 (Z.leb_gt _ _) Hdone).
Qed.

(** C9: the rows logged for the responses of a day pair the k-th
    response collected with the k-th nation of the roster. The k-th
    response was produced by the nation at some position [producer] of
    the roster, never before position [k]; as soon as a nation before
    [producer] failed, [k] is smaller than [producer], so the row names
    another position of the roster, and another nation when names are
    not repeated in the roster. *)
Theorem response_rows_follow_positions st :
  let w := world st in
  let day := current_day w in
  let c := collect w (nations w) 0 in
  let results := query_results w (nations w) 0 in
  let text := text_rows format_actions day (nations w) (model_responses c) in
  let costs := cost_rows day (nations w) (model_responses c) in
  (forall st',
      turn st = TurnDone st' ->
      exists log_object evs,
        trace st' = trace st ++ evs ++ [EvWandbLog log_object]
        /\ daily_model_responses_text log_object = text
        /\ daily_model_responses_costs log_object = costs
        /\ model_response_text_whole_run st'
           = model_response_text_whole_run st ++ text
        /\ model_response_costs_whole_run st'
           = model_response_costs_whole_run st ++ costs)
  /\ (forall k producer,
        responders results 0 !! k = Some producer ->
        exists response listed owner,
          results !! producer = Some (Some response)
          /\ nations w !! producer = Some owner
          /\ model_responses c !! k = Some response
          /\ nations w !! k = Some listed
          /\ text !! k
             = Some {| text_day := day;
                       text_nation_name := nation_name listed;
                       text_system_prompt := system_prompt response;
                       text_user_prompt := user_prompt response;
                       text_reasoning := reasoning response;
                       text_actions := format_actions response |}
          /\ costs !! k
             = Some {| cost_day := day;
                       cost_nation_name := nation_name listed;
                       cost_completion_time_sec := completion_time_sec response;
                       cost_prompt_tokens := prompt_tokens response;
                       cost_completion_tokens := completion_tokens response;
                       cost_total_tokens := total_tokens response |}
          /\ (k <= producer)%nat
          /\ (forall j, (j < producer)%nat -> results !! j = Some None ->
                        (k < producer)%nat
                        /\ (NoDup (map nation_name (nations w)) ->
                            nation_name listed <> nation_name owner))).
Proof.
  intros w day c results text costs. split.
  - intros st' Hturn.
    destruct (turn_proceeds st (turn_done_nonzero _ _ Hturn)
                (turn_done_not_blackout _ _ Hturn))
      as (mp & me & _ & _ & Hdone).
    rewrite Hturn in Hdone. injection Hdone as ->.
    eexists _, _. cbn [trace]. split; [apply trace_regroup|]. done.
  - intros k producer Hk.
    destruct (responders_lookup _ _ _ _ Hk) as (Hle & response & Hres & Hom).
    rewrite Nat.sub_0_r in Hres. cbn in Hle.
    assert (Hlen : (producer < length (nations w))%nat).
    { apply lookup_lt_Some in Hres. unfold results in Hres.
      by rewrite query_results_length in Hres. }
    destruct (lookup_lt_is_Some_2 (nations w) producer Hlen) as [owner Howner].
    destruct (lookup_lt_is_Some_2 (nations w) k ltac:(lia)) as [listed Hlisted].
    assert (Hresp : model_responses c !! k = Some response).
    { unfold c. by rewrite collect_model_responses. }
    exists response, listed, owner.
    split; [done|]. split; [done|]. split; [done|]. split; [done|].
    split; [unfold text, text_rows; by rewrite lookup_zip_with, Hlisted, Hresp|].
    split; [unfold costs, cost_rows; by rewrite lookup_zip_with, Hlisted, Hresp|].
    split; [done|].
    intros j Hj Hfail.
    assert (Hlt : (k < producer)%nat).
    { apply (responders_shift results 0 k producer j Hk); [lia|].
      by rewrite Nat.sub_0_r. }
    split; [done|]. intros Hnodup Hname.
    change (map nation_name (nations w)) with (nation_name <$> nations w) in Hnodup.
    assert (k = producer); [|lia].
    eapply (NoDup_lookup _ _ _ _ Hnodup).
    + by rewrite list_lookup_fmap, Hlisted.
    + by rewrite list_lookup_fmap, Howner, Hname.
Qed.

End Main.

(** The blackout on the two-nation roster. *)
Lemma blackout_aborts_witness :
  exists msg st',
    turn [] [] (Examples.two_retries true) Examples.silent Examples.summary
      Examples.no_format (Examples.start 3)
    = TurnRaised (RuntimeError msg) st'
    /\ world st' = world (Examples.start 3)
    /\ main_loop [] [] (Examples.two_retries true) Examples.silent Examples.summary
         Examples.no_format 5 (Examples.start 3)
       = Some (Aborted (RuntimeError msg) st').
Proof.
  destruct (blackout_aborts [] [] (Examples.two_retries true) Examples.silent
              Examples.summary Examples.no_format (Examples.start 3) eq_refl)
    as (exc & st' & Hturn & Hworld & _ & Hloop & Hruntime & _).
  destruct Hruntime as [-> _]; [by vm_compute|].
  eexists _, st'. split; [exact Hturn|]. split; [exact Hworld|].
  apply Hloop. by vm_compute.
Defined.


(** ** The metrics do not steer the run *)


Lemma turn_world_independent P1 E1 P2 E2 config respond summarize fmt1 fmt2 st1 st2 :
  world st1 = world st2 ->
  match turn P1 E1 config respond summarize fmt1 st1,
        turn P2 E2 config respond summarize fmt2 st2 with
  | TurnDone a, TurnDone b => world a = world b
  | TurnRaised e1 a, TurnRaised e2 b => e1 = e2 /\ world a = world b
  | _, _ => False
  end.
Proof.
  intros Hworld.
  destruct (decide (max_days (world st1) = 0)) as [Hzero|Hnz].
  { rewrite (turn_zero P1 E1 config respond summarize fmt1 st1 Hzero).
    rewrite Hworld in Hzero.
    by rewrite (turn_zero P2 E2 config respond summarize fmt2 st2 Hzero). }
  destruct (decide (num_nations_exceeded_max_retries
                      (collect config respond (world st1) (nations (world st1)) 0)
                    = length (nations (world st1)))) as [Hall|Hne].
  - rewrite (turn_blackout P1 E1 config respond summarize fmt1 st1 Hnz Hall).
    rewrite Hworld in Hall, Hnz.
    rewrite (turn_blackout P2 E2 config respond summarize fmt2 st2 Hnz Hall).
    cbn. by rewrite Hworld.
  - destruct (turn_proceeds P1 E1 config respond summarize fmt1 st1 Hnz Hne)
      as (? & ? & _ & _ & ->).
    rewrite Hworld in Hne, Hnz.
    destruct (turn_proceeds P2 E2 config respond summarize fmt2 st2 Hnz Hne)
      as (? & ? & _ & _ & ->).
    cbn. by rewrite Hworld.
Qed.

Lemma main_loop_world_independent P1 E1 P2 E2 config respond summarize fmt1 fmt2
    fuel st1 st2 :
  world st1 = world st2 ->
  match main_loop P1 E1 config respond summarize fmt1 fuel st1,
        main_loop P2 E2 config respond summarize fmt2 fuel st2 with
  | Some (Completed a), Some (Completed b) => world a = world b
  | Some (Aborted e1 a), Some (Aborted e2 b) => e1 = e2 /\ world a = world b
  | None, None => True
  | _, _ => False
  end.
Proof.
  revert st1 st2. induction fuel as [|fuel IH]; intros st1 st2 Hworld; [done|].
  cbn. rewrite <- Hworld.
  destruct (current_day (world st1) <=? max_days (world st1)); [|done].
  pose proof (turn_world_independent P1 E1 P2 E2 config respond summarize
                fmt1 fmt2 st1 st2 Hworld) as Hturn.
  destruct (turn P1 _ _ _ _ _ st1) as [a|e1 a], (turn P2 _ _ _ _ _ st2) as [b|e2 b];
    try done.
  by apply IH.
Qed.

(** C8 (amended): on a completed day the number of provoking (extreme)
    actions of the day is the number of queued actions, resolved or
    dropped, whose name is in [PROVOKING_PLUS_ACTIONS]
    ([EXTREME_ACTIONS]); the classification tags of the catalog are not
    read.  The count is appended to the
    list of per-day counts, which therefore has one entry per completed
    day, and what is logged is that count, the sum of the list and its
    largest entry.  The world a day or a whole run ends with does not
    depend on the two lists of names nor on the counts gathered so far. *)
Theorem metrics_are_observational :
  (forall P E config respond summarize fmt st st',
      turn P E config respond summarize fmt st = TurnDone st' ->
      let w := world st in
      let queued := queued_actions (collect config respond w (nations w) 0) in
      exists log_object evs,
        trace st' = trace st ++ evs ++ [EvWandbLog log_object]
        /\ aggressive_action_counts_whole_run st'
           = aggressive_action_counts_whole_run st
               ++ [daily_provoking_plus_action_counts log_object]
        /\ extreme_action_counts_whole_run st'
           = extreme_action_counts_whole_run st
               ++ [daily_extreme_action_counts log_object]
        /\ daily_provoking_plus_action_counts log_object
           = Z.of_nat (length (filter (fun a => name a ∈ P) queued))
        /\ daily_extreme_action_counts log_object
           = Z.of_nat (length (filter (fun a => name a ∈ E) queued))
        /\ whole_run_sum_provoking_plus_action_counts log_object
           = foldr Z.add 0 (aggressive_action_counts_whole_run st')
        /\ whole_run_sum_extreme_action_counts log_object
           = foldr Z.add 0 (extreme_action_counts_whole_run st')
        /\ whole_run_max_provoking_plus_action_counts log_object
             ∈ aggressive_action_counts_whole_run st'
        /\ (forall y, y ∈ aggressive_action_counts_whole_run st' ->
                      y <= whole_run_max_provoking_plus_action_counts log_object)
        /\ whole_run_max_extreme_action_counts log_object
             ∈ extreme_action_counts_whole_run st'
        /\ (forall y, y ∈ extreme_action_counts_whole_run st' ->
                      y <= whole_run_max_extreme_action_counts log_object))
  /\ (forall P E config respond summarize fmt roster catalog days n st,
        nsteps (turn_step P E config respond summarize fmt) n
          (main_init roster catalog days) st ->
        length (aggressive_action_counts_whole_run st) = n
        /\ length (extreme_action_counts_whole_run st) = n)
  /\ (forall P1 E1 P2 E2 config respond summarize fmt st1 st2,
        world st1 = world st2 ->
        match turn P1 E1 config respond summarize fmt st1,
              turn P2 E2 config respond summarize fmt st2 with
        | TurnDone a, TurnDone b => world a = world b
        | TurnRaised e1 a, TurnRaised e2 b => e1 = e2 /\ world a = world b
        | _, _ => False
        end)
  /\ (forall P1 E1 P2 E2 config respond summarize fmt fuel st1 st2,
        world st1 = world st2 ->
        match main_loop P1 E1 config respond summarize fmt fuel st1,
              main_loop P2 E2 config respond summarize fmt fuel st2 with
        | Some (Completed a), Some (Completed b) => world a = world b
        | Some (Aborted e1 a), Some (Aborted e2 b) => e1 = e2 /\ world a = world b
        | None, None => True
        | _, _ => False
        end).
Proof.
  split; [|split; [|split]].
  - intros P E config respond summarize fmt st st' Hturn w queued.
    destruct (turn_proceeds P E config respond summarize fmt st
                (turn_done_nonzero _ _ _ _ _ _ _ _ Hturn)
                (turn_done_not_blackout _ _ _ _ _ _ _ _ Hturn))
      as (mp & me & Hmp & Hme & Hdone).
    rewrite Hturn in Hdone. injection Hdone as ->.
    destruct (py_max_snoc (aggressive_action_counts_whole_run st)
                (count_actions P queued)) as (mp' & Hmp' & Hpin & Hpmax).
    destruct (py_max_snoc (extreme_action_counts_whole_run st)
                (count_actions E queued)) as (me' & Hme' & Hein & Hemax).
    fold w queued in Hmp, Hme.
    assert (mp' = mp) as -> by congruence.
    assert (me' = me) as -> by congruence.
    eexists _, _. cbn [trace].
    split; [apply trace_regroup|].
    cbn. fold w queued.
    split; [done|]. split; [done|].
    split; [apply count_actions_filter|]. split; [apply count_actions_filter|].
    split; [apply py_sum_foldr|]. split; [apply py_sum_foldr|].
    done.
  - intros P E config respond summarize fmt roster catalog days n st.
    remember (main_init roster catalog days) as st0 eqn:Hst0.
    assert (Hp : length (aggressive_action_counts_whole_run st0) = 0%nat)
      by (by subst).
    assert (He : length (extreme_action_counts_whole_run st0) = 0%nat)
      by (by subst).
    clear Hst0. intros Hsteps.
    enough (length (aggressive_action_counts_whole_run st)
            = (length (aggressive_action_counts_whole_run st0) + n)%nat
            /\ length (extreme_action_counts_whole_run st)
               = (length (extreme_action_counts_whole_run st0) + n)%nat) by lia.
    clear Hp He.
    induction Hsteps as [st|n st mid st' [_ Hturn] _ [IHp IHe]]; [lia|].
    destruct (turn_proceeds P E config respond summarize fmt st
                (turn_done_nonzero _ _ _ _ _ _ _ _ Hturn)
                (turn_done_not_blackout _ _ _ _ _ _ _ _ Hturn))
      as (mp & me & _ & _ & Hdone).
    rewrite Hturn in Hdone. injection Hdone as Hmid.
    rewrite IHp, IHe, Hmid. cbn. rewrite !length_app. cbn. lia.
  - intros. by apply turn_world_independent.
  - intros. by apply main_loop_world_independent.
Qed.

(** C4: after a day resolved with clamping enabled, every dynamic value of
    every nation lies within the bounds configured for its field; this is
    a property of the resolver whatever the states and actions. With
    clamping disabled nothing enforces the bounds: on the two-nation
    roster an attack on a nation of power 5 leaves it at power -5, below
    the configured minimum 0. *)
Theorem clamping_invariant :
  (forall PROVOKING_PLUS_ACTIONS EXTREME_ACTIONS config respond
          summarize_consequences format_actions st st'
          nation field lo hi value,
      clamp_dynamic_variables config = true ->
      turn PROVOKING_PLUS_ACTIONS EXTREME_ACTIONS config respond
        summarize_consequences format_actions st = TurnDone st' ->
      nation ∈ nations (world st') ->
      bounds (action_config (world st')) !! field = Some (lo, hi) ->
      lo <= hi ->
      dynamic nation !! field = Some value ->
      lo <= value <= hi)
  /\ (forall states actions config nation field lo hi value,
        nation ∈ (resolve states actions config true).1 ->
        bounds config !! field = Some (lo, hi) ->
        lo <= hi ->
        dynamic nation !! field = Some value ->
        lo <= value <= hi)
  /\ (exists st' nation,
        turn ["attack"] [] (Examples.two_retries false) Examples.only_first
          Examples.summary Examples.no_format
          (main_init [Examples.nation_A; Examples.weak_B] Examples.catalog 3)
        = TurnDone st'
        /\ nation ∈ nations (world st')
        /\ bounds (action_config (world st')) !! "power" = Some (0, 100)
        /\ dynamic nation !! "power" = Some (-5)).
Proof.
  split; [|split].
  - intros P E config respond summarize fmt st st' nation field lo hi value
      Hclamp Hturn Hin Hbounds Hle Hvalue.
    destruct (turn_done_nations P E config respond summarize fmt st st' Hturn)
      as [Hnations Hconfig].
    rewrite Hnations, Hclamp in Hin. rewrite Hconfig in Hbounds.
    by eapply resolve_clamped.
  - intros. by eapply resolve_clamped.
  - eexists _, {| nation_name := "B"; dynamic := Examples.power (-5) |}.
    split; [vm_compute; reflexivity|].
    split; [cbn; right; left|]; by vm_compute.
Qed.

(** Clamping on the same attack: the target ends at the minimum. *)
Lemma clamping_invariant_witness :
  {| nation_name := "B"; dynamic := Examples.power 0 |}
    ∈ (resolve [Examples.nation_A; Examples.weak_B] [Examples.attack]
         Examples.catalog true).1
  /\ 0 <= 0 <= 100.
Proof.
  assert (Hin : {| nation_name := "B"; dynamic := Examples.power 0 |}
                  ∈ (resolve [Examples.nation_A; Examples.weak_B] [Examples.attack]
                       Examples.catalog true).1)
    by (vm_compute; right; left).
  split; [exact Hin|].
  apply (proj1 (proj2 clamping_invariant) _ _ _ _ "power" 0 100 0 Hin).
  - by vm_compute.
  - lia.
  - by vm_compute.
Defined.

(** ** The theorems on the two-nation roster *)

Lemma query_nation_bounded_retry_witness :
  (length (List.filter is_respond_call
             (query_nation (Examples.two_retries true) Examples.only_first
                (world (Examples.start 3)) 1 Examples.nation_B).2) <= 2)%nat.
Proof.
  destruct (query_nation_bounded_retry (Examples.two_retries true)
              Examples.only_first (world (Examples.start 3)) 1 Examples.nation_B)
    as (excs & _ & _ & _ & Hcount & _).
  exact Hcount.
Defined.

Lemma consequence_history_append_only_witness :
  exists st',
    turn ["attack"] [] (Examples.two_retries true) Examples.only_first
      Examples.summary Examples.no_format (Examples.start 3)
    = TurnDone st'
    /\ consequence_history (world st') !! 0 = Some (Examples.summary (world st'))
    /\ current_day (world st') = 1.
Proof.
  destruct (turn ["attack"] [] (Examples.two_retries true) Examples.only_first
              Examples.summary Examples.no_format (Examples.start 3))
    as [st'|exc st'] eqn:Hturn; [|vm_compute in Hturn; discriminate].
  destruct (proj1 (consequence_history_append_only ["attack"] []
                     (Examples.two_retries true) Examples.only_first
                     Examples.summary Examples.no_format) _ _ Hturn)
    as (evs & _ & _ & Hday & Hworld & Hhist).
  exists st'. split; [done|]. split.
  - rewrite Hhist. cbn. by rewrite lookup_insert_eq.
  - rewrite Hworld. cbn. exact Hday.
Defined.

(** A run of two days, 0 and 1, in which both nations answer: it ends
    normally with the counter at 2. *)
Lemma day_counter_drives_the_loop_witness :
  exists st',
    main_loop ["attack"] [] (Examples.two_retries true) MoreExamples.both_answer
      Examples.summary Examples.no_format 3 (Examples.start 1)
    = Some (Completed st')
    /\ current_day (world st') = 2
    /\ nsteps (turn_step ["attack"] [] (Examples.two_retries true)
                 MoreExamples.both_answer Examples.summary Examples.no_format)
         2 (Examples.start 1) st'.
Proof.
  destruct (proj1 (proj2 (proj2
              (day_counter_drives_the_loop ["attack"] []
                 (Examples.two_retries true) MoreExamples.both_answer
                 Examples.summary Examples.no_format)))
              ltac:(intros w; destruct w; eexists; reflexivity)
              ltac:(reflexivity)
              (Examples.start 1)
              ltac:(discriminate)
              ltac:(discriminate))
    as (st' & Hloop & Hday & Hsteps).
  exists st'. split; [exact Hloop|]. split; [exact Hday|exact Hsteps].
Defined.

Lemma metrics_are_observational_witness :
  exists st' log_object,
    turn ["attack"] [] (Examples.two_retries true) Examples.only_first
      Examples.summary Examples.no_format (Examples.start 3)
    = TurnDone st'
    /\ aggressive_action_counts_whole_run st'
       = [daily_provoking_plus_action_counts log_object]
    /\ daily_provoking_plus_action_counts log_object = 1.
Proof.
  destruct (turn ["attack"] [] (Examples.two_retries true) Examples.only_first
              Examples.summary Examples.no_format (Examples.start 3))
    as [st'|exc st'] eqn:Hturn; [|vm_compute in Hturn; discriminate].
  destruct (proj1 metrics_are_observational _ _ _ _ _ _ _ _ Hturn)
    as (log_object & evs & _ & Hlist & _ & Hcount & _).
  exists st', log_object. split; [done|]. split; [exact Hlist|].
  rewrite Hcount. by vm_compute.
Defined.

(** Only the second nation answers: its response is logged under the
    name of the first. *)
Lemma response_rows_follow_positions_witness :
  exists listed owner row,
    nations (world (Examples.start 3)) !! 0%nat = Some listed
    /\ nations (world (Examples.start 3)) !! 1%nat = Some owner
    /\ text_rows Examples.no_format 0 (nations (world (Examples.start 3)))
         (model_responses
            (collect (Examples.two_retries true) Examples.only_second
               (world (Examples.start 3)) (nations (world (Examples.start 3))) 0))
       !! 0%nat = Some row
    /\ text_nation_name row = nation_name listed
    /\ nation_name listed <> nation_name owner.
Proof.
  destruct (proj2 (response_rows_follow_positions ["attack"] []
                     (Examples.two_retries true) Examples.only_second
                     Examples.summary Examples.no_format (Examples.start 3))
              0%nat 1%nat eq_refl)
    as (response & listed & owner & _ & Howner & _ & Hlisted & Htext & _ & _ & Hshift).
  exists listed, owner. eexists.
  split; [exact Hlisted|]. split; [exact Howner|]. split; [exact Htext|].
  split; [done|].
  apply (Hshift 0%nat); [lia|done|].
  cbn. apply NoDup_cons. split; [|apply NoDup_singleton].
  by intros Heq%list_elem_of_singleton.
Defined.

(** The count of lines 324-330 never looks at the catalog. *)
Lemma count_ignores_catalog :
  ~ (forall (PROVOKING_PLUS_ACTIONS : list string) (catalog : ActionConfig)
            (queued : list Action) (action : Action),
        effects catalog !! name action = None ->
        count_actions PROVOKING_PLUS_ACTIONS (queued ++ [action])
        = count_actions PROVOKING_PLUS_ACTIONS queued).
Proof.
  intros H.
  specialize (H ["parade"] Examples.catalog [] Examples.parade).
  vm_compute in H. by specialize (H eq_refl).
Qed.

(** A day on which the first nation plays "parade", a kind the catalog
    does not list but [PROVOKING_PLUS_ACTIONS] names: the action is
    dropped with a warning and changes no nation, and yet it is counted
    as one provoking action of the day and of the run. *)
Lemma unknown_action_counted :
  effects Examples.catalog !! name Examples.parade = None
  /\ exists st' log_object,
      turn ["parade"] [] (Examples.two_retries true) Examples.parading
        Examples.summary Examples.no_format (Examples.start 3)
      = TurnDone st'
      /\ nations (world st') = [Examples.nation_A; Examples.nation_B]
      /\ last (trace st') = Some (EvWandbLog log_object)
      /\ EvUpdateState 0 [Examples.parade] ∈ trace st'
      /\ EvDropped Examples.parade ∈ trace st'
      /\ daily_provoking_plus_action_counts log_object = 1
      /\ whole_run_sum_provoking_plus_action_counts log_object = 1
      /\ aggressive_action_counts_whole_run st' = [1].
Proof.
  split; [by vm_compute|].
  eexists _, _. split; [vm_compute; reflexivity|].
  split; [by vm_compute|]. split; [by vm_compute|].
  split; [apply list_elem_of_lookup; by exists 8%nat|].
  split; [apply list_elem_of_lookup; by exists 9%nat|].
  by vm_compute.
Qed.

(** The day of the parade again, against the count per classification
    tag over the resolved actions: no action of the day was resolved, so
    that count is 0 for every tag, and the logged count is 1.  The other
    way round, with the attack that the catalog tags as aggressive and
    lists of names that do not name it, the count for the tag is 1 and
    the logged count is 0. *)
Lemma counts_are_not_tag_counts :
  (exists st' log_object,
      turn ["parade"] [] (Examples.two_retries true) Examples.parading
        Examples.summary Examples.no_format (Examples.start 3)
      = TurnDone st'
      /\ last (trace st') = Some (EvWandbLog log_object)
      /\ queued_actions
           (collect (Examples.two_retries true) Examples.parading
              (world (Examples.start 3)) (nations (world (Examples.start 3))) 0)
         = [Examples.parade]
      /\ filter (known Examples.catalog) [Examples.parade] = []
      /\ (forall tag, tag_count Examples.catalog tag [Examples.parade] = 0)
      /\ daily_provoking_plus_action_counts log_object = 1
      /\ whole_run_sum_provoking_plus_action_counts log_object = 1
      /\ whole_run_max_provoking_plus_action_counts log_object = 1)
  /\ (exists st' log_object,
        turn [] [] (Examples.two_retries true) Examples.only_first
          Examples.summary Examples.no_format (Examples.start 3)
        = TurnDone st'
        /\ last (trace st') = Some (EvWandbLog log_object)
        /\ queued_actions
             (collect (Examples.two_retries true) Examples.only_first
                (world (Examples.start 3)) (nations (world (Examples.start 3))) 0)
           = [Examples.attack]
        /\ tag_count Examples.catalog "aggressive" [Examples.attack] = 1
        /\ daily_provoking_plus_action_counts log_object = 0
        /\ daily_extreme_action_counts log_object = 0).
Proof.
  split.
  - eexists _, _. split; [vm_compute; reflexivity|].
    split; [by vm_compute|]. split; [by vm_compute|]. split; [by vm_compute|].
    split; [intros tag; by vm_compute|]. by vm_compute.
  - eexists _, _. split; [vm_compute; reflexivity|].
    split; [by vm_compute|]. by vm_compute.
Qed.


Lemma unknown_action_dropped_witness :
  exists st',
    turn ["attack"] [] (Examples.two_retries true) Examples.parading
      Examples.summary Examples.no_format (Examples.start 3)
    = TurnDone st'
    /\ nations (world st')
       = (resolve [Examples.nation_A; Examples.nation_B] [] Examples.catalog true).1.
Proof.
  destruct (unknown_action_dropped ["attack"] [] (Examples.two_retries true)
              Examples.parading Examples.summary Examples.no_format
              (Examples.start 3))
    as (st' & log_object & Hturn & Hnations & _).
  - by vm_compute.
  - vm_compute. lia.
  - exists st'. split; [exact Hturn|exact Hnations].
Defined.

End SimulationProofs.

(* ===================================================================== *)
(** * Properties of the construction of agents *)
(* ===================================================================== *)

Module DispatchProofs.
Import Dispatch.

Local Open Scope list_scope.

(** ** Substrings *)

Lemma substring_substring_prefix (s : string) (m n k : nat) :
  String.substring 0 n (String.substring m (n + k) s) = String.substring m n s.
Proof.
  revert m n. induction s as [|c s IH]; intros m n.
  - destruct m, n, k; reflexivity.
  - destruct m as [|m].
    + destruct n as [|n]; cbn.
      * by destruct k.
      * by rewrite <- (IH 0%nat n).
    + cbn. apply IH.
Qed.

Lemma substring_append_prefix (a b : string) :
  String.substring 0 (String.length a) (a ++ b)%string = a.
Proof.
  induction a as [|c a IH]; simpl.
  - by destruct b.
  - by rewrite IH.
Qed.

Lemma length_append (a b : string) :
  String.length (a ++ b)%string = (String.length a + String.length b)%nat.
Proof. induction a as [|c a IH]; simpl; [done|by rewrite IH]. Qed.

(** A string that contains [a ++ b] contains [a]. *)
Lemma contains_prefix (a b s : string) :
  a <> EmptyString ->
  contains (a ++ b) s = true -> contains a s = true.
Proof.
  unfold contains. intros Ha.
  destruct (String.index 0 (a ++ b) s) as [m|] eqn:Hab; [intros _|done].
  apply String.index_correct1 in Hab.
  destruct (String.index 0 a s) eqn:Hnone; [done|].
  exfalso. apply (String.index_correct3 0 m a s Hnone Ha); [lia|].
  rewrite <- (substring_substring_prefix s m (String.length a) (String.length b)).
  rewrite <- length_append, Hab. apply substring_append_prefix.
Qed.

Lemma contains_davinci (s : string) :
  contains "davinci-" s = true -> contains "davinci" s = true.
Proof. by apply (contains_prefix "davinci" "-"). Qed.

(** ** [LLMAgent.__init__] *)

Lemma init_completion model_name kwargs :
  takes_completion model_name = true ->
  LLMAgent_init model_name kwargs
  = Returns {| use_completion_preface :=
                 negb (truthy (pop_default "disable_completion_preface"
                                 (JBool false) kwargs));
               backend := OpenAICompletionBackend model_name;
               temperature := pop_default "temperature" (JNum (7 # 10)) kwargs;
               top_p := pop_default "top_p" (JNum 1) kwargs |}.
Proof.
  unfold takes_completion, LLMAgent_init. by intros ->.
Qed.

Lemma init_claude model_name kwargs :
  takes_claude model_name = true ->
  LLMAgent_init model_name kwargs
  = Returns {| use_completion_preface :=
                 negb (truthy (pop_default "disable_completion_preface"
                                 (JBool false) kwargs));
               backend := ClaudeCompletionBackend model_name;
               temperature := pop_default "temperature" (JNum (7 # 10)) kwargs;
               top_p := pop_default "top_p" (JNum 1) kwargs |}.
Proof.
  unfold takes_claude, takes_completion, LLMAgent_init.
  intros [Hc Hcl]%andb_true_iff. apply negb_true_iff in Hc.
  by rewrite Hc, Hcl.
Qed.

Lemma init_chat model_name kwargs :
  takes_completion model_name = false ->
  contains "claude" model_name = false ->
  contains "llama" model_name = false ->
  LLMAgent_init model_name kwargs
  = Returns {| use_completion_preface := false;
               backend := OpenAIChatBackend model_name;
               temperature := pop_default "temperature" (JNum (7 # 10)) kwargs;
               top_p := pop_default "top_p" (JNum 1) kwargs |}.
Proof.
  unfold takes_completion, LLMAgent_init. by intros -> -> ->.
Qed.

(** The llama branch, by the first key that is missing. *)
Lemma init_llama model_name kwargs :
  takes_llama model_name = true ->
  LLMAgent_init model_name kwargs
  = match List.find (fun key => negb (bool_decide (is_Some (kwargs !! key))))
            llama_keys with
    | Some key => Raises (KeyError key)
    | None =>
        Returns {| use_completion_preface :=
                     negb (truthy (pop_default "disable_completion_preface"
                                     (JBool false) kwargs));
                   backend :=
                     HuggingFaceCausalLMBackend model_name
                       (pop_default "local_llm_path" JNull kwargs)
                       (pop_default "device" JNull kwargs)
                       (pop_default "quantization" JNull kwargs)
                       (pop_default "fourbit_compute_dtype" JNull kwargs);
                   temperature := pop_default "temperature" (JNum (7 # 10)) kwargs;
                   top_p := pop_default "top_p" (JNum 1) kwargs |}
    end.
Proof.
  unfold takes_llama, takes_completion, LLMAgent_init.
  intros [[Hc Hcl]%andb_true_iff Hl]%andb_true_iff.
  apply negb_true_iff in Hc, Hcl. rewrite Hc, Hcl, Hl.
  unfold llama_keys, pop, pop_default. cbn [List.find].
  destruct (kwargs !! "local_llm_path") as [v1|]; cbn; [|done].
  destruct (kwargs !! "device") as [v2|]; cbn; [|done].
  destruct (kwargs !! "quantization") as [v3|]; cbn; [|done].
  by destruct (kwargs !! "fourbit_compute_dtype") as [v4|]; cbn.
Qed.

Lemma branches_cover model_name :
  takes_completion model_name = true
  \/ takes_claude model_name = true
  \/ takes_llama model_name = true
  \/ (takes_completion model_name = false
      /\ contains "claude" model_name = false
      /\ contains "llama" model_name = false).
Proof.
  unfold takes_claude, takes_llama.
  destruct (takes_completion model_name); [by left|].
  destruct (contains "claude" model_name); [by right; left|].
  destruct (contains "llama" model_name); [by right; right; left|].
  by right; right; right.
Qed.

Lemma init_not_llama model_name kwargs :
  takes_llama model_name = false ->
  exists agent, LLMAgent_init model_name kwargs = Returns agent
                /\ is_llama (backend agent) = false.
Proof.
  intros Hl.
  destruct (branches_cover model_name) as [H|[H|[H|(H1 & H2 & H3)]]].
  - eexists. by rewrite (init_completion _ _ H).
  - eexists. by rewrite (init_claude _ _ H).
  - congruence.
  - eexists. by rewrite (init_chat _ _ H1 H2 H3).
Qed.

(** X1: [LLMAgent.__init__] raises only for a llama model: the exception is
    a [KeyError] for the first of [local_llm_path], [device],
    [quantization], [fourbit_compute_dtype] that the keyword arguments
    lack.  Any other model name, and a llama model given the four keys,
    yields an agent. *)
Theorem init_raises_only_for_llama_keys model_name kwargs :
  (takes_llama model_name = false ->
   exists agent, LLMAgent_init model_name kwargs = Returns agent
                 /\ is_llama (backend agent) = false)
  /\ (takes_llama model_name = true ->
      match List.find (fun key => negb (bool_decide (is_Some (kwargs !! key))))
              llama_keys with
      | Some key => LLMAgent_init model_name kwargs = Raises (KeyError key)
      | None => exists agent, LLMAgent_init model_name kwargs = Returns agent
                              /\ is_llama (backend agent) = true
      end).
Proof.
  split; [apply init_not_llama|].
  - intros Hl. rewrite (init_llama _ _ Hl).
    destruct (List.find _ _); [done|]. by eexists.
Qed.

(** X2: an agent with a chat backend never uses a completion preface,
    whatever [disable_completion_preface] says; with any other backend the
    preface is used exactly when that keyword argument is absent or
    false. *)
Theorem chat_backend_has_no_preface model_name kwargs agent :
  LLMAgent_init model_name kwargs = Returns agent ->
  use_completion_preface agent
  = negb (is_chat (backend agent))
    && negb (truthy (pop_default "disable_completion_preface" (JBool false) kwargs)).
Proof.
  destruct (branches_cover model_name) as [H|[H|[H|(H1 & H2 & H3)]]].
  - rewrite (init_completion _ _ H). by intros [= <-].
  - rewrite (init_claude _ _ H). by intros [= <-].
  - rewrite (init_llama _ _ H). destruct (List.find _ _); [done|]. by intros [= <-].
  - rewrite (init_chat _ _ H1 H2 H3). by intros [= <-].
Qed.

Section ModelName.

Variable str_lower : string -> string.

Abbreviation model_name_to_agent := (model_name_to_agent str_lower).

Lemma dispatch_llm model_name kwargs :
  scripted (str_lower model_name) = false ->
  names_llm (str_lower model_name) = true ->
  model_name_to_agent model_name kwargs
  = (agent ← LLMAgent_new (str_lower model_name) kwargs; Returns (LLM agent)).
Proof.
  unfold scripted, names_llm, Dispatch.model_name_to_agent.
  intros Hs Hl.
  apply orb_false_elim in Hs as [Hs Hexploiter].
  apply orb_false_elim in Hs as [Hs Hnopress].
  apply orb_false_elim in Hs as [Hrandom Hmanual].
  by rewrite Hrandom, Hmanual, Hnopress, Hexploiter, Hl.
Qed.

Lemma dispatch_unknown model_name kwargs :
  scripted (str_lower model_name) = false ->
  names_llm (str_lower model_name) = false ->
  model_name_to_agent model_name kwargs
  = Raises (ValueError ("Unknown model name: " ++ str_lower model_name)%string).
Proof.
  unfold scripted, names_llm, Dispatch.model_name_to_agent.
  intros Hs Hl.
  apply orb_false_elim in Hs as [Hs Hexploiter].
  apply orb_false_elim in Hs as [Hs Hnopress].
  apply orb_false_elim in Hs as [Hrandom Hmanual].
  by rewrite Hrandom, Hmanual, Hnopress, Hexploiter, Hl.
Qed.

Lemma dispatch_scripted model_name kwargs :
  scripted (str_lower model_name) = true ->
  exists cls, scripted_class (str_lower model_name) = Some cls
              /\ model_name_to_agent model_name kwargs = Raises (NameError cls).
Proof.
  unfold scripted, scripted_class, Dispatch.model_name_to_agent. intros Hs.
  destruct (String.eqb (str_lower model_name) "random"); [by eexists|].
  destruct (String.eqb (str_lower model_name) "manual"); [by eexists|].
  destruct (String.eqb (str_lower model_name) "nopress"); [by eexists|].
  destruct (String.eqb (str_lower model_name) "exploiter"); [by eexists|].
  done.
Qed.

Lemma scripted_class_None model_name :
  scripted model_name = false <-> scripted_class model_name = None.
Proof.
  unfold scripted, scripted_class.
  destruct (String.eqb model_name "random"); [done|].
  destruct (String.eqb model_name "manual"); [done|].
  destruct (String.eqb model_name "nopress"); [done|].
  by destruct (String.eqb model_name "exploiter").
Qed.

(** The keywords that the call [LLMAgent(model_name, **kwargs)] refuses. *)
Lemma new_collision model_name kwargs :
  is_Some (kwargs !! "self") \/ is_Some (kwargs !! "model_name") ->
  exists msg, LLMAgent_new model_name kwargs = Raises (TypeError msg).
Proof.
  unfold LLMAgent_new. intros [Hself|Hname].
  - rewrite bool_decide_eq_true_2 by done. by eexists.
  - destruct (bool_decide (is_Some (kwargs !! "self"))); [by eexists|].
    rewrite bool_decide_eq_true_2 by done. by eexists.
Qed.

Lemma new_no_collision model_name kwargs :
  kwargs !! "self" = None ->
  kwargs !! "model_name" = None ->
  LLMAgent_new model_name kwargs = LLMAgent_init model_name kwargs.
Proof.
  unfold LLMAgent_new. intros -> ->.
  by rewrite !bool_decide_eq_false_2 by (by intros [? ?]).
Qed.

Lemma new_returns model_name kwargs agent :
  LLMAgent_new model_name kwargs = Returns agent ->
  kwargs !! "self" = None
  /\ kwargs !! "model_name" = None
  /\ LLMAgent_init model_name kwargs = Returns agent.
Proof.
  unfold LLMAgent_new.
  destruct (kwargs !! "self") as [v|] eqn:Hself.
  { rewrite bool_decide_eq_true_2 by (by eexists). done. }
  destruct (kwargs !! "model_name") as [v|] eqn:Hname.
  { rewrite bool_decide_eq_false_2 by (by intros [? ?]).
    rewrite bool_decide_eq_true_2 by (by eexists). done. }
  by rewrite !bool_decide_eq_false_2 by (by intros [? ?]).
Qed.

Lemma dispatch_returns_llm model_name kwargs agent :
  model_name_to_agent model_name kwargs = Returns (LLM agent) ->
  scripted (str_lower model_name) = false
  /\ names_llm (str_lower model_name) = true
  /\ LLMAgent_init (str_lower model_name) kwargs = Returns agent.
Proof.
  intros Hret.
  destruct (scripted (str_lower model_name)) eqn:Hs.
  { destruct (dispatch_scripted model_name kwargs Hs) as (cls & _ & Hraise).
    by rewrite Hraise in Hret. }
  destruct (names_llm (str_lower model_name)) eqn:Hl.
  - rewrite (dispatch_llm _ _ Hs Hl) in Hret.
    destruct (LLMAgent_new _ _) as [a|e] eqn:Hnew; [|done].
    cbn in Hret. injection Hret as ->.
    by destruct (new_returns _ _ _ Hnew) as (_ & _ & Hinit).
  - by rewrite (dispatch_unknown _ _ Hs Hl) in Hret.
Qed.

(** X3: through [model_name_to_agent] a chat backend is only ever built for
    a name whose lower-case form contains "gpt-", and a name whose
    lower-case form contains "davinci-" or "text-" always gets the OpenAI
    completion backend. *)
Theorem dispatch_backend_by_name model_name kwargs agent :
  model_name_to_agent model_name kwargs = Returns (LLM agent) ->
  (is_chat (backend agent) = true ->
   contains "gpt-" (str_lower model_name) = true)
  /\ (contains "davinci-" (str_lower model_name)
      || contains "text-" (str_lower model_name) = true ->
      backend agent = OpenAICompletionBackend (str_lower model_name)).
Proof.
  intros (Hs & Hl & Hinit)%dispatch_returns_llm. split.
  - intros Hchat.
    destruct (branches_cover (str_lower model_name))
      as [H|[H|[H|(H1 & H2 & H3)]]].
    + rewrite (init_completion _ _ H) in Hinit. by injection Hinit as <-.
    + rewrite (init_claude _ _ H) in Hinit. by injection Hinit as <-.
    + rewrite (init_llama _ _ H) in Hinit.
      destruct (List.find _ _); [done|]. by injection Hinit as <-.
    + unfold names_llm in Hl. unfold takes_completion in H1.
      apply orb_false_elim in H1 as [H1 Hturbo].
      apply orb_false_elim in H1 as [H1 Hdavinci].
      apply orb_false_elim in H1 as [Hbase Htext].
      rewrite Htext, H2, H3 in Hl.
      destruct (contains "gpt-" (str_lower model_name)); [done|].
      destruct (contains "davinci-" (str_lower model_name)) eqn:Hd; [|done].
      apply contains_davinci in Hd. congruence.
  - intros Hname.
    assert (takes_completion (str_lower model_name) = true) as Hc.
    { unfold takes_completion. apply orb_true_iff in Hname as [Hd|Ht].
      - apply contains_davinci in Hd. rewrite Hd. by rewrite !orb_true_r.
      - rewrite Ht. by rewrite orb_true_r. }
    rewrite (init_completion _ _ Hc) in Hinit. by injection Hinit as <-.
Qed.


(** X5: a name that [LLMAgent.__init__] would serve with the completion
    backend is refused by [model_name_to_agent] when its lower-case form
    contains none of the five substrings the dispatcher looks for, as for
    "davinci" without a hyphen or "turbo-instruct". *)
Theorem dispatch_refuses_what_init_accepts model_name kwargs :
  scripted (str_lower model_name) = false ->
  names_llm (str_lower model_name) = false ->
  takes_completion (str_lower model_name) = true ->
  (exists msg, model_name_to_agent model_name kwargs = Raises (ValueError msg))
  /\ (exists agent,
        LLMAgent_init (str_lower model_name) kwargs = Returns agent
        /\ backend agent = OpenAICompletionBackend (str_lower model_name)).
Proof.
  intros Hs Hl Hc. split.
  - eexists. by apply dispatch_unknown.
  - eexists. by rewrite (init_completion _ _ Hc).
Qed.

End ModelName.

(** ** On concrete names *)

Lemma init_raises_only_for_llama_keys_witness :
  LLMAgent_init "llama-2-7b" {["local_llm_path" := JStr "models/llama"]}
  = Raises (KeyError "device").
Proof.
  exact (proj2 (init_raises_only_for_llama_keys "llama-2-7b"
                  {["local_llm_path" := JStr "models/llama"]})
           ltac:(by vm_compute)).
Defined.

Lemma chat_backend_has_no_preface_witness :
  exists agent,
    LLMAgent_init "gpt-4" ∅ = Returns agent
    /\ use_completion_preface agent = false.
Proof.
  destruct (LLMAgent_init "gpt-4" ∅) as [agent|e] eqn:Hinit;
    [|vm_compute in Hinit; discriminate].
  exists agent. split; [done|].
  rewrite (chat_backend_has_no_preface _ _ _ Hinit).
  vm_compute in Hinit. by injection Hinit as <-.
Defined.

Lemma dispatch_backend_by_name_witness :
  exists agent,
    model_name_to_agent (fun s => s) "text-davinci-003" ∅ = Returns (LLM agent)
    /\ backend agent = OpenAICompletionBackend "text-davinci-003".
Proof.
  destruct (model_name_to_agent (fun s => s) "text-davinci-003" ∅)
    as [[agent]|e] eqn:Hagent;
    try (vm_compute in Hagent; discriminate).
  exists agent. split; [done|].
  apply (dispatch_backend_by_name (fun s => s) _ _ _ Hagent). by vm_compute.
Defined.


Lemma dispatch_refuses_what_init_accepts_witness :
  (exists msg, model_name_to_agent (fun s => s) "davinci" ∅ = Raises (ValueError msg))
  /\ (exists agent,
        LLMAgent_init "davinci" ∅ = Returns agent
        /\ backend agent = OpenAICompletionBackend "davinci").
Proof.
  apply (dispatch_refuses_what_init_accepts (fun s => s) "davinci" ∅);
    by vm_compute.
Defined.

End DispatchProofs.

(* ===================================================================== *)
(** * More on the parsing of a completion *)
(* ===================================================================== *)

Module RespondProofs.
Import Agents.

Local Open Scope list_scope.

(** ** Characters and substrings *)

Lemma substring_zero_length (n : nat) (s : string) : String.substring n 0 s = "".
Proof.
  revert n. induction s as [|c s IH]; intros [|n]; try reflexivity.
  simpl. apply IH.
Qed.

Lemma substring_one_get (i : nat) (s : string) (c : ascii) :
  String.substring i 1 s = String c "" -> String.get i s = Some c.
Proof.
  revert i. induction s as [|d s IH]; intros [|i]; simpl; try done.
  - rewrite substring_zero_length. by intros [= ->].
  - apply IH.
Qed.

Lemma index_char_get (c : ascii) (s : string) (i : nat) :
  String.index 0 (String c "") s = Some i -> String.get i s = Some c.
Proof.
  intros Hi. apply String.index_correct1 in Hi. by apply substring_one_get.
Qed.

Lemma get_lt_length (i : nat) (s : string) (c : ascii) :
  String.get i s = Some c -> (i < String.length s)%nat.
Proof.
  revert i. induction s as [|d s IH]; intros [|i]; simpl; try done; [lia|].
  intros H. apply IH in H. lia.
Qed.

Lemma last_index_from_get (c : ascii) (s : string) (pos i : nat) :
  last_index_from c s pos = Some i ->
  (pos <= i)%nat /\ String.get (i - pos) s = Some c.
Proof.
  revert pos. induction s as [|d s IH]; intros pos; simpl; [done|].
  destruct (last_index_from c s (S pos)) as [j|] eqn:Hlater.
  - intros [= ->]. destruct (IH _ Hlater) as [Hle Hget]. split; [lia|].
    replace (i - pos)%nat with (S (i - S pos)) by lia. done.
  - destruct (Ascii.eqb_spec d c) as [->|]; [|done].
    intros [= ->]. split; [lia|]. by rewrite Nat.sub_diag.
Qed.

Lemma get_substring (s : string) (n m k : nat) :
  (k < m)%nat -> String.get k (String.substring n m s) = String.get (n + k) s.
Proof.
  revert n m k. induction s as [|c s IH]; intros n m k Hk.
  - destruct n, m; simpl; try done; lia.
  - destruct n as [|n].
    + destruct m as [|m]; [lia|]. simpl.
      destruct k as [|k]; [done|]. apply (IH 0%nat). lia.
    + simpl. by apply IH.
Qed.

Lemma length_substring (s : string) (n m : nat) :
  (n + m <= String.length s)%nat ->
  String.length (String.substring n m s) = m.
Proof.
  revert n m. induction s as [|c s IH]; intros n m Hlen.
  - simpl in Hlen. by destruct n, m; simpl in *; try lia.
  - destruct n as [|n].
    + destruct m as [|m]; [done|]. simpl. rewrite (IH 0%nat); [done|].
      simpl in *. lia.
    + simpl. apply IH. simpl in Hlen. lia.
Qed.

Lemma length_substring_le (s : string) (n m : nat) :
  (n + String.length (String.substring n m s) <= Nat.max n (String.length s))%nat.
Proof.
  revert n m. induction s as [|c s IH]; intros n m.
  - destruct n, m; simpl; lia.
  - destruct n as [|n].
    + destruct m as [|m]; simpl; [lia|].
      specialize (IH 0%nat m). simpl in IH. lia.
    + simpl. specialize (IH n m). lia.
Qed.

Lemma substring_of_prefix (s : string) (i j m : nat) :
  (j + m <= i)%nat ->
  String.substring j m (String.substring 0 i s) = String.substring j m s.
Proof.
  revert i j m. induction s as [|c s IH]; intros i j m Hle.
  - by destruct i.
  - destruct i as [|i].
    + assert (j = 0%nat) as -> by lia. assert (m = 0%nat) as -> by lia. done.
    + simpl. destruct j as [|j].
      * destruct m as [|m]; [done|]. f_equal. apply IH. lia.
      * apply IH. lia.
Qed.

(** ** [split("**")[0]] *)

(** The part kept holds no separator. *)
Lemma split_first_no_separator (sep s : string) :
  sep <> EmptyString ->
  String.index 0 sep (split_first sep s) = None.
Proof.
  intros Hsep. unfold split_first.
  destruct (String.index 0 sep s) as [i|] eqn:Hfirst; [|done].
  destruct (String.index 0 sep (String.substring 0 i s)) as [j|] eqn:Hagain; [|done].
  exfalso.
  pose proof (String.index_correct1 _ _ _ _ Hagain) as Hat.
  pose proof (length_substring_le (String.substring 0 i s) j (String.length sep))
    as Hfit.
  rewrite Hat in Hfit.
  assert (String.length sep <> 0)%nat by (by destruct sep).
  assert (String.length (String.substring 0 i s) <= i)%nat as Hshort.
  { clear. revert i. induction s as [|c s IH]; intros [|i]; simpl; try lia.
    specialize (IH i). lia. }
  assert (j + String.length sep <= i)%nat as Hin by lia.
  rewrite substring_of_prefix in Hat by done.
  apply (String.index_correct2 _ _ _ _ Hfirst j); [lia|lia|done].
Qed.

Lemma split_first_idempotent (sep s : string) :
  sep <> EmptyString ->
  split_first sep (split_first sep s) = split_first sep s.
Proof.
  intros Hsep. unfold split_first at 1.
  by rewrite split_first_no_separator.
Qed.

(** ** Python dictionaries as item lists *)

Lemma dict_get_setitem (key : string) (v : json) (d : dict) :
  dict_get key (dict_setitem key v d) = Some v.
Proof.
  induction d as [|[k w] d IH]; simpl.
  - by rewrite String.eqb_refl.
  - destruct (String.eqb k key) eqn:Hk; simpl; by rewrite Hk.
Qed.

Lemma dict_setitem_keys {V} (key : string) (v : V) (d : list (string * V)) :
  map fst (dict_setitem key v d)
  = if bool_decide (key ∈ map fst d) then map fst d else map fst d ++ [key].
Proof.
  induction d as [|[k w] d IH]; simpl; [done|].
  destruct (String.eqb_spec k key) as [->|Hne]; simpl.
  - rewrite bool_decide_eq_true_2; [done|]. left.
  - rewrite IH. case_bool_decide as Hin.
    + rewrite bool_decide_eq_true_2; [done|]. by right.
    + rewrite bool_decide_eq_false_2; [done|].
      intros [?|?]%elem_of_cons; congruence.
Qed.

Lemma dict_setitem_NoDup {V} (key : string) (v : V) (d : list (string * V)) :
  NoDup (map fst d) -> NoDup (map fst (dict_setitem key v d)).
Proof.
  intros Hd. rewrite dict_setitem_keys. case_bool_decide as Hin; [done|].
  apply NoDup_app. split; [done|]. split; [|apply NoDup_singleton].
  intros k Hk ->%list_elem_of_singleton. done.
Qed.

Lemma dict_setitem_entries {V} (key k : string) (v w : V) (d : list (string * V)) :
  (k, w) ∈ dict_setitem key v d -> (k, w) ∈ d \/ (k = key /\ w = v).
Proof.
  induction d as [|[k' w'] d IH]; simpl.
  - intros [= -> ->]%list_elem_of_singleton. by right.
  - destruct (String.eqb_spec k' key) as [->|Hne].
    + intros [[= -> ->]|Hin]%elem_of_cons; [by right|]. left. by right.
    + intros [[= -> ->]|Hin]%elem_of_cons; [left; left|].
      destruct (IH Hin) as [?|?]; [left; by right|by right].
Qed.

Lemma dict_setitem_Forall {V} (P : string * V -> Prop) (key : string) (v : V)
    (d : list (string * V)) :
  (forall k, P (k, v)) -> Forall P d -> Forall P (dict_setitem key v d).
Proof.
  intros Hv. induction 1 as [|[k w] d Hkw Hd IH]; simpl.
  - by constructor.
  - destruct (String.eqb k key); constructor; auto.
Qed.

Section Respond.

Variable get_system_prompt : AgentParams -> string.
Variable get_user_prompt : AgentParams -> string.
Variable get_preface_prompt : AgentParams -> string.
Variable json_loads : string -> Outcome dict.
Variable py_str : json -> string.
Variable str_upper : string -> string.

Abbreviation respond :=
  (respond get_system_prompt get_user_prompt get_preface_prompt
     json_loads py_str str_upper).
Abbreviation parse_completion := (parse_completion json_loads py_str str_upper).
Abbreviation collect_messages := (collect_messages py_str str_upper).
Abbreviation backend_call :=
  (backend_call get_system_prompt get_user_prompt get_preface_prompt).
Abbreviation completion_text := (completion_text get_preface_prompt).

(** What a successful parse went through. *)
Lemma parse_completion_inv params response text reasoning orders messages :
  parse_completion params response text = Returns (reasoning, orders, messages) ->
  exists start last completion order_items raw message_items,
    String.index 0 "{" (cleaned text) = Some start
    /\ last_index_from "}" (cleaned text) 0 = Some last
    /\ json_loads (slice start (last + 1) (cleaned text)) = Returns completion
    /\ reasoning = default (JStr "*model outputted no reasoning*")
                     (dict_get "reasoning" completion)
    /\ dict_get "orders" completion = Some orders
    /\ iterate orders = Returns order_items
    /\ check_orders response order_items = Returns tt
    /\ dict_get "messages"
         (if no_press params then dict_setitem "messages" (JObj []) completion
          else completion) = Some raw
    /\ dict_items raw = Returns message_items
    /\ collect_messages message_items [] = Returns messages.
Proof.
  unfold Agents.parse_completion, str_index, str_rindex, dict_getitem.
  fold (cleaned text).
  destruct (String.index 0 "{" (cleaned text)) as [start|]; [|done]. cbn.
  destruct (last_index_from "}" (cleaned text) 0) as [last|]; [|done]. cbn.
  destruct (json_loads _) as [completion|] eqn:Hloads; [|done]. cbn.
  destruct (dict_get "orders" completion) as [orders'|] eqn:Horders; [|done]. cbn.
  destruct (iterate orders') as [order_items|] eqn:Hiter; [|done]. cbn.
  destruct (check_orders response order_items) as [[]|] eqn:Hcheck; [|done]. cbn.
  destruct (dict_get "messages" _) as [raw|] eqn:Hraw; [|done]. cbn.
  destruct (dict_items raw) as [message_items|] eqn:Hitems; [|done]. cbn.
  destruct (Agents.collect_messages _ _ _ _) as [messages'|] eqn:Hmsgs; [|done]. cbn.
  intros [= <- <- <-].
  exists start, last, completion, order_items, raw, message_items.
  repeat (split; [done|]). done.
Qed.

(** What a returned response was built from. *)
Lemma respond_returns_inv self params r :
  respond self params = Returns r ->
  exists response,
    backend_call self params = Returns response
    /\ parse_completion params response (completion_text self params response)
       = Returns (reasoning r, orders r, messages r).
Proof.
  intros Hr.
  destruct (backend_call self params) as [response|e] eqn:Hb.
  - exists response. split; [done|].
    destruct (parse_completion params response (completion_text self params response))
      as [[[reasoning orders] messages]|e] eqn:Hp.
    + rewrite (AgentsProofs.respond_parse_returns _ _ _ _ _ _ _ _ _ _ _ _ Hb Hp) in Hr.
      by injection Hr as <-.
    + by rewrite (AgentsProofs.respond_parse_raises _ _ _ _ _ _ _ _ _ _ Hb Hp) in Hr.
  - by rewrite (AgentsProofs.respond_backend_raises _ _ _ _ _ _ _ _ _ Hb) in Hr.
Qed.

Lemma check_orders_returns response items :
  check_orders response items = Returns tt -> forallb is_str items = true.
Proof.
  induction items as [|order items IH]; simpl; [done|].
  destruct (is_str order); [|done]. apply IH.
Qed.

(** The loop over the messages keeps three things true of the dictionary
    it fills. *)
Lemma collect_messages_inv items acc messages :
  collect_messages items acc = Returns messages ->
  (NoDup (map fst acc) -> NoDup (map fst messages))
  /\ (Forall (fun kv => kv.2 <> "") acc -> Forall (fun kv => kv.2 <> "") messages)
  /\ (forall key, key ∈ map fst messages ->
                  key ∈ map fst acc
                  \/ exists recipient, recipient ∈ map fst items
                                       /\ key = str_upper recipient).
Proof.
  revert acc. induction items as [|[recipient message] items IH]; intros acc; simpl.
  - intros [= <-]. split; [done|]. split; [done|]. intros key Hkey. by left.
  - destruct (message_text py_str message) as [text|] eqn:Htext; [|done]. cbn.
    destruct (String.eqb_spec text "") as [->|Hne].
    + intros Hrest. destruct (IH _ Hrest) as (Hnd & Hall & Hkeys).
      split; [done|]. split; [done|].
      intros key Hkey. destruct (Hkeys key Hkey) as [?|(r & Hr & ->)]; [by left|].
      right. exists r. split; [by right|done].
    + intros Hrest. destruct (IH _ Hrest) as (Hnd & Hall & Hkeys).
      split; [intros; by apply Hnd, dict_setitem_NoDup|].
      split; [intros; by apply Hall, dict_setitem_Forall|].
      intros key Hkey. destruct (Hkeys key Hkey) as [Hin|(r & Hr & ->)].
      * rewrite dict_setitem_keys in Hin. case_bool_decide; [by left|].
        apply elem_of_app in Hin as [?| ->%list_elem_of_singleton]; [by left|].
        right. exists recipient. split; [left|done].
      * right. exists r. split; [by right|done].
Qed.

(** The slice taken from the first opening to the last closing brace. *)
Lemma slice_between_braces text start last :
  String.index 0 "{" (cleaned text) = Some start ->
  last_index_from "}" (cleaned text) 0 = Some last ->
  let json_completion := slice start (last + 1) (cleaned text) in
  ((start <= last)%nat ->
   String.length json_completion = (last - start + 1)%nat
   /\ String.get 0 json_completion = Some "{"%char
   /\ String.get (last - start) json_completion = Some "}"%char)
  /\ ((last < start)%nat -> json_completion = "").
Proof.
  intros Hfirst Hlast json_completion. subst json_completion. unfold slice.
  pose proof (index_char_get _ _ _ Hfirst) as Hopen.
  destruct (last_index_from_get _ _ _ _ Hlast) as [_ Hclose].
  rewrite Nat.sub_0_r in Hclose.
  pose proof (get_lt_length _ _ _ Hclose) as Hlen.
  split.
  - intros Hle.
    replace (last + 1 - start)%nat with (last - start + 1)%nat by lia.
    split; [apply length_substring; lia|]. split.
    + rewrite get_substring by lia. by rewrite Nat.add_0_r.
    + rewrite get_substring by lia.
      by replace (start + (last - start))%nat with last by lia.
  - intros Hlt. replace (last + 1 - start)%nat with 0%nat by lia.
    apply substring_zero_length.
Qed.

Lemma slice_braced_or_empty text start last :
  String.index 0 "{" (cleaned text) = Some start ->
  last_index_from "}" (cleaned text) 0 = Some last ->
  braced (slice start (last + 1) (cleaned text))
  \/ slice start (last + 1) (cleaned text) = "".
Proof.
  intros Hfirst Hlast.
  destruct (slice_between_braces text start last Hfirst Hlast) as [Hin Hout].
  destruct (le_lt_dec start last) as [Hle|Hlt]; [left|right; by apply Hout].
  destruct (Hin Hle) as (Hlen & Hopen & Hclose).
  split; [done|]. rewrite Hlen.
  by replace (last - start + 1 - 1)%nat with (last - start)%nat by lia.
Qed.

(** The check of the orders depends on the response of the backend only
    through the exception it raises. *)
Lemma check_orders_response response1 response2 items :
  match check_orders response1 items, check_orders response2 items with
  | Returns _, Returns _ => True
  | Raises e1, Raises e2 =>
      e1 = AgentCompletionError None (Some response1)
      /\ e2 = AgentCompletionError None (Some response2)
  | _, _ => False
  end.
Proof.
  induction items as [|order items IH]; simpl; [done|].
  by destruct (is_str order).
Qed.

(** Two texts that agree up to their first "**" are parsed alike. *)
Lemma parse_completion_cut params response1 response2 text1 text2 :
  split_first "**" text1 = split_first "**" text2 ->
  match parse_completion params response1 text1,
        parse_completion params response2 text2 with
  | Returns a, Returns b => a = b
  | Raises e1, Raises e2 =>
      e1 = e2
      \/ (e1 = AgentCompletionError None (Some response1)
          /\ e2 = AgentCompletionError None (Some response2))
  | _, _ => False
  end.
Proof.
  intros Hcut. unfold Agents.parse_completion. rewrite Hcut.
  destruct (str_index _ _) as [start|e]; cbn; [|by left].
  destruct (str_rindex _ _) as [last|e]; cbn; [|by left].
  destruct (json_loads _) as [completion|e]; cbn; [|by left].
  destruct (dict_getitem "orders" completion) as [orders|e]; cbn; [|by left].
  destruct (iterate orders) as [order_items|e]; cbn; [|by left].
  pose proof (check_orders_response response1 response2 order_items) as Hcheck.
  destruct (check_orders response1 order_items) as [[]|e1],
           (check_orders response2 order_items) as [[]|e2]; cbn; try done;
    [|by right].
  destruct (dict_getitem "messages" _) as [raw|e]; cbn; [|by left].
  destruct (dict_items raw) as [message_items|e]; cbn; [|by left].
  destruct (Agents.collect_messages _ _ _ _) as [messages|e]; cbn; [done|by left].
Qed.

(** X6: whatever follows the first "**" of the text that is parsed plays
    no part in what [respond] returns.  Two calls in which the backend
    answers with the same usage figures and with texts that agree up to
    their first "**" return the same response, or both raise
    [AgentCompletionError]: each exception carries the response of its
    own backend, and the causes are the same, up to the response printed
    in the error of an order that is not a string. *)
Theorem completion_after_separator_ignored self1 self2 params response1 response2 :
  backend_call self1 params = Returns response1 ->
  backend_call self2 params = Returns response2 ->
  split_first "**" (completion_text self1 params response1)
  = split_first "**" (completion_text self2 params response2) ->
  br_prompt_tokens response1 = br_prompt_tokens response2 ->
  br_completion_tokens response1 = br_completion_tokens response2 ->
  br_total_tokens response1 = br_total_tokens response2 ->
  br_completion_time_sec response1 = br_completion_time_sec response2 ->
  match respond self1 params, respond self2 params with
  | Returns r1, Returns r2 => r1 = r2
  | Raises e1, Raises e2 =>
      exists cause1 cause2,
        e1 = AgentCompletionError (Some cause1) (Some response1)
        /\ e2 = AgentCompletionError (Some cause2) (Some response2)
        /\ (cause1 = cause2
            \/ (cause1 = AgentCompletionError None (Some response1)
                /\ cause2 = AgentCompletionError None (Some response2)))
  | _, _ => False
  end.
Proof.
  intros Hb1 Hb2 Hcut Hprompt Hcompletion Htotal Htime.
  pose proof (parse_completion_cut params response1 response2 _ _ Hcut) as Hparse.
  destruct (parse_completion params response1 _)
    as [[[reasoning1 orders1] messages1]|e1] eqn:Hp1,
    (parse_completion params response2 _)
    as [[[reasoning2 orders2] messages2]|e2] eqn:Hp2; try done.
  - rewrite (AgentsProofs.respond_parse_returns _ _ _ _ _ _ _ _ _ _ _ _ Hb1 Hp1).
    rewrite (AgentsProofs.respond_parse_returns _ _ _ _ _ _ _ _ _ _ _ _ Hb2 Hp2).
    injection Hparse as -> -> ->.
    by rewrite Hprompt, Hcompletion, Htotal, Htime.
  - rewrite (AgentsProofs.respond_parse_raises _ _ _ _ _ _ _ _ _ _ Hb1 Hp1).
    rewrite (AgentsProofs.respond_parse_raises _ _ _ _ _ _ _ _ _ _ Hb2 Hp2).
    by exists e1, e2.
Qed.

(** X7: [respond] hands [json.loads] nothing but the text that runs from
    the first opening brace to the last closing brace of the cleaned
    completion, which starts with the one and ends with the other, or is
    empty when the last closing brace comes first.  So two decoders that
    agree on the empty text and on every text in braces make [respond]
    behave alike on every input; and what a returned response was decoded
    from is such a text. *)
Theorem json_text_is_braced :
  (forall (loads1 loads2 : string -> Outcome dict) self params,
      (forall text, braced text \/ text = "" -> loads1 text = loads2 text) ->
      Agents.respond get_system_prompt get_user_prompt get_preface_prompt
        loads1 py_str str_upper self params
      = Agents.respond get_system_prompt get_user_prompt get_preface_prompt
          loads2 py_str str_upper self params)
  /\ (forall self params r,
        respond self params = Returns r ->
        exists response start last completion,
          backend_call self params = Returns response
          /\ String.index 0 "{" (cleaned (completion_text self params response))
             = Some start
          /\ last_index_from "}" (cleaned (completion_text self params response)) 0
             = Some last
          /\ json_loads (slice start (last + 1)
                           (cleaned (completion_text self params response)))
             = Returns completion
          /\ dict_get "orders" completion = Some (orders r)
          /\ (braced (slice start (last + 1)
                        (cleaned (completion_text self params response)))
              \/ slice start (last + 1)
                   (cleaned (completion_text self params response)) = "")).
Proof.
  split.
  - intros loads1 loads2 self params Hagree.
    assert (Hparse : forall response text,
              Agents.parse_completion loads1 py_str str_upper params response text
              = Agents.parse_completion loads2 py_str str_upper params response text).
    { intros response text. unfold Agents.parse_completion, str_index, str_rindex.
      fold (cleaned text).
      destruct (String.index 0 "{" (cleaned text)) as [start|] eqn:Hfirst; [|done].
      cbn.
      destruct (last_index_from "}" (cleaned text) 0) as [last|] eqn:Hlast; [|done].
      cbn.
      by rewrite (Hagree _ (slice_braced_or_empty text start last Hfirst Hlast)). }
    unfold Agents.respond, Agents.try_block.
    destruct (use_completion_preface self).
    + destruct (complete _ _ _ _ _ _) as [response|e]; cbn; [|done].
      by rewrite Hparse.
    + destruct (complete _ _ _ _ _ _) as [response|e]; cbn; [|done].
      by rewrite Hparse.
  - intros self params r (response & Hb & Hparse)%respond_returns_inv.
    apply parse_completion_inv in Hparse
      as (start & last & completion & order_items & raw & message_items
          & Hfirst & Hlast & Hloads & _ & Horders & _).
    exists response, start, last, completion.
    split; [done|]. split; [done|]. split; [done|]. split; [done|].
    split; [done|]. by apply slice_braced_or_empty.
Qed.

(** X8: under [no_press] a returned response carries no message, whatever
    the completion says. *)
Theorem no_press_drops_messages self params r :
  respond self params = Returns r ->
  no_press params = true ->
  messages r = [].
Proof.
  intros (response & _ & Hparse)%respond_returns_inv Hno.
  apply parse_completion_inv in Hparse
    as (start & last & completion & order_items & raw & message_items
        & _ & _ & _ & _ & _ & _ & _ & Hraw & Hitems & Hmsgs).
  rewrite Hno, dict_get_setitem in Hraw. injection Hraw as <-.
  cbn in Hitems. injection Hitems as <-. cbn in Hmsgs. by injection Hmsgs as <-.
Qed.

(** Every entry of the dictionary the loop fills was put there for one of
    the items. *)
Lemma collect_messages_entries items acc messages key text :
  collect_messages items acc = Returns messages ->
  (key, text) ∈ messages ->
  (key, text) ∈ acc
  \/ exists recipient message,
       (recipient, message) ∈ items
       /\ key = str_upper recipient
       /\ message_text py_str message = Returns text.
Proof.
  revert acc. induction items as [|[recipient message] items IH]; intros acc; simpl.
  - intros [= <-] Hin. by left.
  - destruct (message_text py_str message) as [body|] eqn:Hbody; [|done]. cbn.
    destruct (String.eqb_spec body "") as [->|Hne]; intros Hrest Hin.
    + destruct (IH _ Hrest Hin) as [?|(r & m & Hrm & -> & Hm)]; [by left|].
      right. exists r, m. split; [by right|done].
    + destruct (IH _ Hrest Hin) as [Hacc|(r & m & Hrm & -> & Hm)].
      * apply dict_setitem_entries in Hacc as [?|[-> ->]]; [by left|].
        right. exists recipient, message. split; [left|done].
      * right. exists r, m. split; [by right|done].
Qed.

(** X9: in a returned response no message is empty and no recipient
    occurs twice.  Every entry comes from the messages of the decoded
    completion (none under [no_press]): its recipient is the upper-case
    form of a recipient listed there, and its text is what the message
    listed for that recipient was turned into. *)
Theorem returned_messages_are_clean self params r :
  respond self params = Returns r ->
  exists response start last completion raw message_items,
    backend_call self params = Returns response
    /\ json_loads (slice start (last + 1)
                     (cleaned (completion_text self params response)))
       = Returns completion
    /\ dict_get "messages"
         (if no_press params then dict_setitem "messages" (JObj []) completion
          else completion) = Some raw
    /\ dict_items raw = Returns message_items
    /\ NoDup (map fst (messages r))
    /\ Forall (fun kv => kv.2 <> "") (messages r)
    /\ (forall key, key ∈ map fst (messages r) ->
                    exists recipient, recipient ∈ map fst message_items
                                      /\ key = str_upper recipient)
    /\ (forall key text,
          (key, text) ∈ messages r ->
          exists recipient message,
            (recipient, message) ∈ message_items
            /\ key = str_upper recipient
            /\ message_text py_str message = Returns text).
Proof.
  intros (response & Hb & Hparse)%respond_returns_inv.
  apply parse_completion_inv in Hparse
    as (start & last & completion & order_items & raw & message_items
        & _ & _ & Hloads & _ & _ & _ & _ & Hraw & Hitems & Hmsgs).
  destruct (collect_messages_inv _ _ _ Hmsgs) as (Hnd & Hall & Hkeys).
  exists response, start, last, completion, raw, message_items.
  split; [done|]. split; [done|]. split; [done|]. split; [done|].
  split; [apply Hnd; constructor|]. split; [apply Hall; constructor|].
  split.
  - intros key Hkey. destruct (Hkeys key Hkey) as [Hin|(recipient & Hin & ->)].
    + by apply elem_of_nil in Hin.
    + by exists recipient.
  - intros key text Hin.
    destruct (collect_messages_entries _ _ _ _ _ Hmsgs Hin) as [Hnil|Hfrom]; [|done].
    by apply elem_of_nil in Hnil.
Qed.

(** X10: the orders of a returned response can be iterated and every item
    is a string. *)
Theorem returned_orders_are_strings self params r :
  respond self params = Returns r ->
  exists items, iterate (orders r) = Returns items
                /\ forallb is_str items = true.
Proof.
  intros (response & _ & Hparse)%respond_returns_inv.
  apply parse_completion_inv in Hparse
    as (start & last & completion & order_items & raw & message_items
        & _ & _ & _ & _ & _ & Hiter & Hcheck & _).
  exists order_items. split; [done|]. by eapply check_orders_returns.
Qed.

(** X11: a returned response carries the orders of the decoded completion
    unchanged, and its reasoning, or the fixed placeholder when the
    completion has no "reasoning" key. *)
Theorem returned_reasoning_and_orders self params r :
  respond self params = Returns r ->
  exists response start last completion,
    backend_call self params = Returns response
    /\ json_loads (slice start (last + 1)
                     (cleaned (completion_text self params response)))
       = Returns completion
    /\ dict_get "orders" completion = Some (orders r)
    /\ reasoning r
       = match dict_get "reasoning" completion with
         | Some v => v
         | None => JStr "*model outputted no reasoning*"
         end.
Proof.
  intros (response & Hb & Hparse)%respond_returns_inv.
  apply parse_completion_inv in Hparse
    as (start & last & completion & order_items & raw & message_items
        & _ & _ & Hloads & Hreason & Horders & _).
  exists response, start, last, completion.
  split; [done|]. split; [done|]. split; [done|].
  rewrite Hreason. by destruct (dict_get "reasoning" completion).
Qed.

End Respond.

(** ** On the scripted agent *)

(** The talkative completion and the short one give the same response. *)
Lemma completion_after_separator_ignored_witness :
  exists r,
    Examples.toy_respond
      (Examples.chat_agent (Examples.answering MoreExamples.wrapped_completion))
      Examples.press = Returns r
    /\ Examples.toy_respond
         (Examples.chat_agent (Examples.answering MoreExamples.short_completion))
         Examples.press = Returns r.
Proof.
  pose proof (completion_after_separator_ignored
                Examples.no_prompt Examples.no_prompt Examples.no_prompt
                Examples.toy_loads Examples.toy_str (fun s => s)
                (Examples.chat_agent (Examples.answering MoreExamples.wrapped_completion))
                (Examples.chat_agent (Examples.answering MoreExamples.short_completion))
                Examples.press _ _ eq_refl eq_refl eq_refl eq_refl eq_refl eq_refl
                eq_refl) as Hsame.
  fold Examples.toy_respond in Hsame.
  destruct (Examples.toy_respond
              (Examples.chat_agent (Examples.answering MoreExamples.wrapped_completion))
              Examples.press) as [r1|e1] eqn:Hr1;
    [|vm_compute in Hr1; discriminate].
  destruct (Examples.toy_respond
              (Examples.chat_agent (Examples.answering MoreExamples.short_completion))
              Examples.press) as [r2|e2] eqn:Hr2; [|done].
  exists r1. split; [done|]. by rewrite Hsame.
Defined.

(** The decoder of the examples and one that refuses every text outside
    braces serve the talkative completion alike. *)
Lemma json_text_is_braced_witness :
  Examples.toy_respond
    (Examples.chat_agent (Examples.answering MoreExamples.wrapped_completion))
    Examples.press
  = Agents.respond Examples.no_prompt Examples.no_prompt Examples.no_prompt
      (fun text =>
         if String.eqb text "" then Examples.toy_loads text
         else if Ascii.eqb (default "x"%char (String.get 0 text)) "{"
         then Examples.toy_loads text
         else Raises (ValueError "not an object"))
      Examples.toy_str (fun s => s)
      (Examples.chat_agent (Examples.answering MoreExamples.wrapped_completion))
      Examples.press.
Proof.
  apply (proj1 (json_text_is_braced Examples.no_prompt Examples.no_prompt
                  Examples.no_prompt Examples.toy_loads Examples.toy_str
                  (fun s => s))).
  intros text [[Hopen _]| ->]; [|reflexivity].
  rewrite Hopen. cbn. by destruct (String.eqb text "").
Defined.

Lemma no_press_drops_messages_witness :
  exists r,
    Examples.toy_respond
      (Examples.chat_agent (Examples.answering MoreExamples.wrapped_completion))
      MoreExamples.no_press_params = Returns r
    /\ messages r = [].
Proof.
  destruct (Examples.toy_respond
              (Examples.chat_agent (Examples.answering MoreExamples.wrapped_completion))
              MoreExamples.no_press_params) as [r|e] eqn:Hr;
    [|vm_compute in Hr; discriminate].
  exists r. split; [done|].
  by apply (no_press_drops_messages _ _ _ _ _ _ _ _ _ Hr).
Defined.

Lemma returned_messages_are_clean_witness :
  exists r,
    Examples.toy_respond
      (Examples.chat_agent (Examples.answering MoreExamples.wrapped_completion))
      Examples.press = Returns r
    /\ NoDup (map fst (messages r))
    /\ Forall (fun kv => kv.2 <> "") (messages r).
Proof.
  destruct (Examples.toy_respond
              (Examples.chat_agent (Examples.answering MoreExamples.wrapped_completion))
              Examples.press) as [r|e] eqn:Hr;
    [|vm_compute in Hr; discriminate].
  exists r. split; [done|].
  destruct (returned_messages_are_clean _ _ _ _ _ _ _ _ _ Hr)
    as (response & start & last & completion & raw & message_items
        & _ & _ & _ & _ & Hnd & Hall & _).
  by split.
Defined.

Lemma returned_orders_are_strings_witness :
  exists r items,
    Examples.toy_respond
      (Examples.chat_agent (Examples.answering MoreExamples.wrapped_completion))
      Examples.press = Returns r
    /\ iterate (orders r) = Returns items
    /\ forallb is_str items = true.
Proof.
  destruct (Examples.toy_respond
              (Examples.chat_agent (Examples.answering MoreExamples.wrapped_completion))
              Examples.press) as [r|e] eqn:Hr;
    [|vm_compute in Hr; discriminate].
  destruct (returned_orders_are_strings _ _ _ _ _ _ _ _ _ Hr) as (items & Hiter & Hstr).
  by exists r, items.
Defined.

Lemma returned_reasoning_and_orders_witness :
  exists r completion,
    Examples.toy_respond
      (Examples.chat_agent (Examples.answering MoreExamples.wrapped_completion))
      Examples.press = Returns r
    /\ dict_get "orders" completion = Some (orders r).
Proof.
  destruct (Examples.toy_respond
              (Examples.chat_agent (Examples.answering MoreExamples.wrapped_completion))
              Examples.press) as [r|e] eqn:Hr;
    [|vm_compute in Hr; discriminate].
  destruct (returned_reasoning_and_orders _ _ _ _ _ _ _ _ _ Hr)
    as (response & start & last & completion & _ & _ & Horders & _).
  by exists r, completion.
Defined.

End RespondProofs.

(* ===================================================================== *)
(** * More on the simulation loop *)
(* ===================================================================== *)

Module LoopProofs.
Import Simulation Report.

Local Open Scope list_scope.
Local Open Scope Z_scope.

(** ** Counting in a trace *)

Lemma seconds_slept_app (evs1 evs2 : list Event) :
  seconds_slept (evs1 ++ evs2) = seconds_slept evs1 + seconds_slept evs2.
Proof.
  induction evs1 as [|e evs1 IH]; simpl; [done|].
  destruct e; rewrite ?IH; lia.
Qed.

Lemma respond_calls_app (evs1 evs2 : list Event) :
  respond_calls (evs1 ++ evs2) = (respond_calls evs1 + respond_calls evs2)%nat.
Proof. unfold respond_calls. by rewrite List.filter_app, length_app. Qed.

Lemma seconds_slept_failed_attempts day nation_index nation attempt excs :
  seconds_slept
    (concat (imap (fun a => failed_attempt day nation_index nation (attempt + a)%nat)
               excs))
  = Z.of_nat (length excs).
Proof.
  revert attempt. induction excs as [|exc excs IH]; intros attempt; [done|].
  cbn [imap concat length]. rewrite seconds_slept_app.
  replace (seconds_slept (concat (imap _ excs))) with (Z.of_nat (length excs)).
  - cbn. lia.
  - rewrite <- (IH (S attempt)). do 2 f_equal.
    apply imap_ext. intros; cbn. f_equal. lia.
Qed.

Section Main.

Variable PROVOKING_PLUS_ACTIONS : list string.
Variable EXTREME_ACTIONS : list string.
Variable config : Config.
Variable respond : nat -> nat -> World -> Outcome NationResponse.
Variable summarize_consequences : World -> WorldModelResponse.
Variable format_actions : NationResponse -> string.

Abbreviation retry_loop := (retry_loop respond).
Abbreviation query_nation := (query_nation config respond).
Abbreviation collect := (collect config respond).
Abbreviation run_day :=
  (run_day PROVOKING_PLUS_ACTIONS EXTREME_ACTIONS config respond
     summarize_consequences format_actions).
Abbreviation turn :=
  (turn PROVOKING_PLUS_ACTIONS EXTREME_ACTIONS config respond
     summarize_consequences format_actions).
Abbreviation main_loop :=
  (main_loop PROVOKING_PLUS_ACTIONS EXTREME_ACTIONS config respond
     summarize_consequences format_actions).
Abbreviation turn_step :=
  (turn_step PROVOKING_PLUS_ACTIONS EXTREME_ACTIONS config respond
     summarize_consequences format_actions).
Abbreviation main_run :=
  (main_run PROVOKING_PLUS_ACTIONS EXTREME_ACTIONS config respond
     summarize_consequences format_actions).

(** What one query costs, by its number of failed attempts. *)
Lemma query_nation_cost world nation_index nation :
  exists failed : nat,
    seconds_slept (query_nation world nation_index nation).2 = Z.of_nat failed
    /\ respond_calls (query_nation world nation_index nation).2
       = (failed + match (query_nation world nation_index nation).1 with
                   | Some _ => 1
                   | None => 0
                   end)%nat
    /\ match (query_nation world nation_index nation).1 with
       | Some _ => (failed < Z.to_nat (max_model_retries config))%nat
       | None => failed = Z.to_nat (max_model_retries config)
       end.
Proof.
  unfold Simulation.query_nation.
  destruct (SimulationProofs.retry_loop_spec respond world nation_index nation
              (Z.to_nat (max_model_retries config)) 0)
    as (excs & _ & Hevs & Hres).
  exists (length excs). rewrite Hevs.
  rewrite seconds_slept_app, respond_calls_app.
  rewrite (seconds_slept_failed_attempts _ _ _ 0).
  unfold respond_calls at 1.
  rewrite (SimulationProofs.respond_calls_failed_attempts _ _ _ 0).
  destruct (retry_loop _ _ _ _ _).1 as [response|]; cbn.
  - split; [lia|]. split; [done|]. by destruct Hres.
  - split; [lia|]. split; [lia|done].
Qed.

(** X12: during one query every call to the agent that is not answered
    costs one second of sleep and nothing else does: the seconds slept are
    the calls made, less one when a response came.  A query that gives up
    has made as many calls and slept as many seconds as the retry budget;
    a query that is answered has slept less than that. *)
Theorem backoff_follows_failed_attempts world nation_index nation :
  let result := (query_nation world nation_index nation).1 in
  let evs := (query_nation world nation_index nation).2 in
  let budget := Z.max 0 (max_model_retries config) in
  seconds_slept evs
  = Z.of_nat (respond_calls evs) - match result with Some _ => 1 | None => 0 end
  /\ match result with
     | Some _ => 0 <= seconds_slept evs < budget
     | None => seconds_slept evs = budget /\ Z.of_nat (respond_calls evs) = budget
     end.
Proof.
  intros result evs budget. subst result evs budget.
  destruct (query_nation_cost world nation_index nation)
    as (failed & Hslept & Hcalls & Hbudget).
  rewrite Hslept, Hcalls.
  destruct (query_nation world nation_index nation).1; split; lia.
Qed.

(** X13: on one day the nations are called at most [n] times the retry
    budget, and the seconds slept are at most that many too, [n] being the
    size of the roster; the seconds slept never exceed the calls made. *)
Theorem day_cost_is_bounded world rest nation_index :
  let evs := events (collect world rest nation_index) in
  let budget := Z.max 0 (max_model_retries config) in
  0 <= seconds_slept evs <= Z.of_nat (respond_calls evs)
  /\ Z.of_nat (respond_calls evs) <= Z.of_nat (length rest) * budget.
Proof.
  intros evs budget. subst evs budget. revert nation_index.
  induction rest as [|nation rest IH]; intros i; [cbn; lia|].
  cbn [Simulation.collect].
  destruct (query_nation_cost world i nation) as (failed & Hslept & Hcalls & Hbudget).
  specialize (IH (S i)).
  destruct (query_nation world i nation) as [[response|] evs];
    cbn [events fst snd length] in *.
  - rewrite seconds_slept_app, respond_calls_app, Hslept, Hcalls. nia.
  - change (evs ++ ?e :: ?l) with (evs ++ [e] ++ l).
    rewrite !seconds_slept_app, !respond_calls_app, Hslept, Hcalls.
    change (seconds_slept [EvError _]) with 0.
    change (respond_calls [EvError _]) with 0%nat. nia.
Qed.

(** X14: with a retry budget of zero or less no nation is ever called and
    no day is completed: the day raises without a call to [respond], a
    pause, or a change of the world.  When [max_days] is not 0 every
    nation is counted as failed and the exception is the [RuntimeError]
    of the blackout check, reported last; when [max_days] is 0 it is the
    [ZeroDivisionError] of the progress figure and nothing was
    reported. *)
Theorem no_budget_is_blackout st :
  max_model_retries config <= 0 ->
  exists exc st' evs,
    turn st = TurnRaised exc st'
    /\ world st' = world st
    /\ trace st' = trace st ++ evs
    /\ respond_calls evs = 0%nat
    /\ seconds_slept evs = 0
    /\ (max_days (world st) <> 0 ->
        exc = RuntimeError (all_nations_error_text (max_model_retries config))
        /\ num_nations_exceeded_max_retries
             (collect (world st) (nations (world st)) 0)
           = length (nations (world st))
        /\ last evs = Some (EvError (AllNationsExceeded (max_model_retries config))))
    /\ (max_days (world st) = 0 ->
        exc = ZeroDivisionError "division by zero" /\ evs = []).
Proof.
  intros Hbudget.
  destruct (decide (max_days (world st) = 0)) as [Hzero|Hnz].
  { rewrite (SimulationProofs.turn_zero _ _ _ _ _ _ st Hzero).
    exists (ZeroDivisionError "division by zero"), st, [].
    split; [done|]. split; [done|]. split; [by rewrite app_nil_r|].
    split; [done|]. split; [done|]. split; [done|done]. }
  assert (Hnone : forall rest i,
             num_nations_exceeded_max_retries (collect (world st) rest i)
             = length rest
             /\ respond_calls (events (collect (world st) rest i)) = 0%nat
             /\ seconds_slept (events (collect (world st) rest i)) = 0).
  { induction rest as [|nation rest IH]; intros i; [done|].
    cbn [Simulation.collect]. unfold Simulation.query_nation.
    replace (Z.to_nat (max_model_retries config)) with 0%nat by lia. cbn.
    destruct (IH (S i)) as (-> & Hcalls & Hslept). done. }
  destruct (Hnone (nations (world st)) 0%nat) as (Hall & Hcalls & Hslept).
  rewrite (SimulationProofs.turn_blackout _ _ _ _ _ _ st Hnz Hall).
  eexists _, _, _. split; [done|]. split; [done|]. cbn [trace].
  split; [by rewrite <- app_assoc|].
  rewrite respond_calls_app, seconds_slept_app, Hcalls, Hslept.
  split; [done|]. split; [done|]. split; [|done].
  intros _. split; [done|]. split; [done|]. by rewrite last_snoc.
Qed.

(** ** The trackers of a completed day *)

Lemma turn_done_trackers st st' :
  turn st = TurnDone st' ->
  let w := world st in
  let c := collect w (nations w) 0 in
  exists log_object evs,
    trace st' = trace st ++ evs ++ [EvWandbLog log_object]
    /\ aggressive_action_counts_whole_run st'
       = aggressive_action_counts_whole_run st
           ++ [count_actions PROVOKING_PLUS_ACTIONS (queued_actions c)]
    /\ extreme_action_counts_whole_run st'
       = extreme_action_counts_whole_run st
           ++ [count_actions EXTREME_ACTIONS (queued_actions c)]
    /\ actions_whole_run st'
       = actions_whole_run st ++ action_rows (current_day w) (queued_actions c)
    /\ model_response_text_whole_run st'
       = model_response_text_whole_run st
           ++ text_rows format_actions (current_day w) (nations w) (model_responses c)
    /\ model_response_costs_whole_run st'
       = model_response_costs_whole_run st
           ++ cost_rows (current_day w) (nations w) (model_responses c)
    /\ daily_provoking_plus_action_counts log_object
       = count_actions PROVOKING_PLUS_ACTIONS (queued_actions c)
    /\ daily_extreme_action_counts log_object
       = count_actions EXTREME_ACTIONS (queued_actions c)
    /\ whole_run_sum_provoking_plus_action_counts log_object
       = py_sum (aggressive_action_counts_whole_run st')
    /\ whole_run_sum_extreme_action_counts log_object
       = py_sum (extreme_action_counts_whole_run st')
    /\ py_max (aggressive_action_counts_whole_run st')
       = Returns (whole_run_max_provoking_plus_action_counts log_object)
    /\ py_max (extreme_action_counts_whole_run st')
       = Returns (whole_run_max_extreme_action_counts log_object).
Proof.
  intros Hturn w c.
  destruct (SimulationProofs.turn_proceeds PROVOKING_PLUS_ACTIONS EXTREME_ACTIONS
              config respond summarize_consequences format_actions st
              (SimulationProofs.turn_done_nonzero _ _ _ _ _ _ _ _ Hturn)
              (SimulationProofs.turn_done_not_blackout _ _ _ _ _ _ _ _ Hturn))
    as (mp & me & Hmp & Hme & Hdone).
  rewrite Hturn in Hdone. injection Hdone as ->.
  eexists _, _. cbn [trace]. split; [apply SimulationProofs.trace_regroup|].
  cbn. fold w c. by repeat split.
Qed.

Lemma count_actions_bounds (names : list string) (queued : list Action) :
  0 <= count_actions names queued <= Z.of_nat (length queued).
Proof.
  rewrite SimulationProofs.count_actions_filter.
  pose proof (length_filter (fun action => name action ∈ names) queued). lia.
Qed.

Lemma count_actions_mono (names1 names2 : list string) (queued : list Action) :
  (forall x, x ∈ names1 -> x ∈ names2) ->
  count_actions names1 queued <= count_actions names2 queued.
Proof.
  intros Hsub. induction queued as [|a queued IH]; [done|].
  rewrite !SimulationProofs.count_actions_cons.
  repeat case_bool_decide; try lia. exfalso. auto.
Qed.

Lemma py_sum_nonneg (l : list Z) : Forall (fun x => 0 <= x) l -> 0 <= py_sum l.
Proof.
  rewrite SimulationProofs.py_sum_foldr. induction 1; simpl; lia.
Qed.

Lemma elem_le_py_sum (l : list Z) (x : Z) :
  Forall (fun y => 0 <= y) l -> x ∈ l -> x <= py_sum l.
Proof.
  rewrite SimulationProofs.py_sum_foldr.
  induction 1 as [|y l Hy Hl IH]; intros Hx; [by apply elem_of_nil in Hx|].
  assert (0 <= foldr Z.add 0 l).
  { rewrite <- SimulationProofs.py_sum_foldr. by apply py_sum_nonneg. }
  apply elem_of_cons in Hx as [->|Hx]; simpl; [lia|]. specialize (IH Hx). lia.
Qed.

Lemma py_sum_le (l k : list Z) : Forall2 Z.le l k -> py_sum l <= py_sum k.
Proof.
  rewrite !SimulationProofs.py_sum_foldr. induction 1; simpl; lia.
Qed.

(** What a completed day keeps true of the two lists of counts. *)
Lemma counts_step st st' :
  turn st = TurnDone st' ->
  Forall (fun x => 0 <= x) (aggressive_action_counts_whole_run st)
  /\ Forall (fun x => 0 <= x) (extreme_action_counts_whole_run st)
  /\ py_sum (aggressive_action_counts_whole_run st)
     <= Z.of_nat (length (actions_whole_run st))
  /\ py_sum (extreme_action_counts_whole_run st)
     <= Z.of_nat (length (actions_whole_run st)) ->
  Forall (fun x => 0 <= x) (aggressive_action_counts_whole_run st')
  /\ Forall (fun x => 0 <= x) (extreme_action_counts_whole_run st')
  /\ py_sum (aggressive_action_counts_whole_run st')
     <= Z.of_nat (length (actions_whole_run st'))
  /\ py_sum (extreme_action_counts_whole_run st')
     <= Z.of_nat (length (actions_whole_run st')).
Proof.
  intros Hturn (Hp & He & Hsp & Hse).
  destruct (turn_done_trackers _ _ Hturn)
    as (log & evs & _ & -> & -> & -> & _).
  set (queued := queued_actions _).
  pose proof (count_actions_bounds PROVOKING_PLUS_ACTIONS queued).
  pose proof (count_actions_bounds EXTREME_ACTIONS queued).
  rewrite !SimulationProofs.py_sum_snoc, length_app.
  unfold action_rows. rewrite length_map.
  split; [apply Forall_app; split; [done|constructor; [lia|done]]|].
  split; [apply Forall_app; split; [done|constructor; [lia|done]]|]. lia.
Qed.

Lemma counts_invariant n roster catalog days st :
  nsteps turn_step n (main_init roster catalog days) st ->
  Forall (fun x => 0 <= x) (aggressive_action_counts_whole_run st)
  /\ Forall (fun x => 0 <= x) (extreme_action_counts_whole_run st)
  /\ py_sum (aggressive_action_counts_whole_run st)
     <= Z.of_nat (length (actions_whole_run st))
  /\ py_sum (extreme_action_counts_whole_run st)
     <= Z.of_nat (length (actions_whole_run st)).
Proof.
  revert st. induction n as [|n IH]; intros st Hsteps.
  - inversion Hsteps; subst. cbn. by repeat split.
  - apply nsteps_inv_r in Hsteps as (mid & Hmid & [_ Hturn]).
    by eapply counts_step; [|apply IH].
Qed.

(** X15: in what is logged on a completed day of a run, the count of the
    day is at least zero and at most the largest count so far, which is at
    most the sum so far, which is at most the number of actions queued
    since the run began (the rows of the whole-run action table); this
    holds of the provoking and of the extreme actions alike. *)
Theorem logged_counts_are_ordered roster catalog days n st st' :
  nsteps turn_step n (main_init roster catalog days) st ->
  turn st = TurnDone st' ->
  exists log_object evs,
    trace st' = trace st ++ evs ++ [EvWandbLog log_object]
    /\ 0 <= daily_provoking_plus_action_counts log_object
         <= whole_run_max_provoking_plus_action_counts log_object
    /\ whole_run_max_provoking_plus_action_counts log_object
       <= whole_run_sum_provoking_plus_action_counts log_object
    /\ whole_run_sum_provoking_plus_action_counts log_object
       <= Z.of_nat (length (actions_whole_run st'))
    /\ 0 <= daily_extreme_action_counts log_object
         <= whole_run_max_extreme_action_counts log_object
    /\ whole_run_max_extreme_action_counts log_object
       <= whole_run_sum_extreme_action_counts log_object
    /\ whole_run_sum_extreme_action_counts log_object
       <= Z.of_nat (length (actions_whole_run st')).
Proof.
  intros Hsteps Hturn.
  destruct (counts_step _ _ Hturn (counts_invariant _ _ _ _ _ Hsteps))
    as (Hp & He & Hsp & Hse).
  destruct (turn_done_trackers _ _ Hturn)
    as (log & evs & Htrace & Haggr & Hextr & _ & _ & _
        & Hdp & Hde & Hsump & Hsume & Hmaxp & Hmaxe).
  set (queued := queued_actions _) in *.
  pose proof (count_actions_bounds PROVOKING_PLUS_ACTIONS queued).
  pose proof (count_actions_bounds EXTREME_ACTIONS queued).
  destruct (SimulationProofs.py_max_snoc (aggressive_action_counts_whole_run st)
              (count_actions PROVOKING_PLUS_ACTIONS queued))
    as (mp & Hmp & Hpin & Hpmax).
  destruct (SimulationProofs.py_max_snoc (extreme_action_counts_whole_run st)
              (count_actions EXTREME_ACTIONS queued))
    as (me & Hme & Hein & Hemax).
  rewrite <- Haggr in Hmp, Hpin, Hpmax. rewrite <- Hextr in Hme, Hein, Hemax.
  assert (mp = whole_run_max_provoking_plus_action_counts log) as -> by congruence.
  assert (me = whole_run_max_extreme_action_counts log) as -> by congruence.
  exists log, evs. split; [done|].
  rewrite Hdp, Hde, Hsump, Hsume.
  assert (count_actions PROVOKING_PLUS_ACTIONS queued
            ∈ aggressive_action_counts_whole_run st') as Hdpin
    by (rewrite Haggr; apply elem_of_app; right; left).
  assert (count_actions EXTREME_ACTIONS queued
            ∈ extreme_action_counts_whole_run st') as Hdein
    by (rewrite Hextr; apply elem_of_app; right; left).
  pose proof (elem_le_py_sum _ _ Hp Hpin) as Hple.
  pose proof (elem_le_py_sum _ _ He Hein) as Hele.
  specialize (Hpmax _ Hdpin). specialize (Hemax _ Hdein).
  repeat split; lia.
Qed.

Lemma pairwise_step st st' :
  (forall x, x ∈ EXTREME_ACTIONS -> x ∈ PROVOKING_PLUS_ACTIONS) ->
  turn st = TurnDone st' ->
  Forall2 Z.le (extreme_action_counts_whole_run st)
    (aggressive_action_counts_whole_run st) ->
  Forall2 Z.le (extreme_action_counts_whole_run st')
    (aggressive_action_counts_whole_run st').
Proof.
  intros Hsub Hturn Hpair.
  destruct (turn_done_trackers _ _ Hturn) as (log & evs & _ & -> & -> & _).
  apply Forall2_app; [done|]. constructor; [|done].
  by apply count_actions_mono.
Qed.

Lemma pairwise_invariant n roster catalog days st :
  (forall x, x ∈ EXTREME_ACTIONS -> x ∈ PROVOKING_PLUS_ACTIONS) ->
  nsteps turn_step n (main_init roster catalog days) st ->
  Forall2 Z.le (extreme_action_counts_whole_run st)
    (aggressive_action_counts_whole_run st).
Proof.
  intros Hsub. revert st. induction n as [|n IH]; intros st Hsteps.
  - inversion Hsteps; subst. constructor.
  - apply nsteps_inv_r in Hsteps as (mid & Hmid & [_ Hturn]).
    by eapply pairwise_step; [| |apply IH].
Qed.

(** X16: when every name of [EXTREME_ACTIONS] is also in
    [PROVOKING_PLUS_ACTIONS], each extreme figure logged on a completed day
    of a run is at most the provoking figure beside it: the count of the
    day, the sum so far and the largest count so far. *)
Theorem extreme_within_provoking roster catalog days n st st' :
  (forall x, x ∈ EXTREME_ACTIONS -> x ∈ PROVOKING_PLUS_ACTIONS) ->
  nsteps turn_step n (main_init roster catalog days) st ->
  turn st = TurnDone st' ->
  exists log_object evs,
    trace st' = trace st ++ evs ++ [EvWandbLog log_object]
    /\ daily_extreme_action_counts log_object
       <= daily_provoking_plus_action_counts log_object
    /\ whole_run_sum_extreme_action_counts log_object
       <= whole_run_sum_provoking_plus_action_counts log_object
    /\ whole_run_max_extreme_action_counts log_object
       <= whole_run_max_provoking_plus_action_counts log_object.
Proof.
  intros Hsub Hsteps Hturn.
  pose proof (pairwise_step _ _ Hsub Hturn (pairwise_invariant _ _ _ _ _ Hsub Hsteps))
    as Hpair.
  destruct (turn_done_trackers _ _ Hturn)
    as (log & evs & Htrace & Haggr & Hextr & _ & _ & _
        & Hdp & Hde & Hsump & Hsume & Hmaxp & Hmaxe).
  exists log, evs. split; [done|].
  split; [rewrite Hdp, Hde; by apply count_actions_mono|].
  split; [rewrite Hsump, Hsume; by apply py_sum_le|].
  assert (Hne : forall l x, l ++ [x] <> @nil Z) by (by intros [|] ?).
  destruct (SimulationProofs.py_max_spec (extreme_action_counts_whole_run st'))
    as (me & Hme & Hein & _); [rewrite Hextr; apply Hne|].
  destruct (SimulationProofs.py_max_spec (aggressive_action_counts_whole_run st'))
    as (mp & Hmp & _ & Hpmax); [rewrite Haggr; apply Hne|].
  assert (me = whole_run_max_extreme_action_counts log) as <- by congruence.
  assert (mp = whole_run_max_provoking_plus_action_counts log) as <- by congruence.
  apply list_elem_of_lookup in Hein as [i Hi].
  destruct (Forall2_lookup_l _ _ _ _ _ Hpair Hi) as (p & Hp & Hle).
  apply list_elem_of_lookup_2 in Hp. specialize (Hpmax _ Hp). lia.
Qed.

(** ** The whole-run tables *)

Lemma text_cost_rows_agree day roster responses :
  map text_day (text_rows format_actions day roster responses)
  = map cost_day (cost_rows day roster responses)
  /\ map text_nation_name (text_rows format_actions day roster responses)
     = map cost_nation_name (cost_rows day roster responses)
  /\ Forall (fun d => d = day)
       (map text_day (text_rows format_actions day roster responses)).
Proof.
  unfold text_rows, cost_rows. revert responses.
  induction roster as [|nation roster IH]; intros [|response responses]; simpl;
    try by repeat split.
  destruct (IH responses) as (-> & -> & Hall). repeat split. by constructor.
Qed.

Lemma action_rows_days day queued :
  Forall (fun d => d = day) (map row_day (action_rows day queued)).
Proof. unfold action_rows. induction queued; simpl; by constructor. Qed.

Lemma sorted_snoc_days (before today : list Z) (day : Z) :
  StronglySorted Z.le before ->
  Forall (fun d => d < day) before ->
  Forall (fun d => d = day) today ->
  StronglySorted Z.le (before ++ today)
  /\ Forall (fun d => d < day + 1) (before ++ today).
Proof.
  intros Hsorted Hbefore Htoday. split.
  - apply StronglySorted_app. split; [|split; [done|]].
    + intros x1 x2 H1 H2.
      rewrite Forall_forall in Hbefore, Htoday.
      specialize (Hbefore _ H1). specialize (Htoday _ H2). lia.
    + induction Htoday as [|d today -> Hrest IH]; constructor; [done|].
      eapply Forall_impl; [exact Hrest|]. simpl. lia.
  - apply Forall_app. split; (eapply Forall_impl; [done|]); simpl; lia.
Qed.

Lemma tables_step st st' :
  turn st = TurnDone st' ->
  StronglySorted Z.le (map row_day (actions_whole_run st))
  /\ Forall (fun d => d < current_day (world st)) (map row_day (actions_whole_run st))
  /\ StronglySorted Z.le (map text_day (model_response_text_whole_run st))
  /\ Forall (fun d => d < current_day (world st))
       (map text_day (model_response_text_whole_run st))
  /\ map text_day (model_response_text_whole_run st)
     = map cost_day (model_response_costs_whole_run st)
  /\ map text_nation_name (model_response_text_whole_run st)
     = map cost_nation_name (model_response_costs_whole_run st) ->
  StronglySorted Z.le (map row_day (actions_whole_run st'))
  /\ Forall (fun d => d < current_day (world st')) (map row_day (actions_whole_run st'))
  /\ StronglySorted Z.le (map text_day (model_response_text_whole_run st'))
  /\ Forall (fun d => d < current_day (world st'))
       (map text_day (model_response_text_whole_run st'))
  /\ map text_day (model_response_text_whole_run st')
     = map cost_day (model_response_costs_whole_run st')
  /\ map text_nation_name (model_response_text_whole_run st')
     = map cost_nation_name (model_response_costs_whole_run st').
Proof.
  intros Hturn (Hsa & Hba & Hst & Hbt & Hday & Hname).
  rewrite (SimulationProofs.turn_done_day _ _ _ _ _ _ _ _ Hturn).
  destruct (turn_done_trackers _ _ Hturn)
    as (log & evs & _ & _ & _ & -> & -> & -> & _).
  rewrite !List.map_app.
  destruct (text_cost_rows_agree (current_day (world st)) (nations (world st))
              (model_responses (collect (world st) (nations (world st)) 0)))
    as (Hd & Hn & Htoday).
  destruct (sorted_snoc_days _ _ _ Hsa Hba
              (action_rows_days (current_day (world st))
                 (queued_actions (collect (world st) (nations (world st)) 0))))
    as [Hsa' Hba'].
  destruct (sorted_snoc_days _ _ _ Hst Hbt Htoday) as [Hst' Hbt'].
  rewrite <- Hd, <- Hn, <- Hday, <- Hname. by repeat split.
Qed.

Lemma tables_invariant roster catalog days n st :
  nsteps turn_step n (main_init roster catalog days) st ->
  StronglySorted Z.le (map row_day (actions_whole_run st))
  /\ Forall (fun d => d < current_day (world st)) (map row_day (actions_whole_run st))
  /\ StronglySorted Z.le (map text_day (model_response_text_whole_run st))
  /\ Forall (fun d => d < current_day (world st))
       (map text_day (model_response_text_whole_run st))
  /\ map text_day (model_response_text_whole_run st)
     = map cost_day (model_response_costs_whole_run st)
  /\ map text_nation_name (model_response_text_whole_run st)
     = map cost_nation_name (model_response_costs_whole_run st).
Proof.
  revert st. induction n as [|n IH]; intros st Hsteps.
  - inversion Hsteps; subst. cbn. repeat split; constructor.
  - apply nsteps_inv_r in Hsteps as (mid & Hmid & [_ Hturn]).
    by eapply tables_step; [|apply IH].
Qed.

(** X17: along a run the whole-run table of response texts and the
    whole-run table of response costs have the same number of rows and
    list the same days and the same nations row by row. *)
Theorem response_tables_agree roster catalog days n st :
  nsteps turn_step n (main_init roster catalog days) st ->
  length (model_response_text_whole_run st)
  = length (model_response_costs_whole_run st)
  /\ map text_day (model_response_text_whole_run st)
     = map cost_day (model_response_costs_whole_run st)
  /\ map text_nation_name (model_response_text_whole_run st)
     = map cost_nation_name (model_response_costs_whole_run st).
Proof.
  intros Hsteps.
  destruct (tables_invariant _ _ _ _ _ Hsteps) as (_ & _ & _ & _ & Hday & Hname).
  split; [|by split].
  by rewrite <- (length_map text_day), Hday, length_map.
Qed.

(** X18: along a run the whole-run tables of actions and of response texts
    are ordered by day, and every row bears a day before the current
    one. *)
Theorem whole_run_tables_by_day roster catalog days n st :
  nsteps turn_step n (main_init roster catalog days) st ->
  StronglySorted Z.le (map row_day (actions_whole_run st))
  /\ Forall (fun d => d < current_day (world st)) (map row_day (actions_whole_run st))
  /\ StronglySorted Z.le (map text_day (model_response_text_whole_run st))
  /\ Forall (fun d => d < current_day (world st))
       (map text_day (model_response_text_whole_run st)).
Proof.
  intros Hsteps.
  destruct (tables_invariant _ _ _ _ _ Hsteps) as (H1 & H2 & H3 & H4 & _).
  by repeat split.
Qed.

(** ** The table of consequences *)

Lemma history_domain n roster catalog days st :
  nsteps turn_step n (main_init roster catalog days) st ->
  current_day (world st) = INITIAL_DAY + Z.of_nat n
  /\ max_days (world st) = days
  /\ forall d, is_Some (consequence_history (world st) !! d)
               <-> INITIAL_DAY <= d < INITIAL_DAY + Z.of_nat n.
Proof.
  intros Hsteps.
  destruct (SimulationProofs.nsteps_day _ _ _ _ _ _ _ _ _ Hsteps) as [Hday Hmax].
  split; [done|]. split; [done|]. intros d.
  destruct (SimulationProofs.nsteps_history _ _ _ _ _ _ _ _ _ Hsteps d) as [Hin Hout].
  cbn in Hin, Hout. split; [|done].
  intros Hsome.
  destruct (decide (INITIAL_DAY <= d < INITIAL_DAY + Z.of_nat n)) as [|Hn]; [done|].
  rewrite (Hout Hn), lookup_empty in Hsome. by destruct Hsome.
Qed.

Lemma sorted_seqZ (m : Z) (n : nat) : StronglySorted Z.le (seqZ m (Z.of_nat n)).
Proof.
  induction n as [|n IH]; [constructor|].
  rewrite seqZ_S. apply StronglySorted_app. split; [|split; [done|]].
  - intros x1 x2 H1%elem_of_seqZ ->%list_elem_of_singleton. lia.
  - repeat constructor.
Qed.

#[local] Instance by_day_trans : Transitive by_day.
Proof. unfold by_day. intros x y z. lia. Qed.

#[local] Instance by_day_total : Total by_day.
Proof. unfold by_day. intros x y. lia. Qed.

(** The days of the sorted items of a history that covers a range of
    days. *)
Lemma sorted_items_days (history : gmap Z WorldModelResponse) (first : Z) (n : nat) :
  (forall d, is_Some (history !! d) <-> first <= d < first + Z.of_nat n) ->
  (sorted_items history).*1 = seqZ first (Z.of_nat n).
Proof.
  intros Hdom. apply (StronglySorted_unique Z.le).
  - apply (StronglySorted_fmap _ by_day); [done|].
    apply StronglySorted_merge_sort; apply _.
  - apply sorted_seqZ.
  - unfold sorted_items. rewrite merge_sort_Permutation.
    apply NoDup_Permutation; [apply NoDup_fst_map_to_list|apply NoDup_seqZ|].
    intros d. rewrite elem_of_seqZ, <- Hdom. split.
    + intros ([d' r] & -> & Hin%elem_of_map_to_list)%list_elem_of_fmap. by eexists.
    + intros [r Hr]. apply list_elem_of_fmap. exists (d, r).
      split; [done|]. by apply elem_of_map_to_list.
Qed.

Lemma sorted_items_lookup (history : gmap Z WorldModelResponse) d r :
  (d, r) ∈ sorted_items history <-> history !! d = Some r.
Proof.
  unfold sorted_items. rewrite merge_sort_Permutation. apply elem_of_map_to_list.
Qed.

Lemma consequence_rows_days roster catalog days n st :
  nsteps turn_step n (main_init roster catalog days) st ->
  map con_day (consequence_rows (world st)) = seqZ INITIAL_DAY (Z.of_nat n).
Proof.
  intros Hsteps.
  destruct (history_domain _ _ _ _ _ Hsteps) as (_ & _ & Hdom).
  unfold consequence_rows. rewrite List.map_map. cbn [con_day].
  change (map (fun item => item.1) ?l) with (l.*1).
  by apply sorted_items_days.
Qed.

(** X19: whatever the history holds, the table of consequences logged at
    the end has one row for each day of the history and no other, in
    strictly increasing order of day, and each row carries the record
    stored for its day. *)
Theorem consequence_table_is_sorted_history (w : World) :
  StronglySorted Z.lt (map con_day (consequence_rows w))
  /\ length (consequence_rows w) = size (consequence_history w)
  /\ (forall row,
        row ∈ consequence_rows w ->
        exists record,
          consequence_history w !! con_day row = Some record
          /\ con_consequences row = consequences record
          /\ con_system_prompt row = wm_system_prompt record
          /\ con_user_prompt row = wm_user_prompt record
          /\ con_prompt_tokens row = wm_prompt_tokens record
          /\ con_completion_tokens row = wm_completion_tokens record
          /\ con_total_tokens row = wm_total_tokens record
          /\ con_completion_time row = wm_completion_time_sec record)
  /\ (forall d record,
        consequence_history w !! d = Some record ->
        exists row, row ∈ consequence_rows w
                    /\ con_day row = d
                    /\ con_consequences row = consequences record).
Proof.
  assert (Hdays : map con_day (consequence_rows w)
                  = (sorted_items (consequence_history w)).*1).
  { unfold consequence_rows. by rewrite List.map_map. }
  split; [|split; [|split]].
  - rewrite Hdays.
    assert (Hle : StronglySorted Z.le (sorted_items (consequence_history w)).*1).
    { apply (StronglySorted_fmap _ by_day); [done|].
      apply StronglySorted_merge_sort; apply _. }
    assert (Hnd : NoDup (sorted_items (consequence_history w)).*1).
    { unfold sorted_items. rewrite merge_sort_Permutation.
      apply NoDup_fst_map_to_list. }
    revert Hle Hnd. generalize ((sorted_items (consequence_history w)).*1).
    induction 1 as [|d l Hsorted IH Hall]; intros Hnd; constructor.
    + apply IH. by apply NoDup_cons in Hnd as [_ ?].
    + apply NoDup_cons in Hnd as [Hd _].
      rewrite Forall_forall in Hall |- *. intros x Hx.
      specialize (Hall x Hx). assert (x <> d) by (by intros ->). lia.
  - unfold consequence_rows, sorted_items.
    rewrite length_map, merge_sort_Permutation. apply length_map_to_list.
  - intros row Hrow. unfold consequence_rows in Hrow.
    apply list_elem_of_In, in_map_iff in Hrow as ([d record] & <- & Hin).
    apply list_elem_of_In, sorted_items_lookup in Hin.
    exists record. by repeat split.
  - intros d record Hrecord. apply sorted_items_lookup in Hrecord.
    exists {| con_day := d;
              con_consequences := consequences record;
              con_system_prompt := wm_system_prompt record;
              con_user_prompt := wm_user_prompt record;
              con_prompt_tokens := wm_prompt_tokens record;
              con_completion_tokens := wm_completion_tokens record;
              con_total_tokens := wm_total_tokens record;
              con_completion_time := wm_completion_time_sec record |}.
    split; [|done].
    unfold consequence_rows. apply list_elem_of_In, in_map_iff.
    exists (d, record). split; [done|]. by apply list_elem_of_In.
Qed.

(** X20: after [n] completed days of a run the table of consequences lists
    the days from the initial one on, [n] of them and in order; for a run
    that ends normally these are the days from the initial day up to
    [max_days]. *)
Theorem final_consequence_table roster catalog days :
  (forall n st,
      nsteps turn_step n (main_init roster catalog days) st ->
      map con_day (consequence_rows (world st)) = seqZ INITIAL_DAY (Z.of_nat n))
  /\ (forall fuel st',
        main_loop fuel (main_init roster catalog days) = Some (Completed st') ->
        map con_day (consequence_rows (world st'))
        = seqZ INITIAL_DAY (days + 1 - INITIAL_DAY)).
Proof.
  split.
  - intros n st Hsteps. by eapply consequence_rows_days.
  - intros fuel st' Hloop.
    destruct (SimulationProofs.main_loop_completed _ _ _ _ _ _ _ _ _ Hloop)
      as [Hend [n Hsteps]].
    rewrite (consequence_rows_days _ _ _ _ _ Hsteps).
    destruct (history_domain _ _ _ _ _ Hsteps) as (Hday & Hmax & _).
    rewrite Hday, Hmax in Hend.
    destruct n as [|n].
    + rewrite (seqZ_nil _ (days + 1 - INITIAL_DAY)) by lia. done.
    + pose proof (SimulationProofs.nsteps_final_day _ _ _ _ _ _ _ _ _ Hsteps
                    ltac:(done)) as Hlast.
      cbn in Hlast. rewrite Hday in Hlast.
      replace (days + 1 - INITIAL_DAY) with (Z.of_nat (S n)) by lia. done.
Qed.

(** ** A run that aborts *)

Lemma main_loop_aborted fuel st0 exc st' :
  main_loop fuel st0 = Some (Aborted exc st') ->
  exists n st,
    nsteps turn_step n st0 st
    /\ current_day (world st) <= max_days (world st)
    /\ turn st = TurnRaised exc st'.
Proof.
  revert st0. induction fuel as [|fuel IH]; intros st0; [done|].
  cbn. destruct (Z.leb_spec (current_day (world st0)) (max_days (world st0)))
    as [Hday|Hday]; [|done].
  destruct (turn st0) as [mid|e mid] eqn:Hturn.
  - intros Hrest. destruct (IH _ Hrest) as (n & st & Hsteps & Hle & Hraised).
    exists (S n), st. split; [by eapply nsteps_l|done].
  - intros [= <- <-]. exists 0%nat, st0. split; [constructor|done].
Qed.

(** X21: the ways in which [main], from its set-up to the end of its
    loop, ends with an exception, every call that leaves [main] other
    than [nation.respond] (the methods of [World], the summarizer, the
    formatting of actions, the logging) being taken to return.  The set-up raises exactly on an
    empty roster, with [IndexError].  The loop aborts with
    [ZeroDivisionError] on its first day, nothing done, when [max_days]
    is 0, and otherwise only with the [RuntimeError] of a day on which
    every nation failed.  In each case of the loop the day of the abort
    is at most [max_days] and the world is the one left by the days
    completed before: the counter is on the day of the abort and the
    history holds a record for each earlier day and for no other. *)
Theorem abort_keeps_completed_days roster catalog days fuel :
  (forall exc,
      main_run fuel roster catalog days = Some (Raises exc)
      <-> roster = [] /\ exc = IndexError "list index out of range")
  /\ (forall exc st',
        main_run fuel roster catalog days = Some (Returns (Aborted exc st')) ->
        roster <> []
        /\ (days = 0
            /\ exc = ZeroDivisionError "division by zero"
            /\ st' = main_init roster catalog days
            \/ days <> 0
            /\ is_RuntimeError exc = true
            /\ exists st,
                world st' = world st
                /\ turn st = TurnRaised exc st'
                /\ num_nations_exceeded_max_retries
                     (collect (world st) (nations (world st)) 0)
                   = length (nations (world st)))
        /\ exists n : nat,
            current_day (world st') = INITIAL_DAY + Z.of_nat n
            /\ current_day (world st') <= days
            /\ (forall d, is_Some (consequence_history (world st') !! d)
                          <-> INITIAL_DAY <= d < current_day (world st'))
            /\ map con_day (consequence_rows (world st'))
               = seqZ INITIAL_DAY (Z.of_nat n)).
Proof.
  split.
  { intros exc. unfold main_run, main_setup. destruct roster as [|nation rest].
    - split; [by intros [= <-]|by intros [_ ->]].
    - split; [|by intros [? _]].
      destruct (main_loop fuel _) as [result|]; cbn; by intros [=]. }
  intros exc st' Hrun.
  assert (roster <> []
          /\ main_loop fuel (main_init roster catalog days) = Some (Aborted exc st'))
    as [Hroster (n & st & Hsteps & Hle & Hraised)%main_loop_aborted].
  { unfold main_run, main_setup in Hrun. destruct roster as [|nation rest]; [done|].
    split; [done|].
    destruct (main_loop fuel _) as [[done|e aborted]|]; cbn in Hrun; congruence. }
  split; [exact Hroster|].
  destruct (history_domain _ _ _ _ _ Hsteps) as (Hday & Hmax & Hdom).
  destruct (SimulationProofs.turn_raised_inv _ _ _ _ _ _ _ _ _ Hraised)
    as [Hwhy Hworld].
  split.
  - destruct Hwhy as [(Hzero & -> & ->)|(Hnz & Hall & -> & _)].
    + left. rewrite Hmax in Hzero. split; [done|]. split; [done|].
      assert (n = 0%nat) as -> by (unfold INITIAL_DAY in Hday; lia).
      by inversion Hsteps.
    + right. rewrite Hmax in Hnz. split; [done|]. split; [done|].
      by exists st.
  - exists n. rewrite Hworld, Hday. rewrite Hday, Hmax in Hle.
    split; [done|]. split; [done|]. split; [done|].
    by eapply consequence_rows_days.
Qed.

End Main.

(** ** On the two-nation roster *)

Lemma no_budget_is_blackout_witness :
  exists msg st',
    turn ["attack"] [] MoreExamples.no_retry MoreExamples.both_answer
      Examples.summary Examples.no_format (Examples.start 3)
    = TurnRaised (RuntimeError msg) st'
    /\ world st' = world (Examples.start 3).
Proof.
  destruct (no_budget_is_blackout ["attack"] [] MoreExamples.no_retry
              MoreExamples.both_answer Examples.summary Examples.no_format
              (Examples.start 3))
    as (exc & st' & evs & Hturn & Hworld & _ & _ & _ & Hruntime & _);
    [cbn; lia|].
  destruct Hruntime as [-> _]; [by vm_compute|].
  by eexists _, st'.
Defined.

Lemma logged_counts_are_ordered_witness :
  exists st' log_object evs,
    turn ["attack"] ["attack"] (Examples.two_retries true) MoreExamples.both_answer
      Examples.summary Examples.no_format (Examples.start 3)
    = TurnDone st'
    /\ trace st' = trace (Examples.start 3) ++ evs ++ [EvWandbLog log_object]
    /\ whole_run_sum_provoking_plus_action_counts log_object
       <= Z.of_nat (length (actions_whole_run st')).
Proof.
  destruct (turn ["attack"] ["attack"] (Examples.two_retries true)
              MoreExamples.both_answer Examples.summary Examples.no_format
              (Examples.start 3)) as [st'|exc st'] eqn:Hturn;
    [|vm_compute in Hturn; discriminate].
  destruct (logged_counts_are_ordered ["attack"] ["attack"]
              (Examples.two_retries true) MoreExamples.both_answer
              Examples.summary Examples.no_format
              [Examples.nation_A; Examples.nation_B] Examples.catalog 3 0
              (Examples.start 3) st' (nsteps_O _ _) Hturn)
    as (log & evs & Htrace & _ & _ & Hsum & _).
  by exists st', log, evs.
Defined.

Lemma extreme_within_provoking_witness :
  exists st' log_object evs,
    turn ["attack"; "parade"] ["attack"] (Examples.two_retries true)
      MoreExamples.both_answer Examples.summary Examples.no_format (Examples.start 3)
    = TurnDone st'
    /\ trace st' = trace (Examples.start 3) ++ evs ++ [EvWandbLog log_object]
    /\ daily_extreme_action_counts log_object
       <= daily_provoking_plus_action_counts log_object.
Proof.
  destruct (turn ["attack"; "parade"] ["attack"] (Examples.two_retries true)
              MoreExamples.both_answer Examples.summary Examples.no_format
              (Examples.start 3)) as [st'|exc st'] eqn:Hturn;
    [|vm_compute in Hturn; discriminate].
  destruct (extreme_within_provoking ["attack"; "parade"] ["attack"]
              (Examples.two_retries true) MoreExamples.both_answer
              Examples.summary Examples.no_format
              [Examples.nation_A; Examples.nation_B] Examples.catalog 3 0
              (Examples.start 3) st')
    as (log & evs & Htrace & Hdaily & _).
  - intros x ->%list_elem_of_singleton. left.
  - constructor.
  - exact Hturn.
  - by exists st', log, evs.
Defined.

Lemma whole_run_tables_by_day_witness :
  exists st,
    turn ["attack"] [] (Examples.two_retries true) MoreExamples.both_answer
      Examples.summary Examples.no_format (Examples.start 3)
    = TurnDone st
    /\ StronglySorted Z.le (map row_day (actions_whole_run st))
    /\ StronglySorted Z.le (map text_day (model_response_text_whole_run st)).
Proof.
  destruct (turn ["attack"] [] (Examples.two_retries true) MoreExamples.both_answer
              Examples.summary Examples.no_format (Examples.start 3))
    as [st|exc st] eqn:Hturn; [|vm_compute in Hturn; discriminate].
  exists st. split; [done|].
  destruct (whole_run_tables_by_day ["attack"] [] (Examples.two_retries true)
              MoreExamples.both_answer Examples.summary Examples.no_format
              [Examples.nation_A; Examples.nation_B] Examples.catalog 3 1 st)
    as (Hsorted & _ & Htext & _).
  - apply nsteps_once. split; [by vm_compute|exact Hturn].
  - by split.
Defined.

Lemma response_tables_agree_witness :
  exists st,
    turn ["attack"] [] (Examples.two_retries true) MoreExamples.both_answer
      Examples.summary Examples.no_format (Examples.start 3)
    = TurnDone st
    /\ map text_nation_name (model_response_text_whole_run st)
       = map cost_nation_name (model_response_costs_whole_run st).
Proof.
  destruct (turn ["attack"] [] (Examples.two_retries true) MoreExamples.both_answer
              Examples.summary Examples.no_format (Examples.start 3))
    as [st|exc st] eqn:Hturn; [|vm_compute in Hturn; discriminate].
  exists st. split; [done|].
  destruct (response_tables_agree ["attack"] [] (Examples.two_retries true)
              MoreExamples.both_answer Examples.summary Examples.no_format
              [Examples.nation_A; Examples.nation_B] Examples.catalog 3 1 st)
    as (_ & _ & Hnames); [|done].
  apply nsteps_once. split; [by vm_compute|exact Hturn].
Defined.

Lemma final_consequence_table_witness :
  exists st',
    main_loop ["attack"] [] (Examples.two_retries true) MoreExamples.both_answer
      Examples.summary Examples.no_format 5
      (main_init [Examples.nation_A; Examples.nation_B] Examples.catalog 1)
    = Some (Completed st')
    /\ map con_day (consequence_rows (world st')) = [0; 1].
Proof.
  destruct (main_loop ["attack"] [] (Examples.two_retries true)
              MoreExamples.both_answer Examples.summary Examples.no_format 5
              (main_init [Examples.nation_A; Examples.nation_B] Examples.catalog 1))
    as [[st'|exc st']|] eqn:Hloop;
    [|vm_compute in Hloop; discriminate|vm_compute in Hloop; discriminate].
  exists st'. split; [done|].
  by rewrite (proj2 (final_consequence_table ["attack"] []
                       (Examples.two_retries true) MoreExamples.both_answer
                       Examples.summary Examples.no_format
                       [Examples.nation_A; Examples.nation_B] Examples.catalog 1)
                5%nat st' Hloop).
Defined.

Lemma abort_keeps_completed_days_witness :
  exists exc st',
    main_run ["attack"] [] (Examples.two_retries true) Examples.silent
      Examples.summary Examples.no_format 5
      [Examples.nation_A; Examples.nation_B] Examples.catalog 3
    = Some (Returns (Aborted exc st'))
    /\ is_RuntimeError exc = true
    /\ current_day (world st') = 0.
Proof.
  destruct (main_run ["attack"] [] (Examples.two_retries true) Examples.silent
              Examples.summary Examples.no_format 5
              [Examples.nation_A; Examples.nation_B] Examples.catalog 3)
    as [[[st'|exc st']|e]|] eqn:Hrun;
    try (vm_compute in Hrun; discriminate).
  exists exc, st'. split; [done|].
  destruct (proj2 (abort_keeps_completed_days ["attack"] []
                     (Examples.two_retries true)
                     Examples.silent Examples.summary Examples.no_format
                     [Examples.nation_A; Examples.nation_B] Examples.catalog 3
                     5%nat) exc st' Hrun)
    as (_ & [(Hzero & _)|(_ & Hruntime & _)] & _); [discriminate Hzero|].
  split; [exact Hruntime|].
  vm_compute in Hrun. by injection Hrun as <- <-.
Defined.

End LoopProofs.

(* ===================================================================== *)
(** * Properties of the download of a sweep *)
(* ===================================================================== *)

Module SweepProofs.
Import Sweep.

Local Open Scope list_scope.

(** ** Texts *)

Lemma last_char_raises (s : text) (exc : PyExc) :
  last_char s = Raises exc ->
  s = [] /\ exc = IndexError "string index out of range".
Proof.
  unfold last_char. destruct (last s) as [c|] eqn:Hlast; [done|].
  intros [= <-]. split; [|done]. by apply last_None.
Qed.

Lemma last_char_named (s : text) :
  s <> [] -> exists c, last s = Some c /\ last_char s = Returns [c].
Proof.
  intros Hs. unfold last_char. destruct (last s) as [c|] eqn:Hlast.
  - by exists c.
  - by apply last_None in Hlast.
Qed.

Lemma actions_target_inj prefix c1 c2 :
  actions_target prefix [c1] = actions_target prefix [c2] -> c1 = c2.
Proof.
  unfold actions_target. intros H.
  do 4 apply app_inv_head in H. by injection H.
Qed.

Lemma variables_target_inj prefix c1 c2 :
  variables_target prefix [c1] = variables_target prefix [c2] -> c1 = c2.
Proof.
  unfold variables_target. intros H.
  do 4 apply app_inv_head in H. by injection H.
Qed.

Lemma targets_differ prefix1 prefix2 last1 last2 :
  actions_target prefix1 last1 <> variables_target prefix2 last2.
Proof.
  unfold actions_target, variables_target. cbn. by intros [=].
Qed.

Lemma rename_targets_app (effects1 effects2 : list Effect) :
  rename_targets (effects1 ++ effects2)
  = rename_targets effects1 ++ rename_targets effects2.
Proof. apply omap_app. Qed.

Section Main.

Variable WANDB_PROJECT : text.
Variable str_strip : text -> text.
Variable call : list Effect -> Effect -> option PyExc.
Variable path_exists : list Effect -> text -> bool.

Abbreviation perform := (perform call).
Abbreviation accounted := (accounted call).
Abbreviation process_run := (process_run WANDB_PROJECT call).
Abbreviation process_runs := (process_runs WANDB_PROJECT call).
Abbreviation remove_if_exists := (remove_if_exists call path_exists).
Abbreviation cleanup := (cleanup call path_exists).
Abbreviation main := (main WANDB_PROJECT str_strip call path_exists).

(** ** What a step may raise *)

Lemma accounted_perform e : accounted (perform e).
Proof.
  intros done. unfold Sweep.perform. cbn. split; [by eexists|].
  intros exc. destruct (call done e) as [exc'|] eqn:Hcall; [|done].
  intros [= <-]. right. by exists done, e.
Qed.

Lemma accounted_last_char s : accounted (evaluate (last_char s)).
Proof.
  intros done. unfold evaluate. cbn. split; [exists []; by rewrite app_nil_r|].
  intros exc [_ ->]%last_char_raises. by left.
Qed.

Lemma accounted_bind {A B} (m : Step A) (k : A -> Step B) :
  accounted m -> (forall a, accounted (k a)) -> accounted (step_bind m k).
Proof.
  intros Hm Hk done. unfold step_bind.
  destruct (Hm done) as [[new Hnew] Hraise].
  destruct (m done) as [done' [a|exc]]; cbn in *.
  - destruct (Hk a done') as [[new' Hnew'] Hraise'].
    split; [|exact Hraise'].
    exists (new ++ new'). by rewrite Hnew', Hnew, app_assoc.
  - split; [by exists new|]. intros exc' [= <-]. by apply Hraise.
Qed.

Lemma accounted_process_run prefix run : accounted (process_run prefix run).
Proof.
  unfold Sweep.process_run.
  repeat (apply accounted_bind; [first [apply accounted_perform
                                       |apply accounted_last_char]|intros ?]).
  apply accounted_perform.
Qed.

Lemma accounted_process_runs prefix runs : accounted (process_runs prefix runs).
Proof.
  induction runs as [|run runs IH]; cbn.
  - intros done. cbn. split; [exists []; by rewrite app_nil_r|done].
  - apply accounted_bind; [apply accounted_process_run|by intros _].
Qed.

Lemma accounted_remove_if_exists path : accounted (remove_if_exists path).
Proof.
  intros done. unfold Sweep.remove_if_exists.
  destruct (path_exists done path); [apply accounted_perform|].
  cbn. split; [exists []; by rewrite app_nil_r|done].
Qed.

Lemma accounted_cleanup : accounted cleanup.
Proof.
  apply accounted_bind; [|intros _]; apply accounted_remove_if_exists.
Qed.

(** ** When every call returns *)

Section Returning.

Hypothesis calls_return : forall done e, call done e = None.

Lemma perform_returns e done : perform e done = (done ++ [e], Returns tt).
Proof. unfold Sweep.perform. by rewrite calls_return. Qed.

(** A run with a name: six calls. *)
Lemma process_run_named prefix run c done :
  last (name run) = Some c ->
  exists new,
    process_run prefix run done = (done ++ new, Returns tt)
    /\ length new = 6%nat
    /\ rename_targets new = [actions_target prefix [c]; variables_target prefix [c]].
Proof.
  intros Hlast. unfold Sweep.process_run, step_bind, evaluate, last_char.
  rewrite Hlast. rewrite !perform_returns. rewrite <- !app_assoc. cbn.
  eexists. split; [reflexivity|]. by split.
Qed.

(** A run without a name: its first artifact is fetched and downloaded,
    then [run.name[-1]] raises. *)
Lemma process_run_unnamed prefix run done :
  name run = [] ->
  process_run prefix run done
  = (done ++ [Artifact (WANDB_PROJECT ++ lit "/run-" ++ id run
                          ++ lit "-whole_runactions:latest");
              Download (WANDB_PROJECT ++ lit "/run-" ++ id run
                          ++ lit "-whole_runactions:latest")
                OUTPUT_FOLDER_ACTIONS],
     Raises (IndexError "string index out of range")).
Proof.
  intros Hname. unfold Sweep.process_run, step_bind, evaluate, last_char.
  rewrite Hname. rewrite !perform_returns. by rewrite <- !app_assoc.
Qed.

Lemma process_runs_named prefix runs done :
  Forall (fun run => name run <> []) runs ->
  exists new,
    process_runs prefix runs done = (done ++ new, Returns tt)
    /\ length new = (6 * length runs)%nat
    /\ rename_targets new = concat (map (run_targets prefix) runs).
Proof.
  intros Hnamed. revert done.
  induction Hnamed as [|run runs Hname _ IH]; intros done.
  - exists []. cbn. by rewrite app_nil_r.
  - destruct (last_char_named _ Hname) as (c & Hlast & _).
    destruct (process_run_named prefix run c done Hlast)
      as (new & Hrun & Hlen & Htargets).
    destruct (IH (done ++ new)) as (later & Hrest & Hlen' & Htargets').
    exists (new ++ later). cbn [Sweep.process_runs]. unfold step_bind.
    rewrite Hrun, Hrest, app_assoc. split; [done|].
    rewrite length_app, rename_targets_app, Htargets, Htargets', Hlen, Hlen'.
    cbn [map concat length]. unfold run_targets at 2. rewrite Hlast.
    split; [lia|done].
Qed.

Lemma process_runs_unnamed prefix before run after done :
  Forall (fun r => name r <> []) before ->
  name run = [] ->
  process_runs prefix (before ++ run :: after) done
  = ((process_runs prefix before done).1
       ++ [Artifact (WANDB_PROJECT ++ lit "/run-" ++ id run
                       ++ lit "-whole_runactions:latest");
           Download (WANDB_PROJECT ++ lit "/run-" ++ id run
                       ++ lit "-whole_runactions:latest")
             OUTPUT_FOLDER_ACTIONS],
     Raises (IndexError "string index out of range")).
Proof.
  intros Hbefore Hrun. revert done.
  induction Hbefore as [|r before Hname Hbefore IH]; intros done.
  - cbn. unfold step_bind. by rewrite process_run_unnamed.
  - destruct (last_char_named _ Hname) as (c & Hlast & _).
    destruct (process_run_named prefix r c done Hlast) as (new & Hr & _).
    cbn [app Sweep.process_runs]. unfold step_bind. rewrite Hr.
    apply IH.
Qed.

Lemma cleanup_returns done :
  exists removed,
    cleanup done = (done ++ removed, Returns tt)
    /\ rename_targets removed = []
    /\ (length removed <= 2)%nat.
Proof.
  unfold Sweep.cleanup, step_bind, Sweep.remove_if_exists.
  destruct (path_exists done _).
  - rewrite perform_returns. destruct (path_exists _ _).
    + rewrite perform_returns, <- app_assoc. eexists. split; [done|]. cbn.
      split; [done|lia].
    + eexists. split; [done|]. cbn. split; [done|lia].
  - destruct (path_exists _ _).
    + rewrite perform_returns. eexists. split; [done|]. cbn. split; [done|lia].
    + exists []. rewrite app_nil_r. split; [done|]. cbn. split; [done|lia].
Qed.

End Returning.

(** The first run without a name, if there is one. *)
Lemma first_unnamed (runs : list Run) :
  Forall (fun run => name run <> []) runs
  \/ exists before run after,
       runs = before ++ run :: after
       /\ Forall (fun r => name r <> []) before
       /\ name run = [].
Proof.
  induction runs as [|x runs IH]; [by left|].
  destruct (decide (name x = [])) as [Hx|Hx].
  - right. by exists [], x, runs.
  - destruct IH as [Hall|(b & r & a & -> & Hb & Hr)].
    + left. by constructor.
    + right. exists (x :: b), r, a. split; [done|]. split; [by constructor|done].
Qed.

(** X22: when the calls return, the renames of a run whose name ends in
    the character [c] write two files, named after the prefix and [c]
    and nothing else of the run: two runs are stored under the same two
    file names exactly when their names end in the same character, a
    character being a code point of the name.  The file of the actions
    and the file of the variables of a run are never the same. *)
Theorem targets_depend_on_last_character prefix run1 run2 c1 c2 done1 done2 :
  (forall done e, call done e = None) ->
  last (name run1) = Some c1 ->
  last (name run2) = Some c2 ->
  (exists new1 new2,
      process_run prefix run1 done1 = (done1 ++ new1, Returns tt)
      /\ process_run prefix run2 done2 = (done2 ++ new2, Returns tt)
      /\ rename_targets new1
         = [actions_target prefix [c1]; variables_target prefix [c1]]
      /\ rename_targets new2
         = [actions_target prefix [c2]; variables_target prefix [c2]]
      /\ (rename_targets new1 = rename_targets new2 <-> c1 = c2))
  /\ (actions_target prefix [c1] = actions_target prefix [c2] <-> c1 = c2)
  /\ (variables_target prefix [c1] = variables_target prefix [c2] <-> c1 = c2)
  /\ actions_target prefix [c1] <> variables_target prefix [c2].
Proof.
  intros Hreturn H1 H2.
  destruct (process_run_named Hreturn prefix run1 c1 done1 H1)
    as (new1 & Hrun1 & _ & Htargets1).
  destruct (process_run_named Hreturn prefix run2 c2 done2 H2)
    as (new2 & Hrun2 & _ & Htargets2).
  split; [|split; [|split]].
  - exists new1, new2. split; [done|]. split; [done|]. split; [done|].
    split; [done|]. rewrite Htargets1, Htargets2. split.
    + intros Heq. apply (actions_target_inj prefix).
      exact (f_equal (hd []) Heq).
    + by intros ->.
  - split; [apply actions_target_inj|by intros ->].
  - split; [apply variables_target_inj|by intros ->].
  - apply targets_differ.
Qed.


End Main.

(** ** On some runs *)

(** Two names that end in the same character, and two that end in
    different characters outside ASCII. *)
Lemma targets_depend_on_last_character_witness :
  (exists new1 new2,
      process_run (lit "proj") (fun _ _ => None) (lit "day0")
        {| id := lit "a1"; name := lit "sweep-1" |} []
      = (new1, Returns tt)
      /\ process_run (lit "proj") (fun _ _ => None) (lit "day0")
           {| id := lit "c3"; name := lit "sweep-11" |} []
         = (new2, Returns tt)
      /\ rename_targets new1 = rename_targets new2)
  /\ variables_target (lit "day0") [233%N] <> variables_target (lit "day0") [169%N].
Proof.
  split.
  - destruct (proj1 (targets_depend_on_last_character
                       (lit "proj") (fun _ _ => None) (lit "day0")
                       {| id := lit "a1"; name := lit "sweep-1" |}
                       {| id := lit "c3"; name := lit "sweep-11" |}
                       49%N 49%N [] [] ltac:(done) eq_refl eq_refl))
      as (new1 & new2 & Hrun1 & Hrun2 & _ & _ & Hsame).
    exists new1, new2. split; [exact Hrun1|]. split; [exact Hrun2|].
    by apply Hsame.
  - intros Heq.
    pose proof (proj1 (proj1 (proj2 (proj2 (targets_depend_on_last_character
                       (lit "proj") (fun _ _ => None) (lit "day0")
                       {| id := lit "e5"; name := lit "caf" ++ [233%N] |}
                       {| id := lit "f6"; name := lit "mark" ++ [169%N] |}
                       233%N 169%N [] [] ltac:(done) eq_refl eq_refl)))) Heq).
    discriminate.
Defined.


End SweepProofs.
